(** * Edge-mask pruning of a transformer: sampler, edge patcher, trainer

    A shallow embedding of the stochastic mask sampler
    ([mask_samplers/MaskSampler.py]), of the activation cache and the edge
    patching hooks ([pruners/EdgePruner.py]) and of the early-termination
    check of the training loop ([edge_pruning.py]), followed by the
    properties of these programs.

    Numbers.  Tensor entries (activations, gates, modal values, uniform
    noise, losses) are real numbers: arithmetic is exact, rounding and
    overflow are not modelled.  The mask parameters are the one place where
    the program itself inspects IEEE special values ([isnan],
    [nan_to_num]); there an entry is an extended value [fval], a real or
    one of [+inf], [-inf], [NaN].  The sampler and the complexity penalty
    are given twice: on real parameters ([Sampler]), where their order
    properties are stated, and on extended parameters ([SamplerExt]),
    where a [NaN] parameter reaches the sampled gate.

    Tensors.  The batch, position, head and source axes of a tensor are
    nested lists, and the operations on them check lengths the way the
    tensor backend does: an operation on axes that neither agree nor
    broadcast has no result, which the hooks turn into an exception.  The
    feature axis ([d_model], [d_head]) is never indexed by the program; it
    is an element of a real vector space.  The nested tensors of the
    parameter store keep their full shape.

    Base model.  The hooked transformer that the patcher wraps is not part
    of these sources.  The hooks are first studied on their own, on any
    cache contents of matching shapes.  The last part puts them in a
    forward pass ([Forward]): the hook points in the order named by
    [get_cache_hooks] and [get_patching_hooks], the attention and MLP of a
    layer as arbitrary functions, and the residual sums between them. *)

From Stdlib Require Import Reals Lra Lia List Bool ZArith.
From stdpp Require Import base option list strings gmap.

Set Default Proof Using "Type".
Local Open Scope R_scope.

(** ** Configuration

    [edge_pruning_config] is not part of the sources; the record holds the
    fields of [pruning_cfg] that the modelled code reads. *)

Record PruningCfg := {
  hard_concrete_endpoints : R * R;
  lamb : R;
  n_samples : nat;
  batch_size : nat;
  record_every : Z;
  checkpoint_every : Z
}.

(** ** Scalar functions of the tensor backend *)

Module Scalar.

(** [x.sigmoid()] *)
Definition sigmoid (x : R) : R := 1 / (1 + exp (- x)).

(** [x.relu()] *)
Definition relu (x : R) : R := Rmax 0 x.

(** [x.clamp(lo, hi)], that is [min(max(x, lo), hi)] *)
Definition clamp (lo hi x : R) : R := Rmin (Rmax x lo) hi.

(** [x.log()] on a positive real. *)
Definition log (x : R) : R := ln x.

(** Python's [math.log]: a [ValueError] outside the positive reals. *)
Definition math_log (x : R) : option R :=
  if Rlt_dec 0 x then Some (ln x) else None.

(** Python's float division: a [ZeroDivisionError] on a zero divisor. *)
Definition py_div (a b : R) : option R :=
  if Req_dec_T b 0 then None else Some (a / b).

(** The comparison [x < c] of a tensor entry, as the 0/1 factor it is
    used as in a product. *)
Definition lt_ind (x c : R) : R := if Rlt_dec x c then 1 else 0.

(** [x >= c] as a 0/1 factor. *)
Definition ge_ind (x c : R) : R := if Rge_dec x c then 1 else 0.

End Scalar.

(** ** The hard-concrete sampler on real parameters
    ([MaskSampler.sample_hard_concrete], [MaskSampler.complexity_loss]) *)

Module Sampler.
Import Scalar.

(** One mask parameter: the pair [(location, sharpness)], the last axis
    of a parameter tensor ([sampling_params[...,0]],
    [sampling_params[...,1]]). *)
Definition param : Type := R * R.
Definition location (p : param) : R := fst p.
Definition sharpness (p : param) : R := snd p.

(** The entry of [concrete] for noise [u] and parameter [p]:
    [(((.001+unif).log() - (1-unif).log() + sampling_params[...,0])
      / (sampling_params[...,1].relu()+.001)).sigmoid()] *)
Definition concrete (u : R) (p : param) : R :=
  sigmoid ((log (0.001 + u) - log (1 - u) + location p)
           / (relu (sharpness p) + 0.001)).

(** The entry of [hard_concrete]:
    [((concrete + endpts[0]) * (endpts[1] - endpts[0])).clamp(0,1)] *)
Definition hard_concrete (endpts : R * R) (u : R) (p : param) : R :=
  clamp 0 1 ((concrete u p + fst endpts) * (snd endpts - fst endpts)).

(** [sample_hard_concrete(unif, sampling_params)].  The edge axes of the
    parameter tensor are flattened to one list; [unif] has one row per
    sample, and the parameters broadcast over the rows. *)
Definition sample_hard_concrete (cfg : PruningCfg)
    (unif : list (list R)) (sampling_params : list param) : list (list R) :=
  let endpts := hard_concrete_endpoints cfg in
  map (fun row => zip_with (hard_concrete endpts) row sampling_params) unif.

(** The constant [math.log(-endpts[0]/endpts[1])] of [complexity_loss]. *)
Definition log_endpoint_ratio (cfg : PruningCfg) : option R :=
  let endpts := hard_concrete_endpoints cfg in
  q ← py_div (- fst endpts) (snd endpts); math_log q.

(** One entry of [complexity_loss], given the constant [c]:
    [(sampling_params[...,0] - sampling_params[...,1].relu() * c).sigmoid()] *)
Definition complexity_entry (c : R) (p : param) : R :=
  sigmoid (location p - relu (sharpness p) * c).

(** [complexity_loss(sampling_params)] *)
Definition complexity_loss (cfg : PruningCfg)
    (sampling_params : list param) : option (list R) :=
  c ← log_endpoint_ratio cfg; Some (map (complexity_entry c) sampling_params).

End Sampler.

(** ** Extended values

    The entries of the mask parameters: a real, or one of the IEEE special
    values.  Operations are exact on reals and follow the IEEE rules on the
    special values; zero is unsigned. *)

Module Float.

Inductive fval : Type :=
| Fin (r : R)
| PInf
| NInf
| NaN.

(** [x.isnan()] *)
Definition isnan (x : fval) : bool :=
  match x with NaN => true | _ => false end.

(** [x.isfinite()] *)
Definition isfinite (x : fval) : bool :=
  match x with Fin _ => true | _ => false end.

Definition fneg (x : fval) : fval :=
  match x with
  | Fin r => Fin (- r)
  | PInf => NInf
  | NInf => PInf
  | NaN => NaN
  end.

Definition fadd (x y : fval) : fval :=
  match x, y with
  | NaN, _ | _, NaN => NaN
  | PInf, NInf | NInf, PInf => NaN
  | PInf, _ | _, PInf => PInf
  | NInf, _ | _, NInf => NInf
  | Fin a, Fin b => Fin (a + b)
  end.

Definition fsub (x y : fval) : fval := fadd x (fneg y).

(** The product of an infinity with the real [r]. *)
Definition inf_times (positive : bool) (r : R) : fval :=
  if Rlt_dec 0 r then (if positive then PInf else NInf)
  else if Rlt_dec r 0 then (if positive then NInf else PInf)
  else NaN.

Definition fmul (x y : fval) : fval :=
  match x, y with
  | NaN, _ | _, NaN => NaN
  | Fin a, Fin b => Fin (a * b)
  | PInf, Fin r | Fin r, PInf => inf_times true r
  | NInf, Fin r | Fin r, NInf => inf_times false r
  | PInf, PInf | NInf, NInf => PInf
  | PInf, NInf | NInf, PInf => NaN
  end.

(** Division: a real by zero is an infinity of the sign of the dividend,
    [0/0] and [inf/inf] are [NaN]. *)
Definition fdiv (x y : fval) : fval :=
  match x, y with
  | NaN, _ | _, NaN => NaN
  | Fin a, Fin b =>
      if Req_dec_T b 0 then inf_times true a else Fin (a / b)
  | Fin _, (PInf | NInf) => Fin 0
  | (PInf | NInf), (PInf | NInf) => NaN
  | PInf, Fin b => if Rlt_dec b 0 then NInf else PInf
  | NInf, Fin b => if Rlt_dec b 0 then PInf else NInf
  end.

(** [x.relu()]: [NaN] is propagated. *)
Definition frelu (x : fval) : fval :=
  match x with
  | Fin r => Fin (Scalar.relu r)
  | PInf => PInf
  | NInf => Fin 0
  | NaN => NaN
  end.

(** [x.square()] *)
Definition fsquare (x : fval) : fval := fmul x x.

(** [x.sigmoid()] *)
Definition fsigmoid (x : fval) : fval :=
  match x with
  | Fin r => Fin (Scalar.sigmoid r)
  | PInf => Fin 1
  | NInf => Fin 0
  | NaN => NaN
  end.

(** [x.log()] of a real: [-inf] at zero, [NaN] below. *)
Definition flog (x : R) : fval :=
  if Rlt_dec 0 x then Fin (ln x)
  else if Req_dec_T x 0 then NInf
  else NaN.

(** [x.clamp(lo, hi)], that is [min(max(x, lo), hi)]: [NaN] is
    propagated. *)
Definition fclamp (lo hi : R) (x : fval) : fval :=
  match x with
  | Fin r => Fin (Scalar.clamp lo hi r)
  | PInf => Fin hi
  | NInf => Fin (Rmin lo hi)
  | NaN => NaN
  end.

(** [x > c] for a real constant [c]; false on [NaN]. *)
Definition fgt (x : fval) (c : R) : bool :=
  match x with
  | Fin r => if Rlt_dec c r then true else false
  | PInf => true
  | NInf | NaN => false
  end.

(** [torch.nan_to_num(x, nan=0, posinf=0, neginf=0)] *)
Definition nan_to_num (x : fval) : fval :=
  match x with
  | Fin r => Fin r
  | PInf | NInf | NaN => Fin 0
  end.

(** [t.sum()] of the entries of a tensor. *)
Definition fsum (l : list fval) : fval := foldr fadd (Fin 0) l.

(** The integer result of a count, as the float it is promoted to. *)
Definition of_count (n : nat) : fval := Fin (INR n).

(** [t.mean()]: the sum divided by the number of entries. *)
Definition fmean (l : list fval) : fval := fdiv (fsum l) (of_count (length l)).

End Float.

(** ** The parameter store and its repair
    ([MaskSampler.get_sampling_params], [MaskSampler.fix_nans]) *)

Module Params.
Import Float.

(** A mask parameter tensor.  Its last axis has length two, the pair
    [(location, sharpness)] of one edge; [Row] is a tensor of shape [(2,)]
    and [Axis] adds one leading axis. *)
#[warnings="-register-all"]
Inductive ptensor : Type :=
| Row (location sharpness : fval)
| Axis (sub : list ptensor).

(** [self.sampling_params]: a [ParameterDict] of [ParameterList]s; it is
    iterated in insertion order. *)
Definition store : Type := list (string * list ptensor).

(** The rows of [ts.flatten(start_dim=0, end_dim=-2)], or of
    [ts.unsqueeze(0)] for a tensor of rank one. *)
Fixpoint rows_of (ts : ptensor) : list (fval * fval) :=
  match ts with
  | Row l s => [(l, s)]
  | Axis sub => concat (map rows_of sub)
  end.

(** [torch.cat(tensors, dim=0)] of tensors of shape [N x 2], each given
    by its rows: a [RuntimeError] on an empty list of tensors. *)
Definition cat (tensors : list (list (fval * fval))) : option (list (fval * fval)) :=
  match tensors with
  | [] => None
  | _ :: _ => Some (concat tensors)
  end.

(** [get_sampling_params()]: the N x 2 tensor of all parameters; [None]
    when the store holds no tensor at all, where [torch.cat] raises. *)
Definition get_sampling_params (sp : store) : option (list (fval * fval)) :=
  cat (concat (map (fun kv => map rows_of (snd kv)) sp)).

(** [t.isnan().sum()] of an N x 2 tensor. *)
Definition nan_count (rows : list (fval * fval)) : nat :=
  length (filter (fun x => isnan x = true)
                 (concat (map (fun p => [fst p; snd p]) rows))).

(** [ts.isnan().sum() > 0] *)
Definition has_nan (ts : ptensor) : bool :=
  bool_decide (0 < nan_count (rows_of ts))%nat.

(** A slice assigned the scalar [v]. *)
Fixpoint fill (v : fval) (ts : ptensor) : ptensor :=
  match ts with
  | Row _ _ => Row v v
  | Axis sub => Axis (map (fill v) sub)
  end.

(** The effect of [ts[ts[:,1].isnan().nonzero()[:,0],-1] = def_value] on
    the slice [r = ts[i]].  The row index [i] is selected when [ts[i,1]]
    holds a [NaN]; then [ts[i,-1]] is assigned.  On a tensor of rank two
    [ts[i,1]] and [ts[i,-1]] are both the sharpness of row [i].  [None] is
    the [IndexError] of [ts[:,1]] when the second axis is shorter than
    two. *)
Definition fix_slice (def_value : fval) (r : ptensor) : option ptensor :=
  match r with
  | Row l s => Some (if isnan s then Row l def_value else r)
  | Axis cells =>
      c ← cells !! 1%nat;
      Some (if has_nan c
            then Axis (alter (fill def_value) (pred (length cells)) cells)
            else r)
  end.

(** The same statement on the whole tensor; a tensor of rank one has no
    second axis. *)
Definition fix_tensor (def_value : fval) (ts : ptensor) : option ptensor :=
  match ts with
  | Row _ _ => None
  | Axis rows => Axis <$> mapM (fix_slice def_value) rows
  end.

(** The body of the loop over [self.sampling_params[k]]: the repaired
    list and the conjunction of [not (ts.isnan().sum() > 0)]. *)
Fixpoint fix_list (def_value : fval) (l : list ptensor)
    : option (list ptensor * bool) :=
  match l with
  | [] => Some ([], true)
  | ts :: rest =>
      ts' ← fix_tensor def_value ts;
      '(rest', fixed) ← fix_list def_value rest;
      Some (ts' :: rest', negb (has_nan ts') && fixed)
  end.

(** The loop over the keys [k]. *)
Fixpoint fix_store (def_value : fval) (sp : store) : option (store * bool) :=
  match sp with
  | [] => Some ([], true)
  | (k, l) :: rest =>
      '(l', fixed1) ← fix_list def_value l;
      '(rest', fixed2) ← fix_store def_value rest;
      Some ((k, l') :: rest', fixed1 && fixed2)
  end.

(** [self.def_value = 2/3] *)
Definition def_value : fval := Fin (2 / 3).

(** [fix_nans()]: the parameters after the call and the returned flag;
    [None] when the call raises.  The message printed when [NaN]s are
    present is left out. *)
Definition fix_nans (sp : store) : option (store * bool) :=
  sampling_params ← get_sampling_params sp;
  let nancount := nan_count sampling_params in
  if bool_decide (0 < nancount)%nat then fix_store def_value sp
  else Some (sp, true).

(** A parameter tensor of rank two, from its rows. *)
Definition of_rows (rows : list (fval * fval)) : ptensor :=
  Axis (map (fun p => Row (fst p) (snd p)) rows).

(** A store all of whose tensors have rank two. *)
Definition store2 : Type := list (string * list (list (fval * fval))).

Definition of_store2 (s : store2) : store :=
  map (fun kv => (fst kv, map of_rows (snd kv))) s.

(** Some key of the store holds at least one parameter tensor. *)
Definition holds_tensor {A : Type} (sp : list (string * list A)) : Prop :=
  Exists (fun kv => snd kv <> []) sp.

(** All parameter pairs of a rank-two store. *)
Definition pairs_of (s : store2) : list (fval * fval) :=
  concat (map (fun kv => concat (snd kv)) s).

(** The repair of one pair: a [NaN] sharpness becomes [def_value]. *)
Definition reset_pair (p : fval * fval) : fval * fval :=
  (fst p, if isnan (snd p) then def_value else snd p).

Definition reset_store2 (s : store2) : store2 :=
  map (fun kv => (fst kv, map (map reset_pair) (snd kv))) s.

(** No entry of the pair is [NaN]; every entry of the pair is a real. *)
Definition pair_nan_free (p : fval * fval) : bool :=
  negb (isnan (fst p)) && negb (isnan (snd p)).
Definition pair_finite (p : fval * fval) : bool :=
  isfinite (fst p) && isfinite (snd p).

End Params.

(** ** The mask loss and its metrics ([MaskSampler.get_mask_loss]) *)

Module MaskLoss.
Import Float Params.

(** The fields of a [MaskSampler] read by [get_mask_loss]. *)
Record MaskSampler := {
  sampling_params : store;
  complexity_mean : bool;
  temp_c : R
}.

(** One entry of [complexity_loss] on extended values; [c] is the
    constant [math.log(-endpts[0]/endpts[1])]. *)
Definition complexity_entry (c : R) (p : fval * fval) : fval :=
  fsigmoid (fsub (fst p) (fmul (frelu (snd p)) (Fin c))).

(** [(all_sampling_params[...,1]-1).relu().sum()] *)
Definition temp_excess (sharp : list fval) : fval :=
  fsum (map (fun s => frelu (fsub s (Fin 1))) sharp).

(** [(all_sampling_params[...,1] > 1).sum()] *)
Definition temp_above (sharp : list fval) : nat :=
  length (filter (fun s => fgt s 1 = true) sharp).

(** [torch.nan_to_num(excess / above, nan=0, posinf=0, neginf=0).item() + 1] *)
Definition temp_cond (sharp : list fval) : fval :=
  fadd (nan_to_num (fdiv (temp_excess sharp) (of_count (temp_above sharp))))
       (Fin 1).

(** [get_mask_loss()]: the loss and the metrics dictionary; [None] when
    [get_sampling_params] or the constant of the complexity penalty
    raises.  The four printed lines are left out. *)
Definition get_mask_loss (cfg : PruningCfg) (self : MaskSampler)
    : option (fval * gmap string fval) :=
  all_sampling_params ← get_sampling_params (sampling_params self);
  c ← Sampler.log_endpoint_ratio cfg;
  let complexity_loss := map (complexity_entry c) all_sampling_params in
  let sharp := map snd all_sampling_params in
  let temperature_loss := map fsquare sharp in
  let mask_loss :=
    fadd (fmul (Fin (lamb cfg)) (fsum complexity_loss))
         (fmul (Fin (temp_c self)) (fsum temperature_loss)) in
  let avg_temp := fmean (map frelu sharp) in
  let temp_count :=
    fmean (map (fun s => fsub (fmul (Fin 2) (fsigmoid (frelu s))) (Fin 1)) sharp) in
  let mask_details : gmap string fval :=
    <["complexity_loss" :=
        if complexity_mean self then fmean complexity_loss
        else fsum complexity_loss]>
    (<["temp" := avg_temp]>
    (<["temp_cond" := temp_cond sharp]>
    (<["temp_count" := temp_count]>
    (<["temp_reg" := Fin (temp_c self)]> ∅)))) in
  Some (mask_loss, mask_details).

End MaskLoss.

(** ** The hard-concrete sampler on extended parameters
    ([MaskSampler.sample_hard_concrete], [MaskSampler.complexity_loss])

    The same two functions as in [Sampler], on parameter entries that may
    be infinite or [NaN], the values [fix_nans] looks for.  The uniform
    noise and the endpoint constants are reals; the logarithms of the
    noise are extended values. *)

Module SamplerExt.
Import Scalar Float.

(** One mask parameter: the pair [(location, sharpness)]. *)
Definition param : Type := fval * fval.
Definition location (p : param) : fval := fst p.
Definition sharpness (p : param) : fval := snd p.

(** The entry of [concrete] for noise [u] and parameter [p]:
    [(((.001+unif).log() - (1-unif).log() + sampling_params[...,0])
      / (sampling_params[...,1].relu()+.001)).sigmoid()] *)
Definition concrete (u : R) (p : param) : fval :=
  fsigmoid (fdiv (fadd (fsub (flog (0.001 + u)) (flog (1 - u))) (location p))
                 (fadd (frelu (sharpness p)) (Fin 0.001))).

(** The entry of [hard_concrete]:
    [((concrete + endpts[0]) * (endpts[1] - endpts[0])).clamp(0,1)] *)
Definition hard_concrete (endpts : R * R) (u : R) (p : param) : fval :=
  fclamp 0 1 (fmul (fadd (concrete u p) (Fin (fst endpts)))
                   (Fin (snd endpts - fst endpts))).

(** [sample_hard_concrete(unif, sampling_params)]; the axes as in
    [Sampler.sample_hard_concrete]. *)
Definition sample_hard_concrete (cfg : PruningCfg)
    (unif : list (list R)) (sampling_params : list param) : list (list fval) :=
  let endpts := hard_concrete_endpoints cfg in
  map (fun row => zip_with (hard_concrete endpts) row sampling_params) unif.

(** [complexity_loss(sampling_params)]; its entries are those that
    [get_mask_loss] sums. *)
Definition complexity_loss (cfg : PruningCfg)
    (sampling_params : list param) : option (list fval) :=
  c ← Sampler.log_endpoint_ratio cfg;
  Some (map (MaskLoss.complexity_entry c) sampling_params).

(** The parameters for which the sampled gate is [NaN]: an entry is
    [NaN], or the location is infinite and the sharpness is [+inf], so
    that the quotient is of two infinities. *)
Definition gate_undefined (p : param) : bool :=
  match location p, sharpness p with
  | NaN, _ | _, NaN => true
  | (PInf | NInf), PInf => true
  | _, _ => false
  end.

(** A real in the closed unit interval. *)
Definition in_unit_interval (g : fval) : Prop :=
  exists r, g = Fin r /\ 0 <= r <= 1.

End SamplerExt.

(** ** The training log and the early-termination check
    ([EdgePruner.early_term], the loop of [edge_pruning.py]) *)

Module Trainer.

(** The training log, [LinePlot]: the per-column series [stat_book], the
    number of entries [t], and the counter [early_term_count] that
    [early_term] keeps on it. *)
Record LinePlot := {
  stat_book : gmap string (list R);
  t : Z;
  early_term_count : Z
}.

Definition set_early_term_count (log : LinePlot) (c : Z) : LinePlot :=
  {| stat_book := stat_book log; t := t log; early_term_count := c |}.

(** [self.log.stat_book["temp"][-1]]: a [KeyError] or an [IndexError]
    when there is no such entry. *)
Definition last_temp (log : LinePlot) : option R :=
  l ← stat_book log !! "temp"%string; last l.

Section EarlyTerm.

(** [LinePlot.stat_sig_growth(column)] is not part of the sources.  It
    returns a pair whose first component is the recent growth of the
    column; [None] stands for an exception. *)
Variable stat_sig_growth : LinePlot -> string -> option (R * R).

(** The test of [early_term]:
    [kl_loss_decl < 0.01 and complex_loss_decl < decline_pct and temp < 1e-2] *)
Definition converged (decline_pct kl_loss_decl complex_loss_decl temp : R) : bool :=
  (if Rlt_dec kl_loss_decl 0.01 then true else false)
  && (if Rlt_dec complex_loss_decl decline_pct then true else false)
  && (if Rlt_dec temp 0.01 then true else false).

(** [early_term(decline_pct)]: the log after the call and the returned
    count. *)
Definition early_term (decline_pct : R) (log : LinePlot) : option (LinePlot * Z) :=
  if (t log <? 500)%Z then Some (log, 0%Z)
  else
    '(kl_loss_decl, _) ← stat_sig_growth log "kl_loss"%string;
    '(complex_loss_decl, _) ← stat_sig_growth log "complexity_loss"%string;
    temp ← last_temp log;
    let count :=
      if converged decline_pct kl_loss_decl complex_loss_decl temp
      then (early_term_count log + 1)%Z
      else Z.max 0 (early_term_count log - 2) in
    Some (set_early_term_count log count, count).

(** Python's [a % b] on integers: the sign of the divisor, and a
    [ZeroDivisionError] for [b = 0]. *)
Definition py_mod (a b : Z) : option Z :=
  if (b =? 0)%Z then None else Some (a mod b)%Z.

(** [plotting = no_batches % (-1 * record_every) == -1] *)
Definition plotting (cfg : PruningCfg) (no_batches : Z) : option bool :=
  m ← py_mod no_batches (-1 * record_every cfg); Some (m =? -1)%Z.

(** [checkpointing = no_batches % (-1 * checkpoint_every * record_every) == -1] *)
Definition checkpointing (cfg : PruningCfg) (no_batches : Z) : option bool :=
  m ← py_mod no_batches (-1 * checkpoint_every cfg * record_every cfg);
  Some (m =? -1)%Z.

(** What one batch of training does to the log of the pruner (the
    forward pass appends the metrics of the step). *)
Variable train_step : Z -> LinePlot -> LinePlot.

(** How the loop ended. *)
Inductive outcome : Type :=
| Stopped (no_batches : Z)   (* [break] after the final snapshot *)
| Exhausted                  (* the range of batches ran out *)
| Raised.                    (* an exception left the loop *)

(** One iteration: the log after it and whether the loop breaks.
    [decline_pct] is left at its default by the call
    [edge_pruner.early_term()]. *)
Definition loop_body (cfg : PruningCfg) (no_batches : Z) (log : LinePlot)
    : option (LinePlot * bool) :=
  is_plotting ← plotting cfg no_batches;
  _ ← checkpointing cfg no_batches;
  let log := train_step no_batches log in
  if is_plotting : bool then
    '(log, count) ← early_term 0.03 log;
    Some (log, (10 <=? count)%Z)
  else Some (log, false).

Fixpoint run (cfg : PruningCfg) (batches : list Z) (log : LinePlot)
    : LinePlot * outcome :=
  match batches with
  | [] => (log, Exhausted)
  | no_batches :: rest =>
      match loop_body cfg no_batches log with
      | None => (log, Raised)
      | Some (log, true) => (log, Stopped no_batches)
      | Some (log, false) => run cfg rest log
      end
  end.

(** [max_batches = 3000] *)
Definition max_batches : Z := 3000.

(** [for no_batches in range(edge_pruner.log.t, max_batches): ...] *)
Definition training_loop (cfg : PruningCfg) (log : LinePlot) : LinePlot * outcome :=
  run cfg (seqZ (t log) (max_batches - t log)) log.

End EarlyTerm.

End Trainer.

(** ** Feature vectors and list tensors *)

Module Tensor.

(** The feature axis ([d_model], [d_head]) of an activation.  The patcher
    only adds such vectors, scales them by gates and sends them through
    the fixed output projection; the feature axis is therefore a real
    vector space. *)
Class VectorSpace (V : Type) : Type := {
  vzero : V;
  vadd : V -> V -> V;
  vscale : R -> V -> V;
  vadd_comm : forall u v, vadd u v = vadd v u;
  vadd_assoc : forall u v w, vadd u (vadd v w) = vadd (vadd u v) w;
  vadd_zero_r : forall v, vadd v vzero = v;
  vscale_one : forall v, vscale 1 v = v;
  vscale_zero : forall v, vscale 0 v = vzero;
  vscale_mult : forall a b v, vscale a (vscale b v) = vscale (a * b) v;
  vscale_plus : forall a b v, vscale (a + b) v = vadd (vscale a v) (vscale b v);
  vscale_vadd : forall a u v, vscale a (vadd u v) = vadd (vscale a u) (vscale a v)
}.

(** A feature axis of length one. *)
#[export] Instance real_vector_space : VectorSpace R.
Proof.
  refine {| vzero := 0; vadd := Rplus; vscale := Rmult |}; intros; ring.
Defined.

Section Lists.
Context {V : Type} `{!VectorSpace V}.

(** [t.sum(dim)] along an axis held as a list. *)
Definition vsum (l : list V) : V := foldr vadd vzero l.

(** Pairing of two axes that must have the same length ([torch.cat],
    [torch.stack]); [None] is the backend's shape error. *)
Definition zip_strict {A B : Type} (l1 : list A) (l2 : list B) : option (list (A * B)) :=
  if decide (length l1 = length l2) then Some (zip l1 l2) else None.

(** Pairing of two axes under broadcasting: equal lengths, or one of the
    two of length one. *)
Definition zip_bc {A B : Type} (l1 : list A) (l2 : list B) : option (list (A * B)) :=
  if decide (length l1 = length l2) then Some (zip l1 l2)
  else match l1, l2 with
       | [a], _ => Some (map (pair a) l2)
       | _, [b] => Some (map (fun a => (a, b)) l1)
       | _, _ => None
       end.

Definition zipM_strict {A B C : Type} (f : A -> B -> option C)
    (l1 : list A) (l2 : list B) : option (list C) :=
  ps ← zip_strict l1 l2; mapM (fun ab => f (fst ab) (snd ab)) ps.

Definition zipM_bc {A B C : Type} (f : A -> B -> option C)
    (l1 : list A) (l2 : list B) : option (list C) :=
  ps ← zip_bc l1 l2; mapM (fun ab => f (fst ab) (snd ab)) ps.

(** [torch.stack(ts, dim)] of tensors with axes [batch, pos, ...], the new
    axis placed after [pos]: from [src][batch][pos] to [batch][pos][src].
    An empty list and tensors of different shapes are errors. *)
Fixpoint stack {A : Type} (ts : list (list (list A))) : option (list (list (list A))) :=
  match ts with
  | [] => None
  | [t] => Some (map (map (fun a => [a])) t)
  | t :: ts' =>
      s ← stack ts';
      zipM_strict (zipM_strict (fun a l => Some (a :: l))) t s
  end.

(** [t.unflatten(0, (-1, n))]: the rows in groups of [n]. *)
Fixpoint chunks {A : Type} (fuel n : nat) (l : list A) : list (list A) :=
  match fuel with
  | O => []
  | S fuel =>
      match l with
      | [] => []
      | _ => take n l :: chunks fuel n (drop n l)
      end
  end.

Definition unflatten {A : Type} (n : nat) (l : list A) : option (list (list A)) :=
  if decide (n <> 0%nat /\ (length l mod n)%nat = 0%nat)
  then Some (chunks (length l) n l) else None.

(** The lengths of the list axes of a tensor, read along first entries. *)
Definition shape1 {A : Type} (t : list A) : list nat := [length t].
Definition shape2 {A : Type} (t : list (list A)) : list nat :=
  length t :: shape1 (hd [] t).
Definition shape3 {A : Type} (t : list (list (list A))) : list nat :=
  length t :: shape2 (hd [] t).
Definition shape4 {A : Type} (t : list (list (list (list A)))) : list nat :=
  length t :: shape3 (hd [] t).

(** The tensor with [n] entries [f 0], ..., [f (n-1)] along its first
    axis. *)
Definition tab {A : Type} (n : nat) (f : nat -> A) : list A := map f (seq 0 n).

End Lists.

End Tensor.

(** ** The activation cache and the edge patcher ([EdgePruner]) *)

Module Pruner.
Import Scalar Tensor.

(** [mask_sampler.sampled_mask]: per key, one gate tensor per destination
    layer.  Axes: [batch], then the circuit ([q], [k], [v]) and the
    destination head for the attention keys, then the source layer, then
    the source head for attention sources. *)
Record SampledMask := {
  mlp_attn : list (list (list (list (list R))));
  attn_attn : list (list (list (list (list (list R)))));
  mlp_mlp : list (list (list R));
  attn_mlp : list (list (list (list R)))
}.

(** The exceptions that leave a hook. *)
Inductive exn : Type :=
| IndexError
| RuntimeError
| UnboundLocalError (name : string).

(** A hook returns a tensor or raises. *)
Inductive outcome (A : Type) : Type :=
| Returned (a : A)
| Raised (e : exn).
Arguments Returned {A} a.
Arguments Raised {A} e.

(** What a hook prints: the gate tensors of a key, or a shape.  A shape
    lists the lengths of the list axes; the length of the feature axis is
    not tracked. *)
Inductive printed : Type :=
| PrintMasks (masks : list (list (list (list (list R)))))
| PrintShape (shape : list nat).

Section Hooks.
Context {V : Type} `{!VectorSpace V}.

(** The state of an [EdgePruner] that the hooks read and write.
    [W_O l h] is the output projection of head [h] of layer [l], a linear
    map on feature vectors; [n_layers] is [base_model.cfg.n_layers] and
    [batch_size] is [pruning_cfg.batch_size]. *)
Record EdgePruner := {
  n_layers : nat;
  batch_size : nat;
  sampled_mask : SampledMask;
  modal_attention : list (list V);
  modal_mlp : list V;
  attention_cache : list (list (list (list V)));
  mlp_cache : list (list (list V));
  cache_compressed_attn : bool;
  parallel_inference : bool;
  ablation_backward : bool;
  disable_hooks : bool;
  disable_pruning_hooks : bool;
  post_bias : list V;
  W_O : list (list (V -> V));
  last_token_mask : list (list R)
}.

(** [cache_hook_all_tokens(storage, activations, hook)]: the storage after
    the call and the activations that flow on.  A hook that returns
    nothing leaves the activations as they are. *)
Definition cache_hook_all_tokens {A : Type} (self : EdgePruner)
    (storage : list (list A)) (activations : list A) : list (list A) * list A :=
  if disable_hooks self then (storage, activations)
  else if parallel_inference self then
    let bsz := batch_size self in
    (storage ++ [drop bsz activations], take bsz activations)
  else (storage ++ [activations], activations).

(** [prepend_orig(out)].  In parallel mode the first [batch_size] rows of
    the incoming tensor are put in front of the reconstructed rows;
    otherwise position 0 of every row is taken from the incoming tensor
    and the later positions from the reconstruction.  [cell_shape] gives
    the shape below the position axis, which [torch.cat] compares. *)
Definition prepend_orig {A : Type} (cell_shape : A -> list nat)
    (self : EdgePruner) (orig_in out : list (list A)) : option (list (list A)) :=
  let row_shape (row : list A) := length row :: from_option cell_shape [] (head row) in
  if parallel_inference self then
    let orig := take (batch_size self) orig_in in
    match head orig, head out with
    | Some r1, Some r2 =>
        if decide (row_shape r1 = row_shape r2) then Some (orig ++ out) else None
    | _, _ => Some (orig ++ out)
    end
  else
    zipM_strict (fun orig_row out_row =>
      first ← head orig_row;
      match head (drop 1 out_row) with
      | Some c =>
          if decide (cell_shape first = cell_shape c)
          then Some (first :: drop 1 out_row) else None
      | None => Some [first]
      end) orig_in out.

(** The two branches of the modal substitution for a gate [g] and a modal
    vector [m]:
    [(mask < 0.001) * (1-mask) * modal + (mask >= 0.001) * (1-mask) * modal.detach()].
    Detaching changes the gradient, not the value. *)
Definition modal_term (g : R) (m : V) : V :=
  vadd (vscale (lt_ind g 0.001 * (1 - g)) m)
       (vscale (ge_ind g 0.001 * (1 - g)) m).

(** [(mask * sources).sum(dim)] along the source axis. *)
Definition weighted_sum (gates : list R) (sources : list V) : option V :=
  ps ← zip_bc gates sources;
  Some (vsum (map (fun gc => vscale (fst gc) (snd gc)) ps)).

(** [(modal terms).sum(dim)] along the source axis. *)
Definition modal_sum (gates : list R) (modal : list V) : option V :=
  ps ← zip_bc gates modal;
  Some (vsum (map (fun gm => modal_term (fst gm) (snd gm)) ps)).

(** One entry of the attention term, for the gates [source layer][source
    head] of one destination: [attn_mask * cache + modal terms], then the
    contraction with [W_O] over source layer and source head when the
    cache is compressed, the plain sum over both axes otherwise. *)
Definition attn_entry (compressed : bool)
    (modal : list (list V)) (w_o : list (list (V -> V)))
    (gates : list (list R)) (sources : list (list V)) : option V :=
  prod ← zipM_bc (zipM_bc (fun g c => Some (vscale g c))) gates sources;
  modl ← zipM_bc (zipM_bc (fun g m => Some (modal_term g m))) gates modal;
  term ← zipM_bc (zipM_bc (fun a b => Some (vadd a b))) prod modl;
  if compressed then
    proj ← zipM_bc (zipM_bc (fun x (w : V -> V) => Some (w x))) term w_o;
    Some (vsum (map vsum proj))
  else Some (vsum (map vsum term)).

(** Sum of two tensors with axes [batch, pos] and [batch, pos, head]. *)
Definition tadd2 (a b : list (list V)) : option (list (list V)) :=
  zipM_bc (zipM_bc (fun x y => Some (vadd x y))) a b.
Definition tadd3 (a b : list (list (list V))) : option (list (list (list V))) :=
  zipM_bc (zipM_bc (zipM_bc (fun x y => Some (vadd x y)))) a b.

(** *** The attention-input hook *)

(** [sampled_mask[key][layer_no][:,circ_idx]] *)
Definition select_circuit {A : Type} (masks : list (list (list A)))
    (layer_no circ_idx : nat) : option (list A) :=
  m ← masks !! layer_no; mapM (fun row => row !! circ_idx) m.

(** [out = (mlp_mask * torch.stack(self.mlp_cache, dim=-2).unsqueeze(dim=2)).sum(dim=-2)],
    followed, unless [ablation_backward], by the modal terms of the MLP
    sources. *)
Definition attention_mlp_sources (self : EdgePruner) (layer_no : nat)
    (mlp_mask : list (list (list R))) : option (list (list (list V))) :=
  st ← stack (mlp_cache self);
  out ← zipM_bc (fun mask_b st_b =>
           mapM (fun sources => mapM (fun gates => weighted_sum gates sources) mask_b)
                st_b) mlp_mask st;
  if ablation_backward self then Some out
  else
    modal ← mapM (mapM (fun gates =>
                    modal_sum gates (take (layer_no + 1) (modal_mlp self)))) mlp_mask;
    zipM_bc (fun out_b modal_b =>
               mapM (fun cell => zipM_bc (fun x y => Some (vadd x y)) cell modal_b)
                    out_b) out modal.

(** [attn_term] and [out = out + attn_term + self.post_bias[:layer_no].sum(dim=0)]. *)
Definition attention_attn_sources (self : EdgePruner) (layer_no : nat)
    (attn_mask : list (list (list (list R)))) (out : list (list (list V)))
    : option (list (list (list V))) :=
  st ← stack (attention_cache self);
  attn_term ← zipM_bc (fun mask_b st_b =>
                 mapM (fun sources =>
                         mapM (fun gates =>
                                 attn_entry (cache_compressed_attn self)
                                   (take layer_no (modal_attention self))
                                   (take layer_no (W_O self)) gates sources)
                              mask_b) st_b) attn_mask st;
  out ← tadd3 out attn_term;
  let bias := vsum (take layer_no (post_bias self)) in
  Some (map (map (map (fun x => vadd x bias))) out).

(** The shapes printed for the two masks, after their [unsqueeze]s. *)
Definition attention_mlp_mask_shape (m : list (list (list R))) : list nat :=
  match shape3 m with [b; h; s] => [b; 1; h; s; 1]%nat | sh => sh end.
Definition attention_attn_mask_shape (m : list (list (list (list R)))) : list nat :=
  match shape4 m with [b; h; l; hs] => [b; 1; h; l; hs; 1]%nat | sh => sh end.

(** The [except] clause of the attention hook: four prints, then
    [raise e].  A local that was never assigned raises
    [UnboundLocalError] when it is read. *)
Definition attention_handler (self : EdgePruner) (orig_in : list (list (list V)))
    (mlp_mask : option (list (list (list R))))
    (attn_mask : option (list (list (list (list R))))) (e : exn)
    : list printed * outcome (list (list (list V))) :=
  let p := [PrintMasks (mlp_attn (sampled_mask self)); PrintShape (shape3 orig_in)] in
  match mlp_mask with
  | None => (p, Raised (UnboundLocalError "mlp_mask"))
  | Some m =>
      let p := p ++ [PrintShape (attention_mlp_mask_shape m)] in
      match attn_mask with
      | None => (p, Raised (UnboundLocalError "attn_mask"))
      | Some a => (p ++ [PrintShape (attention_attn_mask_shape a)], Raised e)
      end
  end.

(** What follows the [try] statement of a hook: with [ablation_backward]
    the modal value of the destination layer, [modal[layer_no]], is added
    to every entry by [add]; then [prepend_orig]. *)
Definition after_try {A M : Type} (cell_shape : A -> list nat)
    (add : A -> M -> option A)
    (self : EdgePruner) (modal : list M) (layer_no : nat)
    (orig_in out : list (list A)) : list printed * outcome (list (list A)) :=
  let out :=
    if ablation_backward self then
      match modal !! layer_no with
      | None => inl IndexError
      | Some m =>
          match mapM (mapM (fun cell => add cell m)) out with
          | None => inl RuntimeError
          | Some out => inr out
          end
      end
    else inr out in
  match out with
  | inl e => ([], Raised e)
  | inr out =>
      match prepend_orig cell_shape self orig_in out with
      | None => ([], Raised RuntimeError)
      | Some r => ([], Returned r)
      end
  end.

(** [pruning_edge_attention_hook_all_tokens(layer_no, circ_idx, orig_in, hook)]:
    what is printed, and the returned tensor or the exception. *)
Definition pruning_edge_attention_hook_all_tokens (self : EdgePruner)
    (layer_no circ_idx : nat) (orig_in : list (list (list V)))
    : list printed * outcome (list (list (list V))) :=
  if disable_hooks self then ([], Returned orig_in)
  else
    let handler := attention_handler self orig_in in
    match select_circuit (mlp_attn (sampled_mask self)) layer_no circ_idx with
    | None => handler None None IndexError
    | Some mlp_mask =>
    match attention_mlp_sources self layer_no mlp_mask with
    | None => handler (Some mlp_mask) None RuntimeError
    | Some out =>
    if decide (layer_no = 0%nat) then
      match prepend_orig shape1 self orig_in out with
      | None => handler (Some mlp_mask) None RuntimeError
      | Some r => ([], Returned r)
      end
    else
    match select_circuit (attn_attn (sampled_mask self)) layer_no circ_idx with
    | None => handler (Some mlp_mask) None IndexError
    | Some attn_mask =>
    match attention_attn_sources self layer_no attn_mask out with
    | None => handler (Some mlp_mask) (Some attn_mask) RuntimeError
    | Some out =>
        after_try shape1 (fun cell m => zipM_bc (fun x y => Some (vadd x y)) cell m)
          self (modal_attention self) layer_no orig_in out
    end end end end.

(** *** The MLP-input hook *)

(** [out = (mlp_mask * torch.stack(self.mlp_cache, dim=2)).sum(dim=2)] and
    the modal terms of the MLP sources. *)
Definition mlp_mlp_sources (self : EdgePruner) (layer_no : nat)
    (mlp_mask : list (list R)) : option (list (list V)) :=
  st ← stack (mlp_cache self);
  out ← zipM_bc (fun gates st_b =>
           mapM (fun sources => weighted_sum gates sources) st_b) mlp_mask st;
  if ablation_backward self then Some out
  else
    modal ← mapM (fun gates =>
               modal_sum gates (take (layer_no + 1) (modal_mlp self))) mlp_mask;
    zipM_bc (fun out_b modal_b => Some (map (fun x => vadd x modal_b) out_b))
            out modal.

(** [attn_term] and
    [out = out + attn_term + self.post_bias[:attn_layers_before].sum(dim=0)],
    with [attn_layers_before = min(layer_no+1, n_layers)]. *)
Definition mlp_attn_sources (self : EdgePruner) (layer_no : nat)
    (attn_mask : list (list (list R))) (out : list (list V))
    : option (list (list V)) :=
  let attn_layers_before := (layer_no + 1) `min` n_layers self in
  st ← stack (attention_cache self);
  attn_term ← zipM_bc (fun gates st_b =>
                 mapM (fun sources =>
                         attn_entry (cache_compressed_attn self)
                           (take attn_layers_before (modal_attention self))
                           (take attn_layers_before (W_O self)) gates sources)
                      st_b) attn_mask st;
  out ← tadd2 out attn_term;
  let bias := vsum (take attn_layers_before (post_bias self)) in
  Some (map (map (fun x => vadd x bias)) out).

Definition mlp_mlp_mask_shape (m : list (list R)) : list nat :=
  match shape2 m with [b; s] => [b; 1; s; 1]%nat | sh => sh end.
Definition mlp_attn_mask_shape (m : list (list (list R))) : list nat :=
  match shape3 m with [b; l; hs] => [b; 1; l; hs; 1]%nat | sh => sh end.

(** The [except] clause of the MLP hook: the shape of the incoming tensor,
    of [attn_mask], of [mlp_mask], then [raise e]. *)
Definition mlp_handler (orig_in : list (list V))
    (mlp_mask : option (list (list R)))
    (attn_mask : option (list (list (list R)))) (e : exn)
    : list printed * outcome (list (list V)) :=
  let p := [PrintShape (shape2 orig_in)] in
  match attn_mask with
  | None => (p, Raised (UnboundLocalError "attn_mask"))
  | Some a =>
      let p := p ++ [PrintShape (mlp_attn_mask_shape a)] in
      match mlp_mask with
      | None => (p, Raised (UnboundLocalError "mlp_mask"))
      | Some m => (p ++ [PrintShape (mlp_mlp_mask_shape m)], Raised e)
      end
  end.

(** [pruning_edge_mlp_hook_all_tokens(layer_no, orig_in, hook)] *)
Definition pruning_edge_mlp_hook_all_tokens (self : EdgePruner)
    (layer_no : nat) (orig_in : list (list V))
    : list printed * outcome (list (list V)) :=
  if disable_hooks self || disable_pruning_hooks self then ([], Returned orig_in)
  else
    let handler := mlp_handler orig_in in
    match mlp_mlp (sampled_mask self) !! layer_no with
    | None => handler None None IndexError
    | Some mlp_mask =>
    match mlp_mlp_sources self layer_no mlp_mask with
    | None => handler (Some mlp_mask) None RuntimeError
    | Some out =>
    match attn_mlp (sampled_mask self) !! layer_no with
    | None => handler (Some mlp_mask) None IndexError
    | Some attn_mask =>
    match mlp_attn_sources self layer_no attn_mask out with
    | None => handler (Some mlp_mask) (Some attn_mask) RuntimeError
    | Some out =>
        after_try (fun _ : V => []) (fun cell m => Some (vadd cell m))
          self (modal_mlp self) layer_no orig_in out
    end end end end.

(** *** The final hook *)

(** [(out * self.last_token_mask.unsqueeze(-1)).sum(dim=2)] on one group of
    [batch_size] rows. *)
Definition latch (mask : list (list R)) (rows : list (list V)) : option (list V) :=
  zipM_bc (fun row mask_row =>
             ps ← zip_bc row mask_row;
             Some (vsum (map (fun vk => vscale (snd vk) (fst vk)) ps)))
          rows mask.

(** [pruning_edge_final_hook_all_tokens(orig_in, hook)] *)
Definition pruning_edge_final_hook_all_tokens (self : EdgePruner)
    (orig_in : list (list V)) : list printed * outcome (list (list V)) :=
  match pruning_edge_mlp_hook_all_tokens self (n_layers self) orig_in with
  | (p, Raised e) => (p, Raised e)
  | (p, Returned out) =>
      let groups :=
        if disable_hooks self then Some [out]
        else unflatten (batch_size self) out in
      match groups ≫= mapM (latch (last_token_mask self)) with
      | None => (p, Raised RuntimeError)
      | Some out => (p, Returned out)
      end
  end.

(** *** Per-call set-up *)

(** A position index of the backend: negative indices count from the
    end. *)
Definition norm_index (len : nat) (i : Z) : option nat :=
  if decide (0 <= i < Z.of_nat len)%Z then Some (Z.to_nat i)
  else if decide (- Z.of_nat len <= i < 0)%Z then Some (Z.to_nat (Z.of_nat len + i))
  else None.

(** [setup_inference(batch, last_token_pos)]: both caches are cleared and
    the last-token mask gets a one at the answer position of every row. *)
Definition setup_inference {T : Type} (self : EdgePruner)
    (batch : list (list T)) (last_token_pos : list Z) : option EdgePruner :=
  rows ← zip_bc batch last_token_pos;
  mask ← mapM (fun rp : list T * Z =>
                 k ← norm_index (length (fst rp)) (snd rp);
                 Some (tab (length (fst rp))
                           (fun j => if decide (j = k) then 1 else 0)))
              rows;
  Some {| n_layers := n_layers self;
          batch_size := batch_size self;
          sampled_mask := sampled_mask self;
          modal_attention := modal_attention self;
          modal_mlp := modal_mlp self;
          attention_cache := [];
          mlp_cache := [];
          cache_compressed_attn := cache_compressed_attn self;
          parallel_inference := parallel_inference self;
          ablation_backward := ablation_backward self;
          disable_hooks := disable_hooks self;
          disable_pruning_hooks := disable_pruning_hooks self;
          post_bias := post_bias self;
          W_O := W_O self;
          last_token_mask := mask |}.

(** The assignment [self.disable_hooks = flag] made by [forward] around the
    reference pass. *)
Definition set_disable_hooks (self : EdgePruner) (flag : bool) : EdgePruner :=
  {| n_layers := n_layers self;
     batch_size := batch_size self;
     sampled_mask := sampled_mask self;
     modal_attention := modal_attention self;
     modal_mlp := modal_mlp self;
     attention_cache := attention_cache self;
     mlp_cache := mlp_cache self;
     cache_compressed_attn := cache_compressed_attn self;
     parallel_inference := parallel_inference self;
     ablation_backward := ablation_backward self;
     disable_hooks := flag;
     disable_pruning_hooks := disable_pruning_hooks self;
     post_bias := post_bias self;
     W_O := W_O self;
     last_token_mask := last_token_mask self |}.

End Hooks.

Arguments EdgePruner V : clear implicits.

End Pruner.

(** ** Well-shaped states of the patcher

    The hooks are studied on operands of matching shapes.  A tensor of a
    given shape is the table [tab] of its entries, so a well-shaped state
    is described by the entry functions of its tensors. *)

Module Shapes.
Import Scalar Tensor Pruner.

Section Shapes.
Context {V : Type} `{!VectorSpace V}.

(** The map applied to an attention source before the sum over sources:
    the output projection when the cache holds the compressed [z], nothing
    when it holds the projected results. *)
Definition source_map (self : EdgePruner V) (w : nat -> nat -> V -> V)
    (l h : nat) (x : V) : V :=
  if cache_compressed_attn self then w l h x else x.

(** The state read by the MLP-input hook of [layer_no] (and by the final
    hook, for [layer_no = n_layers]): [S k] cached MLP-side outputs and
    [S a] cached attention outputs, for [nb] rows of [np] positions and
    [nh] heads, with gate tensors of the same extents. *)
Record mlp_hook_state (self : EdgePruner V) (layer_no nb np nh k a : nat)
    (gm : nat -> nat -> R) (ga : nat -> nat -> nat -> R)
    (mc : nat -> nat -> nat -> V) (ac : nat -> nat -> nat -> nat -> V)
    (mm : nat -> V) (ma : nat -> nat -> V) (w : nat -> nat -> V -> V) : Prop := {
  ms_enabled : disable_hooks self = false;
  ms_pruning : disable_pruning_hooks self = false;
  ms_mlp_cache :
    mlp_cache self = tab (S k) (fun j => tab nb (fun b => tab np (fun p => mc j b p)));
  ms_attention_cache :
    attention_cache self
    = tab (S a) (fun l => tab nb (fun b => tab np (fun p => tab nh (fun h => ac l b p h))));
  ms_mlp_mask :
    mlp_mlp (sampled_mask self) !! layer_no
    = Some (tab nb (fun b => tab (S k) (fun j => gm b j)));
  ms_attn_mask :
    attn_mlp (sampled_mask self) !! layer_no
    = Some (tab nb (fun b => tab (S a) (fun l => tab nh (fun h => ga b l h))));
  ms_modal_mlp : take (layer_no + 1) (modal_mlp self) = tab (S k) mm;
  ms_modal_attention :
    take ((layer_no + 1) `min` n_layers self) (modal_attention self)
    = tab (S a) (fun l => tab nh (fun h => ma l h));
  ms_W_O :
    cache_compressed_attn self = true ->
    take ((layer_no + 1) `min` n_layers self) (W_O self)
    = tab (S a) (fun l => tab nh (fun h => w l h))
}.

(** The sum over the MLP-side sources of gate times cached output. *)
Definition mlp_part (k : nat) (g : nat -> R) (c : nat -> V) : V :=
  vsum (tab (S k) (fun j => vscale (g j) (c j))).

(** The sum over the MLP-side sources of the modal terms. *)
Definition mlp_modal_part (k : nat) (g : nat -> R) (m : nat -> V) : V :=
  vsum (tab (S k) (fun j => modal_term (g j) (m j))).

(** The sum over source layers and heads of the mapped attention term. *)
Definition attn_part (na nh : nat) (f : nat -> nat -> V -> V)
    (g : nat -> nat -> R) (c m : nat -> nat -> V) : V :=
  vsum (tab na (fun l =>
    vsum (tab nh (fun h =>
      f l h (vadd (vscale (g l h) (c l h)) (modal_term (g l h) (m l h))))))).

(** The entry at row [b] and position [p] that the [try] block of the MLP
    hook computes. *)
Definition mlp_try_entry (self : EdgePruner V) (layer_no nb np nh k a : nat)
    (gm : nat -> nat -> R) (ga : nat -> nat -> nat -> R)
    (mc : nat -> nat -> nat -> V) (ac : nat -> nat -> nat -> nat -> V)
    (mm : nat -> V) (ma : nat -> nat -> V) (w : nat -> nat -> V -> V)
    (b p : nat) : V :=
  let mlp := mlp_part k (gm b) (fun j => mc j b p) in
  let mlp := if ablation_backward self then mlp
             else vadd mlp (mlp_modal_part k (gm b) mm) in
  let attn := attn_part (S a) nh (source_map self w) (ga b)
                        (fun l h => ac l b p h) ma in
  vadd (vadd mlp attn)
       (vsum (take ((layer_no + 1) `min` n_layers self) (post_bias self))).

(** The entry that the MLP hook puts at row [b], position [p > 0]: the
    entry of the [try] block, plus the modal value [md] of the destination
    layer under [ablation_backward]. *)
Definition mlp_hook_entry (self : EdgePruner V) (layer_no nb np nh k a : nat)
    (gm : nat -> nat -> R) (ga : nat -> nat -> nat -> R)
    (mc : nat -> nat -> nat -> V) (ac : nat -> nat -> nat -> nat -> V)
    (mm : nat -> V) (ma : nat -> nat -> V) (w : nat -> nat -> V -> V)
    (md : V) (b p : nat) : V :=
  let e := mlp_try_entry self layer_no nb np nh k a gm ga mc ac mm ma w b p in
  if ablation_backward self then vadd e md else e.

(** The state read by the attention-input hook of [layer_no] for the
    circuit [circ_idx]: [S k] cached MLP-side outputs, and gates for [nh]
    destination heads. *)
Record attn_hook_state (self : EdgePruner V) (layer_no circ_idx nb np nh k : nat)
    (gm : nat -> nat -> nat -> R) (mc : nat -> nat -> nat -> V)
    (mm : nat -> V) : Prop := {
  as_enabled : disable_hooks self = false;
  as_mlp_cache :
    mlp_cache self = tab (S k) (fun j => tab nb (fun b => tab np (fun p => mc j b p)));
  as_mlp_mask :
    select_circuit (mlp_attn (sampled_mask self)) layer_no circ_idx
    = Some (tab nb (fun b => tab nh (fun h => tab (S k) (fun j => gm b h j))));
  as_modal_mlp : take (layer_no + 1) (modal_mlp self) = tab (S k) mm
}.

(** What the attention-input hook reads in addition when [layer_no > 0]:
    [S a] cached attention outputs with [nhs] source heads. *)
Record attn_hook_attn_state (self : EdgePruner V) (layer_no circ_idx nb np nh nhs a : nat)
    (ga : nat -> nat -> nat -> nat -> R) (ac : nat -> nat -> nat -> nat -> V)
    (ma : nat -> nat -> V) (w : nat -> nat -> V -> V) : Prop := {
  as_attention_cache :
    attention_cache self
    = tab (S a) (fun l => tab nb (fun b => tab np (fun p => tab nhs (fun h => ac l b p h))));
  as_attn_mask :
    select_circuit (attn_attn (sampled_mask self)) layer_no circ_idx
    = Some (tab nb (fun b => tab nh (fun h =>
              tab (S a) (fun l => tab nhs (fun hs => ga b h l hs)))));
  as_modal_attention :
    take layer_no (modal_attention self) = tab (S a) (fun l => tab nhs (fun h => ma l h));
  as_W_O :
    cache_compressed_attn self = true ->
    take layer_no (W_O self) = tab (S a) (fun l => tab nhs (fun h => w l h))
}.

(** The entry at row [b], position [p] and destination head [h] after the
    MLP-side sources. *)
Definition attn_mlp_entry (self : EdgePruner V) (k : nat)
    (gm : nat -> nat -> nat -> R) (mc : nat -> nat -> nat -> V) (mm : nat -> V)
    (b p h : nat) : V :=
  let mlp := mlp_part k (gm b h) (fun j => mc j b p) in
  if ablation_backward self then mlp
  else vadd mlp (mlp_modal_part k (gm b h) mm).

(** The entry that the [try] block of the attention hook computes for
    [layer_no > 0]. *)
Definition attn_try_entry (self : EdgePruner V) (layer_no nhs k a : nat)
    (gm : nat -> nat -> nat -> R) (ga : nat -> nat -> nat -> nat -> R)
    (mc : nat -> nat -> nat -> V) (ac : nat -> nat -> nat -> nat -> V)
    (mm : nat -> V) (ma : nat -> nat -> V) (w : nat -> nat -> V -> V)
    (b p h : nat) : V :=
  vadd (vadd (attn_mlp_entry self k gm mc mm b p h)
             (attn_part (S a) nhs (source_map self w) (ga b h)
                        (fun l hs => ac l b p hs) ma))
       (vsum (take layer_no (post_bias self))).

(** The entry that the attention hook puts at position [p > 0]; [md h] is
    the modal value of head [h] of the destination layer. *)
Definition attn_hook_entry (self : EdgePruner V) (layer_no nhs k a : nat)
    (gm : nat -> nat -> nat -> R) (ga : nat -> nat -> nat -> nat -> R)
    (mc : nat -> nat -> nat -> V) (ac : nat -> nat -> nat -> nat -> V)
    (mm : nat -> V) (ma : nat -> nat -> V) (w : nat -> nat -> V -> V)
    (md : nat -> V) (b p h : nat) : V :=
  let e := attn_try_entry self layer_no nhs k a gm ga mc ac mm ma w b p h in
  if ablation_backward self then vadd e (md h) else e.

(** The gated mixture of a cached output and a modal value. *)
Definition blend (g : R) (c m : V) : V := vadd (vscale g c) (vscale (1 - g) m).

(** The sum over source layers and heads of the mapped mixtures. *)
Definition attn_blend (na nh : nat) (f : nat -> nat -> V -> V)
    (g : nat -> nat -> R) (c m : nat -> nat -> V) : V :=
  vsum (tab na (fun l => vsum (tab nh (fun h => f l h (blend (g l h) (c l h) (m l h)))))).

(** The threshold-free form of the entries: the sum over the MLP-side
    sources of the mixtures, the sum over the attention sources of the
    mapped mixtures, and the summed output biases. *)
Definition mlp_blend_entry (self : EdgePruner V) (layer_no nh k a : nat)
    (gm : nat -> nat -> R) (ga : nat -> nat -> nat -> R)
    (mc : nat -> nat -> nat -> V) (ac : nat -> nat -> nat -> nat -> V)
    (mm : nat -> V) (ma : nat -> nat -> V) (w : nat -> nat -> V -> V)
    (b p : nat) : V :=
  vadd (vadd (vsum (tab (S k) (fun j => blend (gm b j) (mc j b p) (mm j))))
             (attn_blend (S a) nh (source_map self w) (ga b)
                         (fun l h => ac l b p h) ma))
       (vsum (take ((layer_no + 1) `min` n_layers self) (post_bias self))).

Definition attn_blend_entry (self : EdgePruner V) (layer_no nhs k a : nat)
    (gm : nat -> nat -> nat -> R) (ga : nat -> nat -> nat -> nat -> R)
    (mc : nat -> nat -> nat -> V) (ac : nat -> nat -> nat -> nat -> V)
    (mm : nat -> V) (ma : nat -> nat -> V) (w : nat -> nat -> V -> V)
    (b p h : nat) : V :=
  vadd (vadd (vsum (tab (S k) (fun j => blend (gm b h j) (mc j b p) (mm j))))
             (attn_blend (S a) nhs (source_map self w) (ga b h)
                         (fun l hs => ac l b p hs) ma))
       (vsum (take layer_no (post_bias self))).

(** The residual stream in terms of the cached outputs: the sum of the
    MLP-side outputs, of the projected attention outputs and of the output
    biases of the [nl] layers whose attention has run. *)
Definition residual (self : EdgePruner V) (nl nh k a : nat)
    (mc : nat -> nat -> nat -> V) (ac : nat -> nat -> nat -> nat -> V)
    (w : nat -> nat -> V -> V) (b p : nat) : V :=
  vadd (vadd (vsum (tab (S k) (fun j => mc j b p)))
             (vsum (tab (S a) (fun l =>
                vsum (tab nh (fun h => source_map self w l h (ac l b p h)))))))
       (vsum (take nl (post_bias self))).

(** The pruner with other cache contents. *)
Definition with_caches (self : EdgePruner V)
    (attention : list (list (list (list V)))) (mlp : list (list (list V)))
    : EdgePruner V :=
  {| n_layers := n_layers self;
     batch_size := batch_size self;
     sampled_mask := sampled_mask self;
     modal_attention := modal_attention self;
     modal_mlp := modal_mlp self;
     attention_cache := attention;
     mlp_cache := mlp;
     cache_compressed_attn := cache_compressed_attn self;
     parallel_inference := parallel_inference self;
     ablation_backward := ablation_backward self;
     disable_hooks := disable_hooks self;
     disable_pruning_hooks := disable_pruning_hooks self;
     post_bias := post_bias self;
     W_O := W_O self;
     last_token_mask := last_token_mask self |}.

(** The entry that the MLP-input hook reconstructs when every gate is
    zero: it is made of the modal values, the projections and the biases
    alone. *)
Definition ablated_entry (self : EdgePruner V) (layer_no nh k a : nat)
    (mm : nat -> V) (ma : nat -> nat -> V) (w : nat -> nat -> V -> V) (md : V) : V :=
  mlp_hook_entry self layer_no 0 0 nh k a (fun _ _ => 0) (fun _ _ _ => 0)
                 (fun _ _ _ => vzero) (fun _ _ _ _ => vzero) mm ma w md 0 0.

(** The last-token mask for answer positions [pos b]: a one at position
    [pos b] of row [b] and zeros elsewhere. *)
Definition one_hot_mask (nb np : nat) (pos : nat -> nat) : list (list R) :=
  tab nb (fun b => tab np (fun p => if decide (p = pos b) then 1 else 0)).

End Shapes.

End Shapes.

(** ** The forward pass of the base model with the hooks attached

    The base model is the frozen hooked transformer that [EdgePruner]
    receives; it is not part of the sources.  What is modelled of it is the
    order of the hook points named by [get_cache_hooks] and
    [get_patching_hooks] and the residual structure between them: every
    block adds the output of its attention and of its MLP to the stream.
    The attention of a layer (layer norm, scores and value mixing, up to
    the per-head [z]) and its MLP are arbitrary functions. *)

Module Forward.
Import Scalar Tensor Pruner Shapes.

Section Forward.
Context {V : Type} `{!VectorSpace V}.

Record HookedTransformer := {
  n_heads : nat;
  (** token ids [batch][pos] to the stream entering block 0 *)
  embed : list (list nat) -> list (list V);
  (** the per-head [z] of a layer from its [q], [k] and [v] inputs, all
      with axes [batch][pos][head] *)
  attn_z : nat -> list (list (list V)) -> list (list (list V)) ->
           list (list (list V)) -> list (list (list V));
  (** the output projection of head [h] of layer [l], and the output bias *)
  w_o : nat -> nat -> V -> V;
  b_o : nat -> V;
  (** the MLP of a layer on its input, axes [batch][pos] *)
  mlp : nat -> list (list V) -> list (list V);
  (** final layer norm and unembedding of one output vector *)
  unembed : V -> V
}.

(** A hook followed by the rest of the pass: the prints accumulate, an
    exception ends the pass. *)
Definition and_then {A B : Type} (m : list printed * outcome A)
    (f : A -> list printed * outcome B) : list printed * outcome B :=
  match m with
  | (p, Returned a) => let '(q, r) := f a in (p ++ q, r)
  | (p, Raised e) => (p, Raised e)
  end.

(** The stream repeated along a new head axis, the input of the [q], [k]
    and [v] hook points. *)
Definition repeat_heads (n : nat) (resid : list (list V)) : list (list (list V)) :=
  map (map (replicate n)) resid.

(** The per-head results of a layer from its [z]. *)
Definition project (M : HookedTransformer) (l : nat) (z : list (list (list V)))
    : list (list (list V)) :=
  map (map (imap (w_o M l))) z.

(** The attention output: the sum of the per-head results and the bias. *)
Definition attn_out (M : HookedTransformer) (l : nat) (result : list (list (list V)))
    : list (list V) :=
  map (map (fun heads => vadd (vsum heads) (b_o M l))) result.

(** Sum of two streams. *)
Definition add_stream (x y : list (list V)) : list (list V) :=
  zip_with (zip_with vadd) x y.

(** One block.  The hook points fire in the order [hook_q_input],
    [hook_k_input], [hook_v_input], [attn.hook_z] (or [attn.hook_result]
    when the cache is not compressed), [hook_mlp_in], [hook_mlp_out]. *)
Definition block (M : HookedTransformer) (self : EdgePruner V) (l : nat)
    (resid : list (list V))
    : list printed * outcome (EdgePruner V * list (list V)) :=
  let x := repeat_heads (n_heads M) resid in
  and_then (pruning_edge_attention_hook_all_tokens self l 0 x) (fun q =>
  and_then (pruning_edge_attention_hook_all_tokens self l 1 x) (fun k =>
  and_then (pruning_edge_attention_hook_all_tokens self l 2 x) (fun v =>
    let z := attn_z M l q k v in
    let '(cache, result) :=
      if cache_compressed_attn self then
        let '(cache, z) := cache_hook_all_tokens self (attention_cache self) z in
        (cache, project M l z)
      else cache_hook_all_tokens self (attention_cache self) (project M l z) in
    let self := with_caches self cache (mlp_cache self) in
    let resid_mid := add_stream resid (attn_out M l result) in
    and_then (pruning_edge_mlp_hook_all_tokens self l resid_mid) (fun mlp_in =>
      let '(cache, mlp_out) :=
        cache_hook_all_tokens self (mlp_cache self) (mlp M l mlp_in) in
      let self := with_caches self (attention_cache self) cache in
      ([], Returned (self, add_stream resid_mid mlp_out)))))).

Fixpoint blocks (M : HookedTransformer) (layers : list nat) (self : EdgePruner V)
    (resid : list (list V))
    : list printed * outcome (EdgePruner V * list (list V)) :=
  match layers with
  | [] => ([], Returned (self, resid))
  | l :: layers =>
      and_then (block M self l resid) (fun sr => blocks M layers (fst sr) (snd sr))
  end.

(** [self.base_model(tokens)] with the cache hooks and the patching hooks
    attached: the embedding is cached at [blocks.0.hook_resid_pre], the
    blocks run, and the final hook fires at the last [hook_resid_post]; its
    value is unembedded.  Returns the pruner with its caches filled, and
    the output. *)
Definition base_model (M : HookedTransformer) (self : EdgePruner V)
    (tokens : list (list nat))
    : list printed * outcome (EdgePruner V * list (list V)) :=
  let '(cache, resid) := cache_hook_all_tokens self (mlp_cache self) (embed M tokens) in
  let self := with_caches self (attention_cache self) cache in
  and_then (blocks M (seq 0 (n_layers self)) self resid) (fun sr =>
  and_then (pruning_edge_final_hook_all_tokens (fst sr) (snd sr)) (fun out =>
    ([], Returned (fst sr, map (map (unembed M)) out)))).

(** The same pass without any hook: the stream of the base model. *)
Definition base_block (M : HookedTransformer) (l : nat) (resid : list (list V))
    : list (list V) :=
  let x := repeat_heads (n_heads M) resid in
  let resid_mid := add_stream resid (attn_out M l (project M l (attn_z M l x x x))) in
  add_stream resid_mid (mlp M l resid_mid).

Definition base_stream (M : HookedTransformer) (n : nat) (tokens : list (list nat))
    : list (list V) :=
  foldl (fun resid l => base_block M l resid) (embed M tokens) (seq 0 n).

(** The activations of the base model that the cache hooks see: the [z]
    of layer [l], the stream entering its MLP, and the output of its
    MLP. *)
Definition base_z (M : HookedTransformer) (l : nat) (tokens : list (list nat))
    : list (list (list V)) :=
  let x := repeat_heads (n_heads M) (base_stream M l tokens) in
  attn_z M l x x x.

Definition base_mid (M : HookedTransformer) (l : nat) (tokens : list (list nat))
    : list (list V) :=
  add_stream (base_stream M l tokens)
             (attn_out M l (project M l (base_z M l tokens))).

Definition base_mlp_out (M : HookedTransformer) (l : nat) (tokens : list (list nat))
    : list (list V) :=
  mlp M l (base_mid M l tokens).

(** The tensors that the cache hooks store: the embedding and then the MLP
    outputs, in [mlp_cache]; the attention outputs, as [z] when the cache
    is compressed and as per-head results otherwise, in
    [attention_cache]. *)
Definition mlp_cached (M : HookedTransformer) (tokens : list (list nat)) (j : nat)
    : list (list V) :=
  match j with
  | O => embed M tokens
  | S j => base_mlp_out M j tokens
  end.

Definition attn_cached (M : HookedTransformer) (compressed : bool)
    (tokens : list (list nat)) (j : nat) : list (list (list V)) :=
  if compressed then base_z M j tokens else project M j (base_z M j tokens).

(** The caches when block [l] starts. *)
Definition mlp_trace (M : HookedTransformer) (tokens : list (list nat)) (l : nat)
    : list (list (list V)) :=
  tab (S l) (mlp_cached M tokens).

Definition attn_trace (M : HookedTransformer) (compressed : bool)
    (tokens : list (list nat)) (l : nat) : list (list (list (list V))) :=
  tab l (attn_cached M compressed tokens).

(** The entries of a tensor. *)
Definition entry2 (t : list (list V)) (b p : nat) : V :=
  nth p (nth b t []) vzero.
Definition entry3 (t : list (list (list V))) (b p h : nat) : V :=
  nth h (nth p (nth b t []) []) vzero.

(** The entries of the cached tensors. *)
Definition mc_of (M : HookedTransformer) (tokens : list (list nat)) (j b p : nat) : V :=
  entry2 (mlp_cached M tokens j) b p.
Definition ac_of (M : HookedTransformer) (compressed : bool)
    (tokens : list (list nat)) (j b p h : nat) : V :=
  entry3 (attn_cached M compressed tokens j) b p h.

(** The contribution of the attention of layer [j] to the stream, from
    its cached tensor. *)
Definition attn_contribution (M : HookedTransformer) (compressed : bool)
    (tokens : list (list nat)) (j b p : nat) : V :=
  vsum (tab (n_heads M) (fun h =>
    (if compressed then w_o M j h (ac_of M compressed tokens j b p h)
     else ac_of M compressed tokens j b p h))).

(** The stream entering block [l] as the sum of what is cached by then:
    the embedding and the MLP outputs, the attention contributions and
    the output biases of the layers before [l]. *)
Definition stream_entry (M : HookedTransformer) (compressed : bool)
    (tokens : list (list nat)) (l b p : nat) : V :=
  vadd (vadd (vsum (tab (S l) (fun j => mc_of M tokens j b p)))
             (vsum (tab l (fun j => attn_contribution M compressed tokens j b p))))
       (vsum (tab l (fun j => b_o M j))).

(** The stream entering the MLP of block [l]: the attention of layer [l]
    has been added. *)
Definition mid_entry (M : HookedTransformer) (compressed : bool)
    (tokens : list (list nat)) (l b p : nat) : V :=
  vadd (vadd (vsum (tab (S l) (fun j => mc_of M tokens j b p)))
             (vsum (tab (S l) (fun j => attn_contribution M compressed tokens j b p))))
       (vsum (tab (S l) (fun j => b_o M j))).

(** A gate tensor set of the shapes the hooks expect for [n] layers, [nb]
    rows and [nh] heads, every gate equal to [g]. *)
Definition constant_mask (g : R) (n nb nh : nat) : SampledMask :=
  {| mlp_attn :=
       tab n (fun l => tab nb (fun _ => tab 3 (fun _ => tab nh (fun _ =>
         tab (S l) (fun _ => g)))));
     attn_attn :=
       tab n (fun l => tab nb (fun _ => tab 3 (fun _ => tab nh (fun _ =>
         tab l (fun _ => tab nh (fun _ => g))))));
     mlp_mlp := tab (S n) (fun l => tab nb (fun _ => tab (S l) (fun _ => g)));
     attn_mlp :=
       tab (S n) (fun l => tab nb (fun _ =>
         tab ((l + 1) `min` n) (fun _ => tab nh (fun _ => g)))) |}.

(** The tensor has [nb] rows of [np] positions (of [nh] heads). *)
Definition has_shape2 (nb np : nat) (t : list (list V)) : Prop :=
  exists f, t = tab nb (fun b => tab np (fun p => f b p)).
Definition has_shape3 (nb np nh : nat) (t : list (list (list V))) : Prop :=
  exists f, t = tab nb (fun b => tab np (fun p => tab nh (fun h => f b p h))).

(** The base model keeps the shape [nb] x [np] (x [n_heads]) of the batch
    [tokens], and the pruner holds its output projections and biases and
    modal values of matching extents. *)
Record well_shaped (M : HookedTransformer) (self : EdgePruner V)
    (tokens : list (list nat)) (nb np : nat) : Prop := {
  ws_embed : has_shape2 nb np (embed M tokens);
  ws_attn : forall l x,
    has_shape2 nb np x ->
    let xs := repeat_heads (n_heads M) x in
    has_shape3 nb np (n_heads M) (attn_z M l xs xs xs);
  ws_mlp : forall l x, has_shape2 nb np x -> has_shape2 nb np (mlp M l x);
  ws_W_O : W_O self = tab (n_layers self) (fun l => tab (n_heads M) (fun h => w_o M l h));
  ws_post_bias : post_bias self = tab (n_layers self) (fun l => b_o M l);
  ws_modal_mlp : exists mm, modal_mlp self = tab (S (n_layers self)) mm;
  ws_modal_attention :
    exists ma, modal_attention self
               = tab (n_layers self) (fun l => tab (n_heads M) (fun h => ma l h))
}.

End Forward.

Arguments HookedTransformer V : clear implicits.

End Forward.

(** ** The line-plot log and the last-token hooks ([training_utils.py]) *)

Module TrainingUtils.

(** The exceptions of this module. *)
Inductive exn : Type :=
| IndexError
| KeyError
| ValueError.

(** *** [LinePlot] *)

(** The state of a [LinePlot].  [stat_book] is a dictionary whose
    iteration order matters to [add_entry]: it is kept as the list of its
    items in insertion order. *)
Record LinePlot := {
  stat_list : list string;
  stat_book : list (string * list R);
  t : Z
}.

(** The items of [{x: [] for x in stat_list}]: a key that occurs again
    keeps its first place. *)
Definition empty_book (stat_list : list string) : list (string * list R) :=
  foldl (fun book x =>
           if decide (x ∈ map fst book) then book else book ++ [(x, [])])
        [] stat_list.

(** The initialiser, which the source spells [__init___]. *)
Definition init___ (stat_list : list string) : LinePlot :=
  {| stat_list := stat_list; stat_book := empty_book stat_list; t := 0 |}.

(** The loop of [add_entry] over the items of [stat_book]: a column of
    the entry is appended to its series, a column that the entry lacks
    repeats the last value of its series, and [self.stat_book[k][-1]] on
    an empty series raises.  Returns the items after the loop and the
    exception that ended it, if any: the series before the failing one
    have been extended by then. *)
Fixpoint append_entries (entry : gmap string R) (book : list (string * list R))
    : list (string * list R) * option exn :=
  match book with
  | [] => ([], None)
  | (k, series) :: rest =>
      match (match entry !! k with
             | Some v => Some v
             | None => last series
             end) with
      | Some v =>
          let '(rest, e) := append_entries entry rest in
          ((k, series ++ [v]) :: rest, e)
      | None => ((k, series) :: rest, Some IndexError)
      end
  end.

(** [add_entry(entry)]: the state after the call and the exception that
    left it, if any.  [t] is incremented after the loop. *)
Definition add_entry (self : LinePlot) (entry : gmap string R)
    : LinePlot * option exn :=
  let '(book, e) := append_entries entry (stat_book self) in
  match e with
  | None => ({| stat_list := stat_list self; stat_book := book; t := t self + 1 |}, None)
  | Some e => ({| stat_list := stat_list self; stat_book := book; t := t self |}, Some e)
  end.

(** [range(start, end, step)] *)
Definition py_range (start stop step : Z) : option (list Z) :=
  if decide (step = 0)%Z then None
  else if decide (0 < step)%Z then
    Some (map (fun k => start + k * step)%Z (seqZ 0 ((stop - start + step - 1) / step)))
  else
    Some (map (fun k => start + k * step)%Z (seqZ 0 ((start - stop - step - 1) / (- step)))).

(** [l[i]] on a list: a negative index counts from the end. *)
Definition py_index {A : Type} (l : list A) (i : Z) : option A :=
  let n := Z.of_nat (length l) in
  if decide (0 <= i < n)%Z then l !! Z.to_nat i
  else if decide (- n <= i < 0)%Z then l !! Z.to_nat (n + i)
  else None.

(** The dictionary lookup [self.stat_book[s]]. *)
Definition book_lookup (book : list (string * list R)) (s : string) : option (list R) :=
  found ← list_find (fun item => fst item = s) book; Some (snd (snd found)).

(** Every series of the log holds one value per entry made. *)
Definition aligned (self : LinePlot) : Prop :=
  Forall (fun item => Z.of_nat (length (snd item)) = t self) (stat_book self).

(** The value that [add_entry] appends to the series of column [k]. *)
Definition appended (entry : gmap string R) (k : string) (series : list R) : option R :=
  match entry !! k with
  | Some v => Some v
  | None => last series
  end.

(** The comprehension [[self.stat_book[s][i] for i in range(...)]] over
    the indices [ts]: the dictionary is read anew for every index, so
    with no index nothing is looked up.  The left summand is the
    exception raised. *)
Fixpoint series_values (book : list (string * list R)) (s : string) (ts : list Z)
    : exn + list R :=
  match ts with
  | [] => inr []
  | i :: rest =>
      match book_lookup book s with
      | None => inl KeyError
      | Some ys =>
          match py_index ys i with
          | None => inl IndexError
          | Some y =>
              match series_values book s rest with
              | inl e => inl e
              | inr l => inr (y :: l)
              end
          end
      end
  end.

(** [plot(series, step, start, end)]: the lines handed to [sns.lineplot],
    as pairs of [x] and [y] values, and the exception that ended the call,
    if any. *)
Definition plot (self : LinePlot) (series : list string) (step start stop : Z)
    : list (list Z * list R) * option exn :=
  let stop := if decide (stop <= start)%Z then t self else stop in
  match py_range start stop step with
  | None => ([], Some ValueError)
  | Some ts =>
      foldl (fun (acc : list (list Z * list R) * option exn) s =>
               match acc with
               | (lines, Some e) => (lines, Some e)
               | (lines, None) =>
                   match series_values (stat_book self) s ts with
                   | inl e => (lines, Some e)
                   | inr y => (lines ++ [(ts, y)], None)
                   end
               end)
            ([], None) series
  end.

(** *** The last-token hooks *)

(** [act[:,-1,:]]: the last position of every row. *)
Definition last_position {A : Type} (act : list (list A)) : option (list A) :=
  mapM last act.

(** [save_hook_last_token(save_to, act, hook)]: the list [save_to] after
    the call.  The hook returns nothing: the activations flow on
    unchanged. *)
Definition save_hook_last_token {A : Type} (save_to : list (list A))
    (act : list (list A)) : option (list (list A)) :=
  r ← last_position act; Some (save_to ++ [r]).

(** A value broadcast along a batch axis of length [n]: it has [n] rows,
    or one row that is repeated. *)
Definition broadcast_to {A : Type} (n : nat) (repl : list A) : option (list A) :=
  if decide (length repl = n) then Some repl
  else match repl with
       | [r] => Some (replicate n r)
       | _ => None
       end.

(** One row with its last position replaced. *)
Definition set_last {A : Type} (r : A) (row : list A) : option (list A) :=
  match row with
  | [] => None
  | _ => Some (removelast row ++ [r])
  end.

(** [ablation_all_hook_last_token(repl, act, hook)]: [act[:,-1] = repl]
    in place, and [act] is returned. *)
Definition ablation_all_hook_last_token {A : Type} (repl : list A)
    (act : list (list A)) : option (list (list A)) :=
  rs ← broadcast_to (length act) repl;
  mapM (fun rr => set_last (fst rr) (snd rr)) (zip rs act).

End TrainingUtils.

(** ** The loss of [EdgePruner.forward]

    What [forward] computes from the two outputs of the base model: the
    output of the patched pass and, outside parallel inference, the output
    of the reference pass made with the hooks disabled.  An output has the
    axes [sample][row][vocabulary]. *)

Module ForwardLoss.
Import Tensor Float.

(** [t.sum()] of real entries. *)
Definition rsum (l : list R) : R := foldr Rplus 0 l.

(** [x.log_softmax(dim=-1)] *)
Definition log_softmax (x : list R) : list R :=
  let s := ln (rsum (map exp x)) in
  map (fun xi => xi - s) x.

(** One entry of [torch.nn.KLDivLoss(reduction="none")(input, target)]:
    [target * (target.log() - input)]. *)
Definition kl_entry (input target : R) : R := target * (ln target - input).

(** [kl_loss(pruned_output, orig_output.exp()).sum(dim=-1)] on one row. *)
Definition kl_row (pruned orig : list R) : option R :=
  ps ← zip_bc pruned (map exp orig);
  Some (rsum (map (fun it => kl_entry (fst it) (snd it)) ps)).

(** The same on the whole outputs, which broadcast along the sample and
    the row axes. *)
Definition kl_losses (pruned_output orig_output : list (list (list R)))
    : option (list (list R)) :=
  zipM_bc (zipM_bc kl_row) pruned_output orig_output.

(** [forward] from the outputs of the base model on: [patched] is
    [self.base_model(batch.repeat(...))] and [reference] is
    [self.base_model(batch)] with the hooks disabled, which is only
    computed outside parallel inference.  In parallel inference the first
    sample of the patched output is the reference.  Returns [kl_losses]
    (what [separate_loss] asks for) and [loss]; [None] is an exception.
    Timing, printing and plotting are left out. *)
Definition forward_loss (parallel_inference : bool) (mask_loss : fval)
    (patched reference : list (list (list R)))
    : option (list (list R) * fval) :=
  let pruned_output := map (map log_softmax) patched in
  '(orig_output, pruned_output) ←
    (if parallel_inference then
       match pruned_output with
       | o :: rest => Some ([o], rest)
       | [] => None
       end
     else Some (map (map log_softmax) reference, pruned_output));
  kl ← kl_losses pruned_output orig_output;
  Some (kl, fadd (fmean (map Fin (concat kl))) mask_loss).

End ForwardLoss.

(** ** The fixed mask of direct ablation ([SingleComponentMaskSampler]) *)

Module Samplers.
Import Tensor.

(** The fields of [pruning_cfg] read by [SingleComponentMaskSampler]. *)
Record ComponentCfg := {
  n_layers : nat;
  n_heads : nat;
  n_samples : nat;
  batch_size : nat
}.

(** [t.unflatten(1, (g, -1))] on a tensor with axes [row][column]: every
    row in [g] groups of equal size.  The size cannot be inferred when [g]
    is zero or does not divide the number of columns: [None]. *)
Definition unflatten_groups {A : Type} (g : nat) (t : list (list A))
    : option (list (list (list A))) :=
  if decide (g = 0%nat) then None
  else
    mapM (fun row : list A =>
            if decide ((length row mod g)%nat = 0%nat)
            then let k := (length row / g)%nat in
                 Some (tab g (fun i => take k (drop (i * k) row)))
            else None) t.

(** [(torch.ones((bsz, *ts.shape)) * ts).flatten(start_dim=0, end_dim=1)]:
    the tensor [ts], with entries multiplied by one through [one_times],
    repeated [bsz] times along its first axis. *)
Definition repeat_batch {A : Type} (one_times : A -> A) (bsz : nat) (ts : list A)
    : list A :=
  concat (replicate bsz (map one_times ts)).

(** [SingleComponentMaskSampler(pruning_cfg)]: the lists
    [sampled_mask["attn"]] and [sampled_mask["mlp"]], one tensor per
    layer; [None] when the constructor raises. *)
Definition SingleComponentMaskSampler (cfg : ComponentCfg)
    : option (list (list (list R)) * list (list R)) :=
  let total_heads := (n_layers cfg * n_heads cfg)%nat in
  let bsz := batch_size cfg in
  if decide (n_samples cfg <> total_heads) then None
  else
    let attn_mask :=
      tab total_heads (fun s => tab total_heads (fun j =>
        1 - (if decide (s = j) then 1 else 0))) in
    attn_mask ← unflatten_groups (n_layers cfg) attn_mask;
    attn ← mapM (fun i => mapM (fun row : list (list R) => row !! i) attn_mask)
                (seq 0 (n_layers cfg));
    let mlp := map (fun _ => tab total_heads (fun _ => 1)) (seq 0 (n_layers cfg)) in
    Some (map (repeat_batch (map (Rmult 1)) bsz) attn,
          map (repeat_batch (Rmult 1) bsz) mlp).

End Samplers.

(** ** The modal values as one tensor ([EdgePruner.get_modes]) *)

Module Modes.
Import Tensor.

(** [torch.cat(tensors, dim=0)] of tensors with axes [row][column]: all
    rows must have the same number of columns.  A tensor without rows
    does not show its number of columns here; the tensors are assumed
    to have rows. *)
Definition cat_rows {A : Type} (tensors : list (list (list A)))
    : option (list (list A)) :=
  let rows := concat tensors in
  match rows with
  | [] => Some []
  | r :: _ =>
      if decide (Forall (fun r' => length r' = length r) rows) then Some rows
      else None
  end.

(** [get_modes()], with the feature axis written out:
    [torch.cat([self.modal_attention.flatten(start_dim=1,end_dim=2),
                self.modal_mlp], dim=0)].
    [modal_attention] has the axes [layer][head][feature] and [modal_mlp]
    the axes [source][feature]. *)
Definition get_modes (modal_attention : list (list (list R)))
    (modal_mlp : list (list R)) : option (list (list R)) :=
  cat_rows [map (@concat R) modal_attention; modal_mlp].

End Modes.

(** ** Concrete inputs used by the examples *)

(** The usual stretch interval [(-0.1, 1.1)]: the constant of the
    complexity penalty is [ln (1/11)]. *)
Definition cfg_example : PruningCfg :=
  {| hard_concrete_endpoints := (-0.1, 1.1); lamb := 1;
     n_samples := 1; batch_size := 1;
     record_every := 100; checkpoint_every := 5 |}.

(** One edge whose sharpness is [+inf]. *)
Definition store_inf_sharpness : Params.store :=
  [("mlp-mlp"%string, [Params.of_rows [(Float.Fin 0, Float.PInf)]])].

(** One edge whose location and sharpness are both [NaN], before and after
    a call of [fix_nans]. *)
Definition store_nan_location : Params.store :=
  [("mlp-mlp"%string, [Params.of_rows [(Float.NaN, Float.NaN)]])].
Definition store_nan_location_fixed : Params.store :=
  [("mlp-mlp"%string, [Params.of_rows [(Float.NaN, Params.def_value)]])].

(** A store of one rank-two tensor with two edges: both entries of the
    first are [NaN], the sharpness of the second is [+inf]. *)
Definition store2_nan_example : Params.store2 :=
  [("mlp-mlp"%string, [[(Float.NaN, Float.NaN); (Float.Fin 1, Float.PInf)]])].

(** A sampler with two edges, neither with a sharpness above one. *)
Definition sampler_example : MaskLoss.MaskSampler :=
  {| MaskLoss.sampling_params :=
       [("mlp-mlp"%string, [Params.of_rows [(Float.Fin 0, Float.Fin (2/3));
                                           (Float.Fin 1, Float.NaN)]])];
     MaskLoss.complexity_mean := false;
     MaskLoss.temp_c := 0 |}.

(** A log with [steps] entries recorded, a last temperature of [0.5] and
    the early-termination counter at [count]. *)
Definition log_example (steps count : Z) : Trainer.LinePlot :=
  {| Trainer.stat_book := {[ "temp"%string := [0.5] ]};
     Trainer.t := steps;
     Trainer.early_term_count := count |}.

(** A growth statistic that reports a slope of one for every column. *)
Definition growth_steep (log : Trainer.LinePlot) (column : string) : option (R * R) :=
  Some (1, 0).

(** A pruner on a feature axis of length one, with two layers, one head and
    one row of two positions.  The cached outputs are the embedding and the
    MLP outputs of layers 0 and 1, and the attention outputs of layers 0
    and 1; [mlp_layers] and [attn_layers] say how many of them the forward
    pass has stored when the hook under study fires.  [ltm] is the
    last-token mask. *)
Definition pruner_example (parallel ablation : bool) (attn_layers mlp_layers : nat)
    (ltm : list (list R)) (mask : Pruner.SampledMask) : Pruner.EdgePruner R :=
  {| Pruner.n_layers := 2;
     Pruner.batch_size := 1;
     Pruner.sampled_mask := mask;
     Pruner.modal_attention := [[10]; [20]];
     Pruner.modal_mlp := [100; 200; 300];
     Pruner.attention_cache := take attn_layers [ [[[5]; [6]]]; [[[7]; [8]]] ];
     Pruner.mlp_cache := take mlp_layers [ [[1; 2]]; [[3; 4]]; [[50; 60]] ];
     Pruner.cache_compressed_attn := true;
     Pruner.parallel_inference := parallel;
     Pruner.ablation_backward := ablation;
     Pruner.disable_hooks := false;
     Pruner.disable_pruning_hooks := false;
     Pruner.post_bias := [1000; 2000];
     Pruner.W_O := [[fun x => 2 * x]; [fun x => 3 * x]];
     Pruner.last_token_mask := ltm |}.

(** The entries of the tensors of [pruner_example]. *)
Definition mc_example (j b p : nat) : R :=
  match j, p with
  | O, O => 1 | O, S _ => 2
  | S O, O => 3 | S O, S _ => 4
  | S (S _), O => 50 | S (S _), S _ => 60
  end.
Definition ac_example (l b p h : nat) : R :=
  match l, p with
  | O, O => 5 | O, S _ => 6
  | S _, O => 7 | S _, S _ => 8
  end.
Definition mm_example (j : nat) : R :=
  match j with O => 100 | S O => 200 | S (S _) => 300 end.
Definition ma_example (l h : nat) : R :=
  match l with O => 10 | S _ => 20 end.
Definition w_example (l h : nat) (x : R) : R :=
  match l with O => 2 * x | S _ => 3 * x end.

(** Gate tensors of the right shapes with every gate equal to [g], for
    the hooks of layer 1 (index 1) and for the final hook (index 2); the
    entries for layer 0 are not read by these hooks. *)
Definition mask_example (g : R) : Pruner.SampledMask :=
  {| Pruner.mlp_attn := [ []; [[ [[g; g]]; [[g; g]]; [[g; g]] ]] ];
     Pruner.attn_attn := [ []; [[ [[[g]]]; [[[g]]]; [[[g]]] ]] ];
     Pruner.mlp_mlp := [ []; [[g; g]]; [[g; g; g]] ];
     Pruner.attn_mlp := [ []; [[[g]; [g]]]; [[[g]; [g]]] ] |}.

(** Gate tensors built for one MLP source too many: three gates along the
    source axis where two outputs are cached. *)
Definition mask_wrong_sources : Pruner.SampledMask :=
  {| Pruner.mlp_attn := [ []; [[ [[1; 1; 1]]; [[1; 1; 1]]; [[1; 1; 1]] ]] ];
     Pruner.attn_attn := [ []; [[ [[[1]]]; [[[1]]]; [[[1]]] ]] ];
     Pruner.mlp_mlp := [ []; [[1; 1; 1]] ];
     Pruner.attn_mlp := [ []; [[[1]; [1]]] ] |}.

(** Gate tensors built for one attention source layer too many. *)
Definition mask_wrong_attn_sources : Pruner.SampledMask :=
  {| Pruner.mlp_attn := [ []; [[ [[1; 1]]; [[1; 1]]; [[1; 1]] ]] ];
     Pruner.attn_attn := [ []; [[ [[[1]; [1]; [1]]]; [[[1]; [1]; [1]]]; [[[1]; [1]; [1]]] ]] ];
     Pruner.mlp_mlp := [ []; [[1; 1]] ];
     Pruner.attn_mlp := [ []; [[[1]; [1]; [1]]] ] |}.

(** A two-layer base model with one head whose output projections and
    biases are those held by [pruner_example]: the embedding of a token is
    its number, the attention passes the value input through and the MLP
    doubles its input. *)
Definition model_example : Forward.HookedTransformer R :=
  {| Forward.n_heads := 1;
     Forward.embed := map (map INR);
     Forward.attn_z := fun _ _ _ v => v;
     Forward.w_o := w_example;
     Forward.b_o := fun l => match l with O => 1000 | S _ => 2000 end;
     Forward.mlp := fun _ => map (map (fun x => 2 * x));
     Forward.unembed := fun x => x |}.


(** ** Further concrete inputs *)

(** A configuration that records on every step. *)
Definition cfg_every_step : PruningCfg :=
  {| hard_concrete_endpoints := (-0.1, 1.1); lamb := 1;
     n_samples := 1; batch_size := 1;
     record_every := 1; checkpoint_every := 5 |}.

(** A log of 2990 steps with a last temperature of zero. *)
Definition log_late : Trainer.LinePlot :=
  {| Trainer.stat_book := {["temp"%string := [0]]};
     Trainer.t := 2990; Trainer.early_term_count := 9 |}.

(** A growth statistic that reports no growth at all. *)
Definition growth_flat (_ : Trainer.LinePlot) (_ : string) : option (R * R) :=
  Some (0, 0).

(** A log of two columns after one entry, a fresh log of the same
    columns, and an entry that gives the first column only. *)
Definition log_two_columns : TrainingUtils.LinePlot :=
  {| TrainingUtils.stat_list := ["kl_loss"; "temp"]%string;
     TrainingUtils.stat_book := [("kl_loss"%string, [1]); ("temp"%string, [2])];
     TrainingUtils.t := 1 |}.

Definition log_fresh : TrainingUtils.LinePlot :=
  {| TrainingUtils.stat_list := ["kl_loss"; "temp"]%string;
     TrainingUtils.stat_book := [("kl_loss"%string, []); ("temp"%string, [])];
     TrainingUtils.t := 0 |}.

Definition entry_kl : gmap string R := {["kl_loss"%string := 3]}.

(** A sampler with two edges, all parameters real, and a sampler whose
    only parameter tensor holds no edge. *)
Definition sampler_finite : MaskLoss.MaskSampler :=
  {| MaskLoss.sampling_params :=
       [("mlp-mlp"%string, [Params.of_rows [(Float.Fin 0, Float.Fin (2/3));
                                           (Float.Fin 1, Float.Fin 2)]])];
     MaskLoss.complexity_mean := false;
     MaskLoss.temp_c := 0 |}.

Definition sampler_no_edges : MaskLoss.MaskSampler :=
  {| MaskLoss.sampling_params := [("mlp-mlp"%string, [Params.of_rows []])];
     MaskLoss.complexity_mean := true;
     MaskLoss.temp_c := 0 |}.

(** Two layers of three heads, patched one head per sample. *)
Definition component_cfg_example : Samplers.ComponentCfg :=
  {| Samplers.n_layers := 2; Samplers.n_heads := 3;
     Samplers.n_samples := 6; Samplers.batch_size := 2 |}.

(** A log of two columns after two entries. *)
Definition log_two_entries : TrainingUtils.LinePlot :=
  {| TrainingUtils.stat_list := ["kl_loss"; "temp"]%string;
     TrainingUtils.stat_book :=
       [("kl_loss"%string, [1; 3]); ("temp"%string, [2; 2])];
     TrainingUtils.t := 2 |}.

(** * Properties *)

(** ** Scalar functions *)

Section ScalarFacts.
Import Scalar.

Lemma clamp_bounds (lo hi x : R) : lo <= hi -> lo <= clamp lo hi x <= hi.
Proof.
  intros Hle. unfold clamp, Rmin, Rmax.
  repeat destruct (Rle_dec _ _); lra.
Qed.

Lemma sigmoid_pos (x : R) : 0 < sigmoid x.
Proof.
  unfold sigmoid. pose proof (exp_pos (- x)).
  apply Rdiv_lt_0_compat; lra.
Qed.

Lemma sigmoid_lt_1 (x : R) : sigmoid x < 1.
Proof.
  unfold sigmoid. pose proof (exp_pos (- x)) as He.
  apply Rmult_lt_reg_r with (1 + exp (- x)); [lra|].
  unfold Rdiv. rewrite Rmult_assoc, Rinv_l by lra. lra.
Qed.

Lemma sigmoid_increasing (x y : R) : x < y -> sigmoid x < sigmoid y.
Proof.
  intros Hxy. unfold sigmoid.
  pose proof (exp_pos (- x)) as Hx. pose proof (exp_pos (- y)) as Hy.
  assert (exp (- y) < exp (- x)) as Hexp by (apply exp_increasing; lra).
  unfold Rdiv. rewrite !Rmult_1_l.
  apply Rinv_lt_contravar; [|lra].
  apply Rmult_lt_0_compat; lra.
Qed.

Lemma sigmoid_monotone (x y : R) : x <= y -> sigmoid x <= sigmoid y.
Proof.
  intros [Hlt | ->]; [left; by apply sigmoid_increasing | right; reflexivity].
Qed.

Lemma relu_nonneg (x : R) : 0 <= relu x.
Proof. unfold relu. apply Rmax_l. Qed.

Lemma relu_of_nonneg (x : R) : 0 <= x -> relu x = x.
Proof. intros. unfold relu. by apply Rmax_right. Qed.

Lemma relu_of_nonpos (x : R) : x <= 0 -> relu x = 0.
Proof. intros. unfold relu. by apply Rmax_left. Qed.

End ScalarFacts.

(** ** The hard-concrete sampler *)

Section SamplerFacts.
Import Scalar Sampler.

(** An entry of the sampled mask is clamped to the unit interval, whatever
    the noise, the parameter and the endpoint constants. *)
Lemma hard_concrete_bounds (endpts : R * R) (u : R) (p : param) :
  0 <= hard_concrete endpts u p <= 1.
Proof. unfold hard_concrete. apply clamp_bounds. lra. Qed.




Lemma log_endpoint_ratio_example :
  log_endpoint_ratio cfg_example = Some (ln (- -0.1 / 1.1)).
Proof.
  unfold log_endpoint_ratio, cfg_example, py_div, math_log; simpl.
  destruct (Req_dec_T 1.1 0) as [E|_]; [lra|]. simpl.
  destruct (Rlt_dec 0 (- -0.1 / 1.1)) as [_|N]; [done|].
  exfalso. apply N. lra.
Qed.



End SamplerFacts.

(** ** The hard-concrete sampler on extended parameters *)

Section SamplerExtFacts.
Import Scalar Float SamplerExt.

Lemma divisor_pos (s : R) : 0 < relu s + 0.001.
Proof. pose proof (relu_nonneg s). lra. Qed.

Lemma sigmoid_unit (x : R) : 0 <= sigmoid x <= 1.
Proof. pose proof (sigmoid_pos x). pose proof (sigmoid_lt_1 x). lra. Qed.

(** For noise in [[0,1)] both logarithms are real. *)
Lemma noise_term_real (u : R) :
  0 <= u < 1 ->
  fsub (flog (0.001 + u)) (flog (1 - u)) = Fin (log (0.001 + u) - log (1 - u)).
Proof.
  intros Hu. unfold flog, log.
  destruct (Rlt_dec 0 (0.001 + u)) as [_|N]; [|lra].
  destruct (Rlt_dec 0 (1 - u)) as [_|N]; [|lra].
  cbn. f_equal.
Qed.

(** On real parameters the two models of the sampler agree. *)
Lemma hard_concrete_real (endpts : R * R) (u l s : R) :
  0 <= u < 1 ->
  hard_concrete endpts u (Fin l, Fin s) = Fin (Sampler.hard_concrete endpts u (l, s)).
Proof.
  intros Hu. unfold hard_concrete, concrete, location, sharpness.
  rewrite (noise_term_real u Hu). cbn [fst snd frelu fadd fdiv].
  destruct (Req_dec_T (relu s + 0.001) 0) as [E|_]; [|done].
  pose proof (divisor_pos s). lra.
Qed.

(** The relaxed gate, before stretching: [NaN] for the parameters singled
    out by [gate_undefined], a real otherwise. *)
Lemma concrete_cases (u : R) (p : param) :
  0 <= u < 1 ->
  if gate_undefined p then concrete u p = NaN
  else exists r, concrete u p = Fin r.
Proof.
  intros Hu.
  destruct p as [[l| | |] [s| | |]];
    unfold concrete, gate_undefined, location, sharpness;
    rewrite (noise_term_real u Hu);
    cbn [fst snd frelu fadd fdiv isnan isfinite]; try done.
  - destruct (Req_dec_T (relu s + 0.001) 0) as [E|_];
      [pose proof (divisor_pos s); lra | by eexists].
  - by eexists.
  - destruct (Req_dec_T (0 + 0.001) 0) as [E|_]; [lra | by eexists].
  - destruct (Rlt_dec (relu s + 0.001) 0); by eexists.
  - destruct (Rlt_dec (0 + 0.001) 0); by eexists.
  - destruct (Rlt_dec (relu s + 0.001) 0); by eexists.
  - destruct (Rlt_dec (0 + 0.001) 0); by eexists.
Qed.

(** The sampled gate of one edge: [NaN] for the parameters singled out by
    [gate_undefined], a real of the closed unit interval otherwise. *)
Lemma hard_concrete_cases (endpts : R * R) (u : R) (p : param) :
  0 <= u < 1 ->
  if gate_undefined p then hard_concrete endpts u p = NaN
  else in_unit_interval (hard_concrete endpts u p).
Proof.
  intros Hu. pose proof (concrete_cases u p Hu) as H. unfold hard_concrete.
  destruct (gate_undefined p).
  - by rewrite H.
  - destruct H as [r ->]. cbn [fadd fmul fclamp]. eexists. split; [done|].
    apply clamp_bounds. lra.
Qed.

(** A row of gates, for noise in [[0,1)]. *)
Lemma hard_concrete_row (endpts : R * R) (row : list R) (ps : list param) :
  Forall (fun u => 0 <= u < 1) row ->
  Forall (fun g => g = NaN \/ in_unit_interval g)
         (zip_with (hard_concrete endpts) row ps) /\
  (Forall (fun p => gate_undefined p = false) ps ->
   Forall in_unit_interval (zip_with (hard_concrete endpts) row ps)).
Proof.
  intros Hrow. revert ps.
  induction Hrow as [|u row Hu _ IH]; intros [|p ps]; cbn [zip_with];
    [by split; constructor | by split; constructor | by split; constructor |].
  destruct (IH ps) as [IH1 IH2].
  pose proof (hard_concrete_cases endpts u p Hu) as H. split.
  - constructor; [|done]. destruct (gate_undefined p); [by left | by right].
  - intros [Hp Hps]%Forall_cons. rewrite Hp in H. constructor; [done | by apply IH2].
Qed.

Lemma gate_defined_of_finite (p : param) :
  Params.pair_finite p = true -> gate_undefined p = false.
Proof. by destruct p as [[] []]. Qed.

(** C3, as the code has it.  For uniform noise with entries in [[0,1)],
    every entry of the tensor returned by [sample_hard_concrete] is a
    real of the closed interval [[0,1]] or [NaN]; all entries lie in
    [[0,1]] when no parameter entry is [NaN] and no edge has an infinite
    location together with the sharpness [+inf]; and the gate of an edge
    with such parameters is [NaN] in every sample. *)
Theorem sample_hard_concrete_unit_interval_or_nan
    (cfg : PruningCfg) (unif : list (list R)) (sampling_params : list param) :
  Forall (Forall (fun u => 0 <= u < 1)) unif ->
  let mask := sample_hard_concrete cfg unif sampling_params in
  Forall (Forall (fun g => g = NaN \/ in_unit_interval g)) mask /\
  (Forall (fun p => gate_undefined p = false) sampling_params ->
   Forall (Forall in_unit_interval) mask) /\
  (forall i j row u p,
     unif !! i = Some row -> row !! j = Some u ->
     sampling_params !! j = Some p -> gate_undefined p = true ->
     exists gates, mask !! i = Some gates /\ gates !! j = Some NaN).
Proof.
  intros Hunif mask. subst mask. unfold sample_hard_concrete.
  set (endpts := hard_concrete_endpoints cfg). split; [|split].
  - apply Forall_map. eapply Forall_impl; [exact Hunif|]. intros row Hrow.
    apply (hard_concrete_row endpts row sampling_params Hrow).
  - intros Hdef. apply Forall_map. eapply Forall_impl; [exact Hunif|].
    intros row Hrow. by apply (hard_concrete_row endpts row sampling_params Hrow).
  - intros i j row u p Hrow Hu Hp Hnan.
    exists (zip_with (hard_concrete endpts) row sampling_params). split.
    + by rewrite list_lookup_fmap, Hrow.
    + rewrite lookup_zip_with, Hu. cbn [mbind option_bind]. rewrite Hp.
      cbn [mbind option_bind]. f_equal.
      assert (0 <= u < 1) as Hu01.
      { pose proof (Forall_lookup_1 _ _ _ _ Hunif Hrow) as Hr.
        exact (Forall_lookup_1 _ _ _ _ Hr Hu). }
      pose proof (hard_concrete_cases endpts u p Hu01) as H. by rewrite Hnan in H.
Qed.

(** The theorem on two samples of two edges with real and infinite
    parameters: every gate lies in the unit interval. *)
Lemma sample_hard_concrete_unit_interval_or_nan_witness :
  Forall (Forall in_unit_interval)
         (sample_hard_concrete cfg_example [[0.5; 0]; [0.25; 0.75]]
            [(Fin 0, Fin (2/3)); (PInf, NInf)]).
Proof.
  refine (proj1 (proj2 (sample_hard_concrete_unit_interval_or_nan cfg_example
                          [[0.5; 0]; [0.25; 0.75]]
                          [(Fin 0, Fin (2/3)); (PInf, NInf)] _)) _).
  - repeat constructor; lra.
  - by repeat constructor.
Defined.

(** C3, as stated, fails for a parameter tensor that holds a [NaN].  The
    pair [(NaN, 2/3)] is what [fix_nans] leaves of an edge whose location
    and sharpness were [NaN]; with noise [0.5] the sampled gate is [NaN],
    which is no element of [[0,1]]. *)
Lemma sample_hard_concrete_nan_gate :
  Forall (Forall (fun u => 0 <= u < 1)) [[0.5]] /\
  Params.get_sampling_params store_nan_location_fixed
  = Some [(NaN, Params.def_value)] /\
  sample_hard_concrete cfg_example [[0.5]] [(NaN, Params.def_value)] = [[NaN]] /\
  ~ Forall (Forall in_unit_interval) [[NaN]].
Proof.
  split; [repeat constructor; lra|]. split; [reflexivity|]. split.
  - pose proof (hard_concrete_cases (hard_concrete_endpoints cfg_example) 0.5
                  (NaN, Params.def_value) ltac:(lra)) as H.
    change (hard_concrete (hard_concrete_endpoints cfg_example) 0.5
              (NaN, Params.def_value) = NaN) in H.
    unfold sample_hard_concrete. cbn [map zip_with]. by rewrite H.
  - intros H. apply Forall_cons in H as [H _]. apply Forall_cons in H as [[r [H _]] _].
    discriminate.
Qed.

End SamplerExtFacts.

(** ** Repair of the parameter store *)

Section ParamsFacts.
Import Float Params.

Lemma rows_of_of_rows (rows : list (fval * fval)) : rows_of (of_rows rows) = rows.
Proof.
  unfold of_rows. simpl. induction rows as [|[l s] rows IH]; simpl; [done|].
  by rewrite IH.
Qed.

(** The list of tensors that [get_sampling_params] joins is not empty
    exactly when some key holds a tensor. *)
Lemma tensors_not_nil {A B : Type} (f : A -> B) (sp : list (string * list A)) :
  holds_tensor sp <-> concat (map (fun kv => map f (snd kv)) sp) <> [].
Proof.
  unfold holds_tensor. induction sp as [|[k l] sp IH]; cbn [map concat snd].
  - split; [intros H; inversion H | done].
  - rewrite Exists_cons. cbn [snd]. destruct l as [|ts l]; cbn [map app].
    + rewrite IH. split; [by intros [?|?] | by right].
    + split; [done | by left].
Qed.

Lemma get_sampling_params_is_Some (sp : store) :
  is_Some (get_sampling_params sp) <-> holds_tensor sp.
Proof.
  rewrite (tensors_not_nil rows_of sp). unfold get_sampling_params, cat.
  destruct (concat _) as [|ts l].
  - split; [by intros [? ?] | done].
  - split; [done | by eexists].
Qed.

Lemma holds_tensor_of_store2 (s : store2) :
  holds_tensor (of_store2 s) <-> holds_tensor s.
Proof.
  unfold holds_tensor, of_store2. rewrite Exists_fmap.
  split; intros H; (eapply Exists_impl; [exact H|]); intros [k l]; cbn; by destruct l.
Qed.

Lemma tensors_store2 (s : store2) :
  concat (map (fun kv => map rows_of (snd kv)) (of_store2 s)) = concat (map snd s).
Proof.
  unfold of_store2. induction s as [|[k l] s IH]; cbn [map concat fst snd]; [done|].
  rewrite IH. f_equal. rewrite map_map.
  rewrite <- (map_id l) at 2. apply map_ext. intros rows. apply rows_of_of_rows.
Qed.

Lemma pairs_of_concat (s : store2) : pairs_of s = concat (concat (map snd s)).
Proof.
  unfold pairs_of. induction s as [|[k l] s IH]; cbn [map concat snd]; [done|].
  by rewrite concat_app, IH.
Qed.

Lemma get_sampling_params_store2 (s : store2) :
  holds_tensor s -> get_sampling_params (of_store2 s) = Some (pairs_of s).
Proof.
  intros Hs. apply holds_tensor_of_store2 in Hs.
  apply (tensors_not_nil rows_of) in Hs. revert Hs.
  unfold get_sampling_params, cat. rewrite tensors_store2, pairs_of_concat.
  by destruct (concat (map snd s)).
Qed.

(** Without a tensor in the store, [torch.cat] raises: so do
    [get_sampling_params] and [fix_nans]. *)
Lemma fix_nans_no_tensor (sp : store) :
  ~ holds_tensor sp -> get_sampling_params sp = None /\ fix_nans sp = None.
Proof.
  intros H. assert (get_sampling_params sp = None) as E.
  { apply eq_None_not_Some. by rewrite get_sampling_params_is_Some. }
  unfold fix_nans. by rewrite E.
Qed.

Lemma holds_tensor_reset (s : store2) :
  holds_tensor (reset_store2 s) <-> holds_tensor s.
Proof.
  unfold holds_tensor, reset_store2. rewrite Exists_fmap.
  split; intros H; (eapply Exists_impl; [exact H|]); intros [k l]; cbn; by destruct l.
Qed.

Lemma nan_count_app (a b : list (fval * fval)) :
  nan_count (a ++ b) = (nan_count a + nan_count b)%nat.
Proof. unfold nan_count. by rewrite map_app, concat_app, filter_app, length_app. Qed.

Lemma nan_count_cons (p : fval * fval) (rows : list (fval * fval)) :
  nan_count (p :: rows) = (nan_count [p] + nan_count rows)%nat.
Proof. apply (nan_count_app [p] rows). Qed.

Lemma nan_count_single (p : fval * fval) :
  nan_count [p] = 0%nat <-> pair_nan_free p = true.
Proof. destruct p as [[] []]; vm_compute; split; congruence. Qed.

(** No entry is [NaN] exactly when the count of [NaN]s is zero. *)
Lemma nan_count_zero (rows : list (fval * fval)) :
  nan_count rows = 0%nat <-> forallb pair_nan_free rows = true.
Proof.
  induction rows as [|p rows IH]; [done|].
  rewrite nan_count_cons. simpl. rewrite andb_true_iff, <- IH, <- nan_count_single. lia.
Qed.

Lemma has_nan_of_rows (rows : list (fval * fval)) :
  has_nan (of_rows rows) = negb (forallb pair_nan_free rows).
Proof.
  unfold has_nan. rewrite rows_of_of_rows.
  destruct (forallb pair_nan_free rows) eqn:E; simpl.
  - apply nan_count_zero in E. rewrite E. done.
  - apply bool_decide_eq_true. destruct (nan_count rows) eqn:N; [|lia].
    apply nan_count_zero in N. congruence.
Qed.

Lemma fix_tensor_of_rows (v : fval) (rows : list (fval * fval)) :
  fix_tensor v (of_rows rows)
  = Some (of_rows (map (fun p => (fst p, if isnan (snd p) then v else snd p)) rows)).
Proof.
  unfold fix_tensor, of_rows.
  assert (mapM (fix_slice v) (map (fun p => Row (fst p) (snd p)) rows)
          = Some (map (fun p : fval * fval => Row (fst p) (snd p))
                    (map (fun p => (fst p, if isnan (snd p) then v else snd p)) rows)))
    as ->; [|done].
  induction rows as [|[l s] rows IH]; simpl; [done|].
  rewrite IH. simpl. by destruct (isnan s).
Qed.

Lemma fix_list_of_rows (l : list (list (fval * fval))) :
  fix_list def_value (map of_rows l)
  = Some (map of_rows (map (map reset_pair) l),
          forallb pair_nan_free (concat (map (map reset_pair) l))).
Proof.
  induction l as [|rows l IH]; [done|].
  cbn [map fix_list concat]. rewrite fix_tensor_of_rows. cbn [mbind option_bind].
  rewrite IH. cbn [mbind option_bind].
  change (map (fun p : fval * fval => (p.1, if isnan p.2 then def_value else p.2)) rows)
    with (map reset_pair rows).
  rewrite has_nan_of_rows, negb_involutive, forallb_app. done.
Qed.

Lemma pairs_of_reset (s : store2) :
  pairs_of (reset_store2 s) = map reset_pair (pairs_of s).
Proof.
  unfold pairs_of, reset_store2.
  induction s as [|[k l] s IH]; simpl; [done|].
  rewrite IH, map_app. f_equal.
  clear. induction l as [|rows l IH]; simpl; [done|]. by rewrite map_app, IH.
Qed.

Lemma fix_store_store2 (s : store2) :
  fix_store def_value (of_store2 s)
  = Some (of_store2 (reset_store2 s),
          forallb pair_nan_free (pairs_of (reset_store2 s))).
Proof.
  induction s as [|[k l] s IH]; [done|].
  cbn [of_store2 map fix_store fst snd]. rewrite fix_list_of_rows.
  cbn [mbind option_bind].
  unfold of_store2 in IH. rewrite IH. cbn [mbind option_bind].
  unfold pairs_of. cbn [reset_store2 map concat fst snd]. by rewrite forallb_app.
Qed.

Lemma reset_pair_id (p : fval * fval) : isnan (snd p) = false -> reset_pair p = p.
Proof. destruct p as [l s]. unfold reset_pair. simpl. by intros ->. Qed.

Lemma reset_pair_idem (p : fval * fval) : reset_pair (reset_pair p) = reset_pair p.
Proof. by destruct p as [l []]. Qed.

Lemma reset_store2_idem (s : store2) : reset_store2 (reset_store2 s) = reset_store2 s.
Proof.
  unfold reset_store2. rewrite map_map. apply map_ext. intros [k l]. simpl.
  f_equal. rewrite map_map. apply map_ext. intros rows.
  rewrite map_map. apply map_ext, reset_pair_idem.
Qed.

Lemma reset_store2_nan_free (s : store2) :
  forallb pair_nan_free (pairs_of s) = true -> reset_store2 s = s.
Proof.
  unfold pairs_of, reset_store2.
  induction s as [|[k l] s IH]; simpl; [done|].
  rewrite forallb_app, andb_true_iff. intros [Hl Hs]. rewrite (IH Hs).
  do 2 f_equal. clear -Hl.
  induction l as [|rows l IH]; simpl in *; [done|].
  rewrite forallb_app, andb_true_iff in Hl. destruct Hl as [Hr Hl].
  rewrite (IH Hl). f_equal. clear -Hr.
  induction rows as [|p rows IH]; simpl in *; [done|].
  apply andb_true_iff in Hr as [Hp Hr]. rewrite (IH Hr). f_equal.
  apply reset_pair_id. unfold pair_nan_free in Hp.
  apply andb_true_iff in Hp as [_ Hp]. by apply negb_true_iff.
Qed.

(** After the repair a pair is free of [NaN] exactly when its location
    was not [NaN]. *)
Lemma reset_pair_nan_free (p : fval * fval) :
  pair_nan_free (reset_pair p) = negb (isnan (fst p)).
Proof. by destruct p as [[] []]. Qed.

(** [fix_nans] on a store of rank-two tensors. *)
Lemma fix_nans_store2 (s : store2) :
  holds_tensor s ->
  fix_nans (of_store2 s)
  = Some (of_store2 (reset_store2 s),
          forallb pair_nan_free (pairs_of (reset_store2 s))).
Proof.
  intros Hs. unfold fix_nans. rewrite (get_sampling_params_store2 s Hs).
  cbn [mbind option_bind].
  case_bool_decide as Hn; [apply fix_store_store2|].
  assert (nan_count (pairs_of s) = 0%nat) as Hz by lia.
  apply nan_count_zero in Hz. by rewrite (reset_store2_nan_free s Hz), Hz.
Qed.

(** C5, as the code has it.  On a store that holds at least one
    parameter tensor, all of shape N x 2, [fix_nans] sets every [NaN]
    sharpness to [2/3] and leaves every other entry, infinite ones
    included, as it is; it returns true exactly when no entry is [NaN]
    afterwards, which is when no location was [NaN]; a second call
    leaves the parameters unchanged and returns what the first call
    returned. *)
Theorem fix_nans_resets_nan_sharpness (s : store2) :
  holds_tensor s ->
  let s' := reset_store2 s in
  let fixed := forallb pair_nan_free (pairs_of s') in
  fix_nans (of_store2 s) = Some (of_store2 s', fixed) /\
  pairs_of s' = map reset_pair (pairs_of s) /\
  (fixed = true <-> Forall (fun p => isnan (fst p) = false) (pairs_of s)) /\
  fix_nans (of_store2 s') = Some (of_store2 s', fixed).
Proof.
  intros Hs s' fixed. split; [by apply fix_nans_store2|].
  split; [apply pairs_of_reset|]. split.
  - unfold fixed, s'. rewrite pairs_of_reset, forallb_forall, Forall_forall.
    split.
    + intros H p Hp. apply list_elem_of_In in Hp.
      specialize (H (reset_pair p) (in_map _ _ _ Hp)).
      rewrite reset_pair_nan_free in H. by apply negb_true_iff.
    + intros H q Hq. apply in_map_iff in Hq as (p & <- & Hp).
      rewrite reset_pair_nan_free. apply negb_true_iff, H.
      by apply list_elem_of_In.
  - unfold fixed, s'. rewrite fix_nans_store2 by (by apply holds_tensor_reset).
    by rewrite reset_store2_idem.
Qed.

(** The theorem on a store of two edges: the [NaN] sharpness of the
    first is reset, its [NaN] location stays, and both calls return
    false. *)
Lemma fix_nans_resets_nan_sharpness_witness :
  fix_nans (of_store2 store2_nan_example)
  = Some (of_store2 (reset_store2 store2_nan_example), false) /\
  pairs_of (reset_store2 store2_nan_example) = [(NaN, def_value); (Fin 1, PInf)] /\
  fix_nans (of_store2 (reset_store2 store2_nan_example))
  = Some (of_store2 (reset_store2 store2_nan_example), false).
Proof.
  destruct (fix_nans_resets_nan_sharpness store2_nan_example) as (H1 & H2 & _ & H4).
  - constructor. done.
  - split; [exact H1|]. split; [reflexivity | exact H4].
Defined.

(** C5, as stated, fails twice.  An infinite sharpness is not reset and
    the call returns true although an entry is not finite; and with a
    [NaN] location the second of two calls in a row returns false. *)
Lemma fix_nans_not_all_finite :
  (fix_nans store_inf_sharpness = Some (store_inf_sharpness, true) /\
   get_sampling_params store_inf_sharpness = Some [(Fin 0, PInf)] /\
   forallb pair_finite [(Fin 0, PInf)] = false) /\
  (fix_nans store_nan_location = Some (store_nan_location_fixed, false) /\
   fix_nans store_nan_location_fixed = Some (store_nan_location_fixed, false)).
Proof. repeat split. Qed.

(** On a tensor of rank three the index [ts[:,1]] no longer selects the
    sharpness column: the [NaN] sharpness of edge [(0,0)] stays, and the
    [NaN] location of edge [(0,1)] makes the statement overwrite the whole
    pair of the last edge [(0,2)]. *)
Example fix_nans_rank_three :
  fix_nans [("attn-mlp"%string,
             [Axis [Axis [Row (Fin 0) NaN; Row NaN (Fin 1); Row (Fin 5) (Fin 7)]]])]
  = Some ([("attn-mlp"%string,
             [Axis [Axis [Row (Fin 0) NaN; Row NaN (Fin 1);
                          Row def_value def_value]]])], false).
Proof. reflexivity. Qed.

(** A tensor of rank one has no second axis: with a [NaN] present the
    call raises. *)
Example fix_nans_rank_one :
  fix_nans [("final"%string, [Row (Fin 0) NaN])] = None.
Proof. reflexivity. Qed.

End ParamsFacts.

(** ** The [temp_cond] metric *)

Section MaskLossFacts.
Import Float Params MaskLoss.

(** [nan_to_num] returns a real, and so does adding one to it. *)
Lemma temp_cond_finite (sharp : list fval) :
  exists r, temp_cond sharp = Fin r.
Proof.
  unfold temp_cond.
  destruct (fdiv (temp_excess sharp) (of_count (temp_above sharp))); simpl; eauto.
Qed.

Lemma temp_above_zero (sharp : list fval) :
  Forall (fun s => fgt s 1 = false) sharp -> temp_above sharp = 0%nat.
Proof.
  unfold temp_above. induction 1 as [|s sharp Hs _ IH]; [done|].
  rewrite filter_cons. destruct (decide (fgt s 1 = true)); [congruence | done].
Qed.

(** An entry that does not exceed one adds nothing to the excess, unless
    it is [NaN]. *)
Lemma excess_entry (s : fval) :
  fgt s 1 = false ->
  frelu (fsub s (Fin 1)) = Fin 0 \/ frelu (fsub s (Fin 1)) = NaN.
Proof.
  destruct s as [r| | |]; simpl; try (by auto).
  destruct (Rlt_dec 1 r); [done|]. intros _. left. f_equal.
  apply relu_of_nonpos. lra.
Qed.

Lemma temp_excess_zero_or_nan (sharp : list fval) :
  Forall (fun s => fgt s 1 = false) sharp ->
  temp_excess sharp = Fin 0 \/ temp_excess sharp = NaN.
Proof.
  unfold temp_excess. induction 1 as [|s sharp Hs _ IH]; simpl; [by left|].
  destruct (excess_entry s Hs) as [-> | ->], IH as [-> | ->]; simpl; auto.
  left. f_equal. lra.
Qed.

(** With no sharpness above one the quotient is [0/0] or [NaN/0]: the
    metric is the sentinel [0 + 1]. *)
Lemma temp_cond_sentinel (sharp : list fval) :
  Forall (fun s => fgt s 1 = false) sharp -> temp_cond sharp = Fin 1.
Proof.
  intros H. unfold temp_cond. rewrite (temp_above_zero sharp H).
  unfold of_count. simpl INR.
  destruct (temp_excess_zero_or_nan sharp H) as [-> | ->]; simpl.
  - destruct (Req_dec_T 0 0) as [_|N]; [|lra]. unfold inf_times.
    destruct (Rlt_dec 0 0); [lra|]. simpl. f_equal. lra.
  - f_equal. lra.
Qed.

Lemma get_mask_loss_temp_cond (cfg : PruningCfg) (self : MaskSampler)
    (ps : list (fval * fval)) (loss : fval) (details : gmap string fval) :
  get_sampling_params (sampling_params self) = Some ps ->
  get_mask_loss cfg self = Some (loss, details) ->
  details !! "temp_cond"%string = Some (temp_cond (map snd ps)).
Proof.
  unfold get_mask_loss. intros ->. cbn [mbind option_bind].
  destruct (Sampler.log_endpoint_ratio cfg) as [c|]; simpl; [|done].
  intros [= _ <-]. by simplify_map_eq.
Qed.

(** Without a parameter tensor in the store there are no metrics:
    [torch.cat] raises in [get_sampling_params]. *)
Lemma get_mask_loss_no_tensor (cfg : PruningCfg) (self : MaskSampler) :
  ~ holds_tensor (sampling_params self) -> get_mask_loss cfg self = None.
Proof.
  intros H. unfold get_mask_loss.
  by rewrite (proj1 (fix_nans_no_tensor _ H)).
Qed.

(** C9. Whenever the store holds a parameter tensor and the constant of
    the complexity penalty is defined, [get_mask_loss] returns its
    metrics, the [temp_cond] entry among them is a real number, and when
    no sharpness exceeds one it is the sentinel [1] instead of the
    quotient by a zero count. *)
Theorem get_mask_loss_temp_cond_sentinel
    (cfg : PruningCfg) (self : MaskSampler) (c : R) :
  holds_tensor (sampling_params self) ->
  Sampler.log_endpoint_ratio cfg = Some c ->
  exists ps loss details,
    get_sampling_params (sampling_params self) = Some ps /\
    get_mask_loss cfg self = Some (loss, details) /\
    (exists r, details !! "temp_cond"%string = Some (Fin r)) /\
    (Forall (fun p => fgt (snd p) 1 = false) ps ->
     details !! "temp_cond"%string = Some (Fin 1)).
Proof.
  intros Hs Hc. apply get_sampling_params_is_Some in Hs as [ps Hps].
  destruct (get_mask_loss cfg self) as [[loss details]|] eqn:E.
  - exists ps, loss, details. split; [done|]. split; [done|].
    rewrite (get_mask_loss_temp_cond _ _ _ _ _ Hps E). split.
    + destruct (temp_cond_finite (map snd ps)) as [r ->]. by exists r.
    + intros H. f_equal. apply temp_cond_sentinel. by apply Forall_map.
  - unfold get_mask_loss in E. rewrite Hps, Hc in E. done.
Qed.

(** On the example sampler no sharpness exceeds one. *)
Lemma sampler_example_not_above_one :
  Forall (fun p => fgt (snd p) 1 = false) [(Fin 0, Fin (2/3)); (Fin 1, NaN)].
Proof.
  repeat constructor; simpl; destruct (Rlt_dec _ _); try done; lra.
Qed.

Lemma get_mask_loss_temp_cond_sentinel_witness :
  exists loss details,
    get_mask_loss cfg_example sampler_example = Some (loss, details) /\
    details !! "temp_cond"%string = Some (Fin 1).
Proof.
  destruct (get_mask_loss_temp_cond_sentinel cfg_example sampler_example
              (ln (- -0.1 / 1.1)))
    as (ps & loss & details & Hps & Hloss & _ & Hone).
  - constructor. done.
  - apply log_endpoint_ratio_example.
  - exists loss, details. split; [exact Hloss|]. apply Hone.
    injection Hps as <-. apply sampler_example_not_above_one.
Defined.

End MaskLossFacts.

(** ** Early termination *)

Section TrainerFacts.
Import Trainer.

Variable stat_sig_growth : LinePlot -> string -> option (R * R).
Variable train_step : Z -> LinePlot -> LinePlot.

(** Below the minimum number of steps the call returns 0 and leaves the
    counter alone. *)
Lemma early_term_warmup (decline_pct : R) (log : LinePlot) :
  (t log < 500)%Z -> early_term stat_sig_growth decline_pct log = Some (log, 0%Z).
Proof. intros H. unfold early_term. by rewrite (proj2 (Z.ltb_lt _ _) H). Qed.

Lemma early_term_step (decline_pct : R) (log : LinePlot) (kl cx g1 g2 temp : R) :
  (500 <= t log)%Z ->
  stat_sig_growth log "kl_loss"%string = Some (kl, g1) ->
  stat_sig_growth log "complexity_loss"%string = Some (cx, g2) ->
  last_temp log = Some temp ->
  early_term stat_sig_growth decline_pct log
  = let count := if converged decline_pct kl cx temp
                 then (early_term_count log + 1)%Z
                 else Z.max 0 (early_term_count log - 2) in
    Some (set_early_term_count log count, count).
Proof.
  intros Ht Hkl Hcx Htemp. unfold early_term.
  rewrite (proj2 (Z.ltb_ge _ _) Ht), Hkl. simpl. rewrite Hcx. simpl.
  by rewrite Htemp.
Qed.

Lemma converged_true (decline_pct kl cx temp : R) :
  converged decline_pct kl cx temp = true
  <-> kl < 0.01 /\ cx < decline_pct /\ temp < 0.01.
Proof.
  unfold converged. repeat destruct (Rlt_dec _ _); simpl; split; try done; tauto.
Qed.

(** The returned count is the counter of the returned log, unless the call
    was made during warm-up. *)
Lemma early_term_returns_counter (decline_pct : R) (log log' : LinePlot) (count : Z) :
  early_term stat_sig_growth decline_pct log = Some (log', count) ->
  (count = 0 /\ log' = log /\ t log < 500)%Z \/
  (early_term_count log' = count /\ 500 <= t log)%Z.
Proof.
  unfold early_term. destruct (t log <? 500)%Z eqn:Ht.
  - intros [= <- <-]. left. by apply Z.ltb_lt in Ht.
  - apply Z.ltb_ge in Ht.
    destruct (stat_sig_growth log "kl_loss"%string) as [[kl ?]|]; simpl; [|done].
    destruct (stat_sig_growth log "complexity_loss"%string) as [[cx ?]|]; simpl; [|done].
    destruct (last_temp log) as [temp|]; simpl; [|done].
    intros [= <- <-]. by right.
Qed.

(** An iteration breaks the loop exactly on a plotting step on which
    [early_term] returns at least 10. *)
Lemma loop_body_breaks (cfg : PruningCfg) (no_batches : Z) (log log' : LinePlot) :
  loop_body stat_sig_growth train_step cfg no_batches log = Some (log', true)
  <-> plotting cfg no_batches = Some true /\
      is_Some (checkpointing cfg no_batches) /\
      exists count, early_term stat_sig_growth 0.03 (train_step no_batches log)
                    = Some (log', count) /\ (10 <= count)%Z.
Proof.
  unfold loop_body.
  destruct (plotting cfg no_batches) as [[]|]; simpl;
    destruct (checkpointing cfg no_batches) as [ck|]; simpl;
    try (split; [done | by intros (? & [? ?] & ?)]);
    try (split; [done | by intros (? & ? & ?)]).
  destruct (early_term _ _ _) as [[l c]|]; simpl.
  - split.
    + intros [= <- Hc]. repeat split; eauto. exists c. split; [done|]. by apply Z.leb_le.
    + intros (_ & _ & c' & [= <- <-] & Hc). by rewrite (proj2 (Z.leb_le _ _) Hc).
  - split; [done|]. by intros (_ & _ & c' & ? & _).
Qed.

(** When the loop stops early, the counter of the final log is at least
    10, and the stop happened on a plotting step of the range. *)
Lemma run_stopped (cfg : PruningCfg) (batches : list Z) (log log' : LinePlot) (n : Z) :
  run stat_sig_growth train_step cfg batches log = (log', Stopped n) ->
  n ∈ batches /\ plotting cfg n = Some true /\ (10 <= early_term_count log')%Z.
Proof.
  revert log. induction batches as [|b batches IH]; intros log; simpl; [done|].
  destruct (loop_body _ _ cfg b log) as [[l []]|] eqn:E; [| |done].
  - intros [= <- <-]. apply loop_body_breaks in E as (Hp & _ & c & Hc & Hle).
    split; [left|]. split; [done|].
    apply early_term_returns_counter in Hc as [(-> & _) | (-> & _)]; [lia | done].
  - intros H. apply IH in H as (? & ? & ?). split; [by right | done].
Qed.

(** C4, as the code has it.  Once the log holds at least 500 steps, a call
    of [early_term] adds one to the counter when the growth of the KL loss
    is below 0.01, the growth of the sparsity loss is below the percentage
    threshold and the last logged temperature is below 0.01; in every
    other case it takes two off the counter, floored at zero; the call
    returns the new counter.  The loop calls [early_term] on plotting steps
    only and breaks exactly when such a call returns at least 10; a loop
    that stopped early leaves a counter of at least 10. *)
Theorem early_term_counter
    (cfg : PruningCfg) (decline_pct : R) (log : LinePlot) (kl cx g1 g2 temp : R) :
  (500 <= t log)%Z ->
  stat_sig_growth log "kl_loss"%string = Some (kl, g1) ->
  stat_sig_growth log "complexity_loss"%string = Some (cx, g2) ->
  last_temp log = Some temp ->
  (kl < 0.01 /\ cx < decline_pct /\ temp < 0.01 ->
   early_term stat_sig_growth decline_pct log
   = Some (set_early_term_count log (early_term_count log + 1),
           (early_term_count log + 1)%Z)) /\
  (~ (kl < 0.01 /\ cx < decline_pct /\ temp < 0.01) ->
   early_term stat_sig_growth decline_pct log
   = Some (set_early_term_count log (Z.max 0 (early_term_count log - 2)),
           Z.max 0 (early_term_count log - 2))) /\
  (forall no_batches log0 log',
     loop_body stat_sig_growth train_step cfg no_batches log0 = Some (log', true)
     <-> plotting cfg no_batches = Some true /\
         is_Some (checkpointing cfg no_batches) /\
         exists count,
           early_term stat_sig_growth 0.03 (train_step no_batches log0)
           = Some (log', count) /\ (10 <= count)%Z) /\
  (forall batches log0 log' n,
     run stat_sig_growth train_step cfg batches log0 = (log', Stopped n) ->
     n ∈ batches /\ plotting cfg n = Some true /\ (10 <= early_term_count log')%Z).
Proof.
  intros Ht Hkl Hcx Htemp.
  pose proof (early_term_step decline_pct log kl cx g1 g2 temp Ht Hkl Hcx Htemp) as E.
  split; [|split; [|split]].
  - intros Hc. apply converged_true in Hc. by rewrite E, Hc.
  - intros Hn. rewrite E.
    destruct (converged decline_pct kl cx temp) eqn:Hc; [|done].
    by apply converged_true in Hc.
  - intros no_batches log0 log'. apply loop_body_breaks.
  - intros batches log0 log' n. apply run_stopped.
Qed.

End TrainerFacts.

Section TrainerExamples.
Import Trainer.

Lemma last_temp_log_example c : last_temp (log_example 600 c) = Some 0.5.
Proof. unfold last_temp, log_example. simpl. by simplify_map_eq. Qed.

Lemma converged_steep : converged 0.03 1 1 0.5 = false.
Proof.
  unfold converged. destruct (Rlt_dec 1 0.01); [lra | done].
Qed.

Lemma early_term_counter_witness :
  (500 <= t (log_example 600 5))%Z /\
  early_term growth_steep 0.03 (log_example 600 5) = Some (log_example 600 3, 3%Z).
Proof.
  split; [unfold log_example; simpl; lia|].
  destruct (early_term_counter growth_steep (fun _ l => l) cfg_example 0.03
              (log_example 600 5) 1 1 0 0 0.5) as (_ & H & _).
  - unfold log_example; simpl; lia.
  - reflexivity.
  - reflexivity.
  - apply last_temp_log_example.
  - rewrite H; [reflexivity|]. intros [H1 _]. lra.
Defined.

(** C4, as stated, fails.  With the counter at 5 and a KL loss that still
    moves, the call leaves the counter at 3, not at 4; and the loop also
    ends, with the counter still at 0, when the range of batches is empty. *)
Lemma early_term_decrement_is_two :
  early_term growth_steep 0.03 (log_example 600 5) = Some (log_example 600 3, 3%Z) /\
  (3 <> 5 - 1)%Z /\
  training_loop growth_steep (fun _ l => l) cfg_example (log_example 3000 0)
  = (log_example 3000 0, Exhausted).
Proof.
  split; [|split; [lia | reflexivity]].
  unfold early_term. simpl. rewrite last_temp_log_example. simpl.
  by rewrite converged_steep.
Qed.

End TrainerExamples.

(** ** The [except] clauses of the hooks *)

Section HandlerFacts.
Import Tensor Pruner.
Context {V : Type} `{!VectorSpace V}.

(** With both masks assigned, the handler prints all shapes and re-raises
    the exception it caught. *)
Lemma attention_handler_complete (self : EdgePruner V) orig_in mlp_mask attn_mask e :
  attention_handler self orig_in (Some mlp_mask) (Some attn_mask) e
  = ([PrintMasks (mlp_attn (sampled_mask self)); PrintShape (shape3 orig_in);
      PrintShape (attention_mlp_mask_shape mlp_mask);
      PrintShape (attention_attn_mask_shape attn_mask)], Raised e).
Proof. reflexivity. Qed.

Lemma mlp_handler_complete (orig_in : list (list V)) mlp_mask attn_mask e :
  mlp_handler orig_in (Some mlp_mask) (Some attn_mask) e
  = ([PrintShape (shape2 orig_in); PrintShape (mlp_attn_mask_shape attn_mask);
      PrintShape (mlp_mlp_mask_shape mlp_mask)], Raised e).
Proof. reflexivity. Qed.

(** With [attn_mask] not yet assigned, the handler itself raises: the
    exception that leaves the hook is an [UnboundLocalError], whatever was
    caught. *)
Lemma attention_handler_unbound (self : EdgePruner V) orig_in mlp_mask e :
  exists p name,
    attention_handler self orig_in mlp_mask None e = (p, Raised (UnboundLocalError name)).
Proof. destruct mlp_mask; simpl; eauto. Qed.

Lemma mlp_handler_unbound (orig_in : list (list V)) mlp_mask e :
  mlp_handler orig_in mlp_mask None e
  = ([PrintShape (shape2 orig_in)], Raised (UnboundLocalError "attn_mask")).
Proof. reflexivity. Qed.

End HandlerFacts.

Section HandlerExamples.
Import Tensor Pruner.

(** C8 fails on the code.  The masks of layer 1 carry three MLP-source
    gates while two MLP outputs are cached, so the product of mask and
    cache raises a shape error before [attn_mask] is assigned.  The
    attention hook prints the masks and two shapes, the MLP hook one
    shape; neither prints the shape of the attention mask, and both leave
    with an [UnboundLocalError] for [attn_mask] in place of the shape
    error. *)
Lemma hooks_lose_exception_before_attn_mask :
  pruning_edge_attention_hook_all_tokens
    (pruner_example false false 1 2 [[0; 1]] mask_wrong_sources) 1 0 [[[0]; [0]]]
  = ([PrintMasks (mlp_attn mask_wrong_sources); PrintShape [1; 2; 1]%nat;
      PrintShape [1; 1; 1; 3; 1]%nat],
     Raised (UnboundLocalError "attn_mask")) /\
  pruning_edge_mlp_hook_all_tokens
    (pruner_example false false 2 2 [[0; 1]] mask_wrong_sources) 1 [[0; 0]]
  = ([PrintShape [1; 2]%nat], Raised (UnboundLocalError "attn_mask")).
Proof. split; reflexivity. Qed.

(** When the mismatch is on the attention side (gates for three source
    layers, two attention outputs cached), both masks are assigned when the
    error is raised: the diagnostic is complete and the shape error is
    re-raised. *)
Example mlp_hook_reraises_after_attn_mask :
  pruning_edge_mlp_hook_all_tokens
    (pruner_example false false 2 2 [[0; 1]] mask_wrong_attn_sources) 1 [[0; 0]]
  = ([PrintShape [1; 2]%nat; PrintShape [1; 1; 3; 1; 1]%nat;
      PrintShape [1; 1; 2; 1]%nat], Raised RuntimeError).
Proof. reflexivity. Qed.

End HandlerExamples.

(** ** List tensors *)

Section TabFacts.
Import Tensor.
Context {A B : Type}.

Lemma length_tab (n : nat) (f : nat -> A) : length (tab n f) = n.
Proof. unfold tab. by rewrite length_map, length_seq. Qed.

Lemma lookup_tab (n : nat) (f : nat -> A) (i : nat) :
  (i < n)%nat -> tab n f !! i = Some (f i).
Proof.
  intros Hi. unfold tab. rewrite list_lookup_fmap, lookup_seq_lt by done. done.
Qed.

Lemma tab_ext (n : nat) (f g : nat -> A) :
  (forall i, (i < n)%nat -> f i = g i) -> tab n f = tab n g.
Proof.
  intros H. unfold tab. apply map_ext_in. intros i Hi.
  apply in_seq in Hi. apply H. lia.
Qed.

Lemma tab_0 (f : nat -> A) : tab 0 f = [].
Proof. reflexivity. Qed.

Lemma tab_S (n : nat) (f : nat -> A) : tab (S n) f = f 0%nat :: tab n (fun i => f (S i)).
Proof. unfold tab. simpl. f_equal. by rewrite <- seq_shift, map_map. Qed.

Lemma tab_snoc (n : nat) (f : nat -> A) : tab (S n) f = tab n f ++ [f n].
Proof. unfold tab. by rewrite seq_S, map_app. Qed.

Lemma map_tab (g : A -> B) (n : nat) (f : nat -> A) :
  map g (tab n f) = tab n (fun i => g (f i)).
Proof. unfold tab. by rewrite map_map. Qed.

Lemma take_tab (k n : nat) (f : nat -> A) :
  (k <= n)%nat -> take k (tab n f) = tab k f.
Proof.
  intros Hk. unfold tab. rewrite <- fmap_take, take_seq. by rewrite Nat.min_l.
Qed.

Lemma head_tab (n : nat) (f : nat -> A) : head (tab (S n) f) = Some (f 0%nat).
Proof. reflexivity. Qed.

Lemma drop_1_tab (n : nat) (f : nat -> A) :
  drop 1 (tab (S n) f) = tab n (fun i => f (S i)).
Proof. by rewrite tab_S. Qed.

(** A tensor is the table of its entries. *)
Lemma tab_lookup_total (d : A) (l : list A) :
  l = tab (length l) (fun i => nth i l d).
Proof.
  induction l as [|x l IH]; [done|].
  simpl length. rewrite tab_S. simpl. by rewrite <- IH.
Qed.

Lemma mapM_map_total (F : A -> option B) (g : A -> B) (l : list A) :
  (forall x, x ∈ l -> F x = Some (g x)) -> mapM F l = Some (map g l).
Proof.
  intros H. apply mapM_Some_2, Forall2_fmap_r, Forall_Forall2_diag, Forall_forall.
  intros x Hx. by apply H.
Qed.

Lemma mapM_tab (F : A -> option B) (n : nat) (f : nat -> A) (g : nat -> B) :
  (forall i, (i < n)%nat -> F (f i) = Some (g i)) ->
  mapM F (tab n f) = Some (tab n g).
Proof.
  intros H. unfold tab. apply mapM_Some_2, Forall2_fmap, Forall_Forall2_diag, Forall_forall.
  intros i Hi. apply H. apply list_elem_of_In, in_seq in Hi. lia.
Qed.

End TabFacts.

Section TabZipFacts.
Import Tensor.
Context {A B C : Type}.

Lemma zip_tab (n : nat) (f : nat -> A) (g : nat -> B) :
  zip (tab n f) (tab n g) = tab n (fun i => (f i, g i)).
Proof.
  unfold tab. generalize 0%nat. induction n as [|n IH]; intros s; [done|].
  cbn [seq map]. unfold zip in *. cbn [zip_with]. by rewrite IH.
Qed.

Lemma zip_strict_tab (n : nat) (f : nat -> A) (g : nat -> B) :
  zip_strict (tab n f) (tab n g) = Some (tab n (fun i => (f i, g i))).
Proof.
  unfold zip_strict. rewrite decide_True by (by rewrite !length_tab).
  by rewrite zip_tab.
Qed.

Lemma zip_bc_tab (n : nat) (f : nat -> A) (g : nat -> B) :
  zip_bc (tab n f) (tab n g) = Some (tab n (fun i => (f i, g i))).
Proof.
  unfold zip_bc. rewrite decide_True by (by rewrite !length_tab).
  by rewrite zip_tab.
Qed.

Lemma zipM_strict_tab (F : A -> B -> option C) (n : nat)
    (f : nat -> A) (g : nat -> B) (h : nat -> C) :
  (forall i, (i < n)%nat -> F (f i) (g i) = Some (h i)) ->
  zipM_strict F (tab n f) (tab n g) = Some (tab n h).
Proof.
  intros H. unfold zipM_strict. rewrite zip_strict_tab. simpl.
  by apply mapM_tab.
Qed.

Lemma zipM_bc_tab (F : A -> B -> option C) (n : nat)
    (f : nat -> A) (g : nat -> B) (h : nat -> C) :
  (forall i, (i < n)%nat -> F (f i) (g i) = Some (h i)) ->
  zipM_bc F (tab n f) (tab n g) = Some (tab n h).
Proof.
  intros H. unfold zipM_bc. rewrite zip_bc_tab. simpl.
  by apply mapM_tab.
Qed.

End TabZipFacts.

Section TabZip2Facts.
Import Tensor.
Context {A B C : Type}.

(** Two nested axes at once, for an entrywise operation. *)
Lemma zipM_bc2_tab (F : A -> B -> C) (n1 n2 : nat)
    (f : nat -> nat -> A) (g : nat -> nat -> B) :
  zipM_bc (zipM_bc (fun a b => Some (F a b)))
          (tab n1 (fun i => tab n2 (f i))) (tab n1 (fun i => tab n2 (g i)))
  = Some (tab n1 (fun i => tab n2 (fun j => F (f i j) (g i j)))).
Proof.
  apply zipM_bc_tab. intros i _. by apply zipM_bc_tab.
Qed.

End TabZip2Facts.

Section TabZip3Facts.
Import Tensor.
Context {A B C : Type}.

Lemma zipM_bc3_tab (F : A -> B -> C) (n1 n2 n3 : nat)
    (f : nat -> nat -> nat -> A) (g : nat -> nat -> nat -> B) :
  zipM_bc (zipM_bc (zipM_bc (fun a b => Some (F a b))))
          (tab n1 (fun i => tab n2 (fun j => tab n3 (f i j))))
          (tab n1 (fun i => tab n2 (fun j => tab n3 (g i j))))
  = Some (tab n1 (fun i => tab n2 (fun j => tab n3 (fun l => F (f i j l) (g i j l))))).
Proof.
  apply zipM_bc_tab. intros i _. apply (zipM_bc2_tab F).
Qed.

End TabZip3Facts.

Section StackFacts.
Import Tensor.
Context {A : Type}.

(** Stacking [S k] tensors of one shape gathers, at every batch row and
    position, the entries of the sources in order. *)
Lemma stack_tab (k nb np : nat) (f : nat -> nat -> nat -> A) :
  stack (tab (S k) (fun j => tab nb (fun b => tab np (fun p => f j b p))))
  = Some (tab nb (fun b => tab np (fun p => tab (S k) (fun j => f j b p)))).
Proof.
  revert f. induction k as [|k IH]; intros f.
  - cbn [tab seq map stack]. f_equal. rewrite map_tab. apply tab_ext. intros b _.
    rewrite map_tab. done.
  - rewrite tab_S. cbn [stack].
    destruct (tab (S k) _) as [|t ts] eqn:E; [by rewrite tab_S in E|].
    rewrite <- E. rewrite (IH (fun j => f (S j))). cbn [mbind option_bind].
    apply zipM_strict_tab. intros b Hb.
    apply zipM_strict_tab. intros p Hp.
    by rewrite (tab_S (S k)).
Qed.

End StackFacts.

Section VsumFacts.
Import Tensor.
Context {V : Type} `{!VectorSpace V}.

Lemma vadd_zero_l (v : V) : vadd vzero v = v.
Proof. by rewrite vadd_comm, vadd_zero_r. Qed.

Lemma vsum_nil : vsum ([] : list V) = vzero.
Proof. reflexivity. Qed.

Lemma vsum_cons (v : V) (l : list V) : vsum (v :: l) = vadd v (vsum l).
Proof. reflexivity. Qed.

Lemma vsum_app (l1 l2 : list V) : vsum (l1 ++ l2) = vadd (vsum l1) (vsum l2).
Proof.
  induction l1 as [|v l1 IH]; simpl.
  - by rewrite vadd_zero_l.
  - fold (vsum (l1 ++ l2)) (vsum l1). by rewrite IH, vadd_assoc.
Qed.

Lemma vsum_snoc (l : list V) (v : V) : vsum (l ++ [v]) = vadd (vsum l) v.
Proof. rewrite vsum_app. simpl. by rewrite vadd_zero_r. Qed.

Lemma vsum_zero (l : list V) : Forall (fun v => v = vzero) l -> vsum l = vzero.
Proof.
  induction 1 as [|v l -> _ IH]; [done|].
  rewrite vsum_cons, IH. apply vadd_zero_r.
Qed.

(** Sum of entrywise sums. *)
Lemma vsum_tab_vadd (n : nat) (f g : nat -> V) :
  vsum (tab n (fun i => vadd (f i) (g i))) = vadd (vsum (tab n f)) (vsum (tab n g)).
Proof.
  induction n as [|n IH]; [simpl; by rewrite vadd_zero_r|].
  rewrite !tab_snoc, !vsum_snoc, IH.
  rewrite <- !vadd_assoc. f_equal.
  rewrite !vadd_assoc. f_equal. apply vadd_comm.
Qed.

(** A one-hot weighting selects one entry. *)
Lemma vsum_one_hot (n k : nat) (f : nat -> V) :
  (k < n)%nat ->
  vsum (tab n (fun i => vscale (if decide (i = k) then 1 else 0) (f i))) = f k.
Proof.
  revert k f. induction n as [|n IH]; intros k f Hk; [lia|].
  rewrite tab_S, vsum_cons. destruct k as [|k].
  - rewrite decide_True by done. rewrite vscale_one.
    rewrite vsum_zero; [apply vadd_zero_r|].
    apply Forall_forall. intros v Hv. apply list_elem_of_In, in_map_iff in Hv as (i & <- & _).
    rewrite decide_False by done. apply vscale_zero.
  - rewrite decide_False by done. rewrite vscale_zero, vadd_zero_l.
    rewrite <- (IH k (fun i => f (S i))) by lia.
    f_equal. apply tab_ext. intros i _.
    destruct (decide (i = k)); [rewrite decide_True by lia | rewrite decide_False by lia]; done.
Qed.

End VsumFacts.

(** ** Entries of the reconstruction *)

Section EntryFacts.
Import Scalar Tensor Pruner Shapes.
Context {V : Type} `{!VectorSpace V}.

(** The two branches of the modal substitution split at the threshold:
    exactly one indicator is one, and the value is [(1-g) * m] on either
    side. *)
Lemma modal_term_value (g : R) (m : V) : modal_term g m = vscale (1 - g) m.
Proof.
  unfold modal_term, lt_ind, ge_ind.
  destruct (Rlt_dec g 0.001) as [Hlt|Hge], (Rge_dec g 0.001) as [Hge'|Hlt']; try lra.
  - rewrite Rmult_0_l, vscale_zero, vadd_zero_r. f_equal. lra.
  - rewrite Rmult_0_l, vscale_zero, vadd_zero_l. f_equal. lra.
Qed.

Lemma weighted_sum_tab (n : nat) (g : nat -> R) (c : nat -> V) :
  weighted_sum (tab n g) (tab n c) = Some (vsum (tab n (fun j => vscale (g j) (c j)))).
Proof. unfold weighted_sum. rewrite zip_bc_tab. simpl. by rewrite map_tab. Qed.

Lemma modal_sum_tab (n : nat) (g : nat -> R) (m : nat -> V) :
  modal_sum (tab n g) (tab n m) = Some (vsum (tab n (fun j => modal_term (g j) (m j)))).
Proof. unfold modal_sum. rewrite zip_bc_tab. simpl. by rewrite map_tab. Qed.

Lemma attn_entry_tab_compressed (na nh : nat) (g : nat -> nat -> R)
    (c m : nat -> nat -> V) (w : nat -> nat -> V -> V) :
  attn_entry true (tab na (fun l => tab nh (m l))) (tab na (fun l => tab nh (w l)))
             (tab na (fun l => tab nh (g l))) (tab na (fun l => tab nh (c l)))
  = Some (attn_part na nh w g c m).
Proof.
  unfold attn_entry.
  rewrite (zipM_bc2_tab vscale). cbn [mbind option_bind].
  rewrite (zipM_bc2_tab modal_term). cbn [mbind option_bind].
  rewrite (zipM_bc2_tab vadd). cbn [mbind option_bind].
  rewrite (zipM_bc2_tab (fun x (f : V -> V) => f x)). cbn [mbind option_bind].
  by rewrite map_tab.
Qed.

Lemma attn_entry_tab_plain (na nh : nat) (g : nat -> nat -> R)
    (c m : nat -> nat -> V) (w_o : list (list (V -> V))) :
  attn_entry false (tab na (fun l => tab nh (m l))) w_o
             (tab na (fun l => tab nh (g l))) (tab na (fun l => tab nh (c l)))
  = Some (attn_part na nh (fun _ _ x => x) g c m).
Proof.
  unfold attn_entry.
  rewrite (zipM_bc2_tab vscale). cbn [mbind option_bind].
  rewrite (zipM_bc2_tab modal_term). cbn [mbind option_bind].
  rewrite (zipM_bc2_tab vadd). cbn [mbind option_bind].
  by rewrite map_tab.
Qed.

End EntryFacts.

(** ** The MLP-input hook on a well-shaped state *)

Section PrependFacts.
Import Tensor Pruner.
Context {V : Type} `{!VectorSpace V} {A : Type}.

(** Outside parallel mode a returned tensor has the rows of the incoming
    one, and position 0 of every row is the incoming entry. *)
Lemma prepend_orig_first_position (cell_shape : A -> list nat) (self : EdgePruner V)
    (orig_in out ret : list (list A)) :
  parallel_inference self = false ->
  prepend_orig cell_shape self orig_in out = Some ret ->
  map head ret = map head orig_in.
Proof.
  intros Hpar. unfold prepend_orig. rewrite Hpar. unfold zipM_strict, zip_strict.
  case_decide as Hlen; [|done]. simpl. intros Hm.
  apply mapM_Some_1 in Hm. revert out Hlen ret Hm.
  induction orig_in as [|row orig_in IH]; intros [|orow out] Hlen ret Hm;
    simpl in *; try discriminate.
  - by inversion Hm.
  - inversion Hm as [|? r ? ret' Hr Hrest]; subst. simpl.
    f_equal; [|apply (IH out); [lia | done]].
    simpl in Hr. destruct row as [|first row]; [done|]. simpl in Hr.
    destruct (head (drop 1 orow)); [case_decide; [|done]|]; by inversion Hr.
Qed.

(** In parallel mode the returned tensor starts with the first
    [batch_size] incoming rows and goes on with the reconstructed rows. *)
Lemma prepend_orig_parallel (cell_shape : A -> list nat) (self : EdgePruner V)
    (orig_in out ret : list (list A)) :
  parallel_inference self = true ->
  prepend_orig cell_shape self orig_in out = Some ret ->
  ret = take (batch_size self) orig_in ++ out.
Proof.
  intros Hpar. unfold prepend_orig. rewrite Hpar.
  destruct (head (take _ orig_in)), (head out); try case_decide; congruence.
Qed.

Lemma prepend_orig_tab (cell_shape : A -> list nat) (self : EdgePruner V)
    (nb np : nat) (x o : nat -> nat -> A) :
  parallel_inference self = false ->
  (forall b p, (b < nb)%nat -> cell_shape (x b 0%nat) = cell_shape (o b p)) ->
  prepend_orig cell_shape self (tab nb (fun b => tab (S np) (x b)))
                               (tab nb (fun b => tab (S np) (o b)))
  = Some (tab nb (fun b => tab (S np)
            (fun p => match p with O => x b 0%nat | S _ => o b p end))).
Proof.
  intros Hpar Hshape. unfold prepend_orig. rewrite Hpar.
  apply zipM_strict_tab. intros b Hb.
  rewrite head_tab. cbn [mbind option_bind]. rewrite drop_1_tab.
  rewrite (tab_S np (fun p => match p with O => _ | S _ => _ end)).
  destruct np as [|np]; [done|].
  rewrite head_tab, decide_True by (by apply Hshape). done.
Qed.

End PrependFacts.

Section MlpHookFacts.
Import Scalar Tensor Pruner Shapes.
Context {V : Type} `{!VectorSpace V}.

Variable self : EdgePruner V.
Variables layer_no nb np nh k a : nat.
Variable gm : nat -> nat -> R.
Variable ga : nat -> nat -> nat -> R.
Variable mc : nat -> nat -> nat -> V.
Variable ac : nat -> nat -> nat -> nat -> V.
Variable mm : nat -> V.
Variable ma : nat -> nat -> V.
Variable w : nat -> nat -> V -> V.
Hypothesis Hstate : mlp_hook_state self layer_no nb np nh k a gm ga mc ac mm ma w.

Lemma mlp_mlp_sources_tab :
  mlp_mlp_sources self layer_no (tab nb (fun b => tab (S k) (fun j => gm b j)))
  = Some (tab nb (fun b => tab np (fun p =>
      let mlp := mlp_part k (gm b) (fun j => mc j b p) in
      if ablation_backward self then mlp
      else vadd mlp (mlp_modal_part k (gm b) mm)))).
Proof using Hstate.
  unfold mlp_mlp_sources. rewrite (ms_mlp_cache _ _ _ _ _ _ _ _ _ _ _ _ _ _ Hstate).
  rewrite stack_tab. cbn [mbind option_bind].
  rewrite (zipM_bc_tab _ nb _ _
             (fun b => tab np (fun p => mlp_part k (gm b) (fun j => mc j b p)))).
  2:{ intros b _. apply mapM_tab. intros p _. apply weighted_sum_tab. }
  cbn [mbind option_bind].
  destruct (ablation_backward self); [done|].
  rewrite (ms_modal_mlp _ _ _ _ _ _ _ _ _ _ _ _ _ _ Hstate).
  rewrite (mapM_tab _ nb _ (fun b => mlp_modal_part k (gm b) mm))
    by (intros b _; apply modal_sum_tab).
  cbn [mbind option_bind].
  apply zipM_bc_tab. intros b _. by rewrite map_tab.
Qed.

Lemma mlp_attn_sources_tab (out : nat -> nat -> V) :
  mlp_attn_sources self layer_no
    (tab nb (fun b => tab (S a) (fun l => tab nh (fun h => ga b l h))))
    (tab nb (fun b => tab np (out b)))
  = Some (tab nb (fun b => tab np (fun p =>
      vadd (vadd (out b p)
                 (attn_part (S a) nh (source_map self w) (ga b)
                            (fun l h => ac l b p h) ma))
           (vsum (take ((layer_no + 1) `min` n_layers self) (post_bias self)))))).
Proof using Hstate.
  unfold mlp_attn_sources.
  rewrite (ms_attention_cache _ _ _ _ _ _ _ _ _ _ _ _ _ _ Hstate).
  rewrite stack_tab. cbn [mbind option_bind].
  rewrite (ms_modal_attention _ _ _ _ _ _ _ _ _ _ _ _ _ _ Hstate).
  rewrite (zipM_bc_tab _ nb _ _
             (fun b => tab np (fun p =>
                attn_part (S a) nh (source_map self w) (ga b)
                          (fun l h => ac l b p h) ma))).
  2:{ intros b _. apply mapM_tab. intros p _. unfold source_map.
      destruct (cache_compressed_attn self) eqn:Hc.
      - rewrite (ms_W_O _ _ _ _ _ _ _ _ _ _ _ _ _ _ Hstate Hc).
        apply (attn_entry_tab_compressed (S a) nh (ga b) (fun l h => ac l b p h) ma w).
      - apply (attn_entry_tab_plain (S a) nh (ga b) (fun l h => ac l b p h) ma). }
  cbn [mbind option_bind]. unfold tadd2.
  rewrite (zipM_bc2_tab vadd). cbn [mbind option_bind].
  rewrite map_tab. f_equal. apply tab_ext. intros b _. by rewrite map_tab.
Qed.

(** The tensor handed to [prepend_orig]. *)
Lemma mlp_hook_before_prepend (md : V) (orig_in : list (list V)) :
  (ablation_backward self = true -> modal_mlp self !! layer_no = Some md) ->
  pruning_edge_mlp_hook_all_tokens self layer_no orig_in
  = match prepend_orig (fun _ : V => []) self orig_in
            (tab nb (fun b => tab np
               (mlp_hook_entry self layer_no nb np nh k a gm ga mc ac mm ma w md b))) with
    | None => ([], Raised RuntimeError)
    | Some r => ([], Returned r)
    end.
Proof using Hstate.
  intros Hmd. unfold pruning_edge_mlp_hook_all_tokens.
  rewrite (ms_enabled _ _ _ _ _ _ _ _ _ _ _ _ _ _ Hstate),
          (ms_pruning _ _ _ _ _ _ _ _ _ _ _ _ _ _ Hstate).
  cbn [orb].
  rewrite (ms_mlp_mask _ _ _ _ _ _ _ _ _ _ _ _ _ _ Hstate).
  rewrite mlp_mlp_sources_tab.
  rewrite (ms_attn_mask _ _ _ _ _ _ _ _ _ _ _ _ _ _ Hstate).
  rewrite mlp_attn_sources_tab.
  unfold after_try, mlp_hook_entry, mlp_try_entry.
  destruct (ablation_backward self); [|done].
  rewrite (Hmd eq_refl).
  erewrite (mapM_tab _ nb); [done|].
  intros b _. by apply mapM_tab.
Qed.

End MlpHookFacts.

(** ** The attention-input hook on a well-shaped state *)

Section AttnHookFacts.
Import Scalar Tensor Pruner Shapes.
Context {V : Type} `{!VectorSpace V}.

Variable self : EdgePruner V.
Variables layer_no circ_idx nb np nh nhs k a : nat.
Variable gm : nat -> nat -> nat -> R.
Variable ga : nat -> nat -> nat -> nat -> R.
Variable mc : nat -> nat -> nat -> V.
Variable ac : nat -> nat -> nat -> nat -> V.
Variable mm : nat -> V.
Variable ma : nat -> nat -> V.
Variable w : nat -> nat -> V -> V.
Hypothesis Hmlp : attn_hook_state self layer_no circ_idx nb np nh k gm mc mm.

Lemma attention_mlp_sources_tab :
  attention_mlp_sources self layer_no
    (tab nb (fun b => tab nh (fun h => tab (S k) (fun j => gm b h j))))
  = Some (tab nb (fun b => tab np (fun p => tab nh (fun h =>
            attn_mlp_entry self k gm mc mm b p h)))).
Proof using Hmlp.
  unfold attention_mlp_sources. rewrite (as_mlp_cache _ _ _ _ _ _ _ _ _ _ Hmlp).
  rewrite stack_tab. cbn [mbind option_bind].
  rewrite (zipM_bc_tab _ nb _ _
             (fun b => tab np (fun p => tab nh (fun h =>
                mlp_part k (gm b h) (fun j => mc j b p))))).
  2:{ intros b _. apply mapM_tab. intros p _. apply mapM_tab. intros h _.
      apply weighted_sum_tab. }
  cbn [mbind option_bind]. unfold attn_mlp_entry.
  destruct (ablation_backward self); [done|].
  rewrite (as_modal_mlp _ _ _ _ _ _ _ _ _ _ Hmlp).
  rewrite (mapM_tab _ nb _ (fun b => tab nh (fun h => mlp_modal_part k (gm b h) mm))).
  2:{ intros b _. apply mapM_tab. intros h _. apply modal_sum_tab. }
  cbn [mbind option_bind].
  apply zipM_bc_tab. intros b _. apply mapM_tab. intros p _.
  by apply zipM_bc_tab.
Qed.

Hypothesis Hattn :
  attn_hook_attn_state self layer_no circ_idx nb np nh nhs a ga ac ma w.

Lemma attention_attn_sources_tab (out : nat -> nat -> nat -> V) :
  attention_attn_sources self layer_no
    (tab nb (fun b => tab nh (fun h =>
       tab (S a) (fun l => tab nhs (fun hs => ga b h l hs)))))
    (tab nb (fun b => tab np (fun p => tab nh (out b p))))
  = Some (tab nb (fun b => tab np (fun p => tab nh (fun h =>
      vadd (vadd (out b p h)
                 (attn_part (S a) nhs (source_map self w) (ga b h)
                            (fun l hs => ac l b p hs) ma))
           (vsum (take layer_no (post_bias self))))))).
Proof using Hattn.
  unfold attention_attn_sources.
  rewrite (as_attention_cache _ _ _ _ _ _ _ _ _ _ _ _ Hattn).
  rewrite stack_tab. cbn [mbind option_bind].
  rewrite (as_modal_attention _ _ _ _ _ _ _ _ _ _ _ _ Hattn).
  rewrite (zipM_bc_tab _ nb _ _
             (fun b => tab np (fun p => tab nh (fun h =>
                attn_part (S a) nhs (source_map self w) (ga b h)
                          (fun l hs => ac l b p hs) ma)))).
  2:{ intros b _. apply mapM_tab. intros p _. apply mapM_tab. intros h _.
      unfold source_map. destruct (cache_compressed_attn self) eqn:Hc.
      - rewrite (as_W_O _ _ _ _ _ _ _ _ _ _ _ _ Hattn Hc).
        apply (attn_entry_tab_compressed (S a) nhs (ga b h) (fun l hs => ac l b p hs) ma w).
      - apply (attn_entry_tab_plain (S a) nhs (ga b h) (fun l hs => ac l b p hs) ma). }
  cbn [mbind option_bind]. unfold tadd3.
  rewrite (zipM_bc3_tab vadd). cbn [mbind option_bind].
  rewrite map_tab. f_equal. apply tab_ext. intros b _.
  rewrite map_tab. apply tab_ext. intros p _. by rewrite map_tab.
Qed.

(** The tensor handed to [prepend_orig] for a layer after the first. *)
Lemma attention_hook_before_prepend (md : nat -> V) (orig_in : list (list (list V))) :
  layer_no <> 0%nat ->
  (ablation_backward self = true ->
   modal_attention self !! layer_no = Some (tab nh md)) ->
  pruning_edge_attention_hook_all_tokens self layer_no circ_idx orig_in
  = match prepend_orig shape1 self orig_in
            (tab nb (fun b => tab np (fun p => tab nh (fun h =>
               attn_hook_entry self layer_no nhs k a gm ga mc ac mm ma w md b p h)))) with
    | None => ([], Raised RuntimeError)
    | Some r => ([], Returned r)
    end.
Proof using Hmlp Hattn.
  intros Hl Hmd. unfold pruning_edge_attention_hook_all_tokens.
  rewrite (as_enabled _ _ _ _ _ _ _ _ _ _ Hmlp).
  rewrite (as_mlp_mask _ _ _ _ _ _ _ _ _ _ Hmlp).
  rewrite attention_mlp_sources_tab.
  rewrite decide_False by done.
  rewrite (as_attn_mask _ _ _ _ _ _ _ _ _ _ _ _ Hattn).
  rewrite attention_attn_sources_tab.
  unfold after_try, attn_hook_entry, attn_try_entry.
  destruct (ablation_backward self); [|done].
  rewrite (Hmd eq_refl).
  erewrite (mapM_tab _ nb); [done|].
  intros b _. apply mapM_tab. intros p _. by apply zipM_bc_tab.
Qed.

End AttnHookFacts.

Section AttnHookFirstLayer.
Import Scalar Tensor Pruner Shapes.
Context {V : Type} `{!VectorSpace V}.

(** The first layer has no attention sources: the hook returns from inside
    the [try] block, and a failure of [prepend_orig] there reaches the
    handler with [attn_mask] unassigned. *)
Lemma attention_hook_first_layer (self : EdgePruner V) (circ_idx nb np nh k : nat)
    (gm : nat -> nat -> nat -> R) (mc : nat -> nat -> nat -> V) (mm : nat -> V)
    (orig_in : list (list (list V))) :
  attn_hook_state self 0 circ_idx nb np nh k gm mc mm ->
  pruning_edge_attention_hook_all_tokens self 0 circ_idx orig_in
  = match prepend_orig shape1 self orig_in
            (tab nb (fun b => tab np (fun p => tab nh (fun h =>
               attn_mlp_entry self k gm mc mm b p h)))) with
    | None =>
        attention_handler self orig_in
          (Some (tab nb (fun b => tab nh (fun h => tab (S k) (fun j => gm b h j)))))
          None RuntimeError
    | Some r => ([], Returned r)
    end.
Proof.
  intros Hmlp. unfold pruning_edge_attention_hook_all_tokens.
  rewrite (as_enabled _ _ _ _ _ _ _ _ _ _ Hmlp).
  rewrite (as_mlp_mask _ _ _ _ _ _ _ _ _ _ Hmlp).
  rewrite (attention_mlp_sources_tab self 0 circ_idx nb np nh k gm mc mm Hmlp).
  done.
Qed.

End AttnHookFirstLayer.

(** ** Position 0 of the returned tensor *)

Section FrameFacts.
Import Scalar Tensor Pruner Shapes.
Context {V : Type} `{!VectorSpace V}.

Lemma attention_handler_raises (self : EdgePruner V) orig_in mlp_mask attn_mask e p ret :
  attention_handler self orig_in mlp_mask attn_mask e = (p, Returned ret) -> False.
Proof. unfold attention_handler. by destruct mlp_mask, attn_mask. Qed.

Lemma mlp_handler_raises (orig_in : list (list V)) mlp_mask attn_mask e p ret :
  mlp_handler orig_in mlp_mask attn_mask e = (p, Returned ret) -> False.
Proof. unfold mlp_handler. by destruct mlp_mask, attn_mask. Qed.

(** A tensor returned after the [try] statement comes from
    [prepend_orig]. *)
Lemma after_try_returned {A M : Type} (cell_shape : A -> list nat)
    (add : A -> M -> option A) (self : EdgePruner V) (modal : list M)
    (layer_no : nat) (orig_in out : list (list A)) p ret :
  after_try cell_shape add self modal layer_no orig_in out = (p, Returned ret) ->
  exists out', prepend_orig cell_shape self orig_in out' = Some ret.
Proof.
  unfold after_try.
  destruct (ablation_backward self).
  - destruct (modal !! layer_no) as [m|]; [|done].
    destruct (mapM _ out) as [out'|]; [|done].
    destruct (prepend_orig _ _ _ out') eqn:E; [|done].
    intros [= _ <-]. eauto.
  - destruct (prepend_orig _ _ _ out) eqn:E; [|done].
    intros [= _ <-]. eauto.
Qed.

(** A tensor returned by the attention hook is the incoming tensor or
    comes from [prepend_orig]. *)
Lemma attention_hook_returned (self : EdgePruner V) (layer_no circ_idx : nat)
    (orig_in : list (list (list V))) p ret :
  pruning_edge_attention_hook_all_tokens self layer_no circ_idx orig_in
  = (p, Returned ret) ->
  (disable_hooks self = true /\ ret = orig_in) \/
  (disable_hooks self = false /\
   exists out, prepend_orig shape1 self orig_in out = Some ret).
Proof.
  unfold pruning_edge_attention_hook_all_tokens.
  destruct (disable_hooks self); [intros [= _ <-]; by left|].
  intros H. right. split; [done|]. revert H.
  destruct (select_circuit _ _ _) as [mlp_mask|];
    [|by intros ?%attention_handler_raises].
  destruct (attention_mlp_sources _ _ _) as [out|];
    [|by intros ?%attention_handler_raises].
  case_decide.
  - destruct (prepend_orig _ _ _ out) eqn:E; [|by intros ?%attention_handler_raises].
    intros [= _ <-]. eauto.
  - destruct (select_circuit _ _ _) as [attn_mask|];
      [|by intros ?%attention_handler_raises].
    destruct (attention_attn_sources _ _ _ _) as [out'|];
      [|by intros ?%attention_handler_raises].
    apply after_try_returned.
Qed.

Lemma mlp_hook_returned (self : EdgePruner V) (layer_no : nat)
    (orig_in : list (list V)) p ret :
  pruning_edge_mlp_hook_all_tokens self layer_no orig_in = (p, Returned ret) ->
  (disable_hooks self || disable_pruning_hooks self = true /\ ret = orig_in) \/
  (disable_hooks self || disable_pruning_hooks self = false /\
   exists out, prepend_orig (fun _ : V => []) self orig_in out = Some ret).
Proof.
  unfold pruning_edge_mlp_hook_all_tokens.
  destruct (disable_hooks self || disable_pruning_hooks self);
    [intros [= _ <-]; by left|].
  intros H. right. split; [done|]. revert H.
  destruct (mlp_mlp _ !! _) as [mlp_mask|]; [|by intros ?%mlp_handler_raises].
  destruct (mlp_mlp_sources _ _ _) as [out|]; [|by intros ?%mlp_handler_raises].
  destruct (attn_mlp _ !! _) as [attn_mask|]; [|by intros ?%mlp_handler_raises].
  destruct (mlp_attn_sources _ _ _ _) as [out'|]; [|by intros ?%mlp_handler_raises].
  apply after_try_returned.
Qed.

(** What the hooks do with position 0.  In the sequential mode
    ([parallel_inference] off), whenever the attention-input hook or the
    MLP-input hook returns, for every mask, position 0 of every returned
    row is position 0 of the incoming row, as the comment in
    [prepend_orig] asks.  The final hook returns the latched value of the
    MLP-input hook of layer [n_layers].  In parallel inference the other
    branch of [prepend_orig] is taken: an enabled hook returns the first
    [batch_size] incoming rows followed by the reconstructed rows, on
    which nothing is restored. *)
Theorem hooks_keep_first_position (self : EdgePruner V) :
  (forall layer_no circ_idx orig_in p ret,
     parallel_inference self = false ->
     pruning_edge_attention_hook_all_tokens self layer_no circ_idx orig_in
     = (p, Returned ret) ->
     map head ret = map head orig_in) /\
  (forall layer_no orig_in p ret,
     parallel_inference self = false ->
     pruning_edge_mlp_hook_all_tokens self layer_no orig_in = (p, Returned ret) ->
     map head ret = map head orig_in) /\
  (forall orig_in p out,
     pruning_edge_final_hook_all_tokens self orig_in = (p, Returned out) ->
     exists ret groups,
       pruning_edge_mlp_hook_all_tokens self (n_layers self) orig_in
       = (p, Returned ret) /\
       (if disable_hooks self then Some [ret] else unflatten (batch_size self) ret)
       = Some groups /\
       mapM (latch (last_token_mask self)) groups = Some out) /\
  (forall layer_no circ_idx orig_in p ret,
     parallel_inference self = true -> disable_hooks self = false ->
     pruning_edge_attention_hook_all_tokens self layer_no circ_idx orig_in
     = (p, Returned ret) ->
     exists out, ret = take (batch_size self) orig_in ++ out) /\
  (forall layer_no orig_in p ret,
     parallel_inference self = true ->
     disable_hooks self || disable_pruning_hooks self = false ->
     pruning_edge_mlp_hook_all_tokens self layer_no orig_in = (p, Returned ret) ->
     exists out, ret = take (batch_size self) orig_in ++ out).
Proof.
  split; [|split; [|split; [|split]]].
  - intros layer_no circ_idx orig_in p ret Hpar H.
    apply attention_hook_returned in H as [[_ ->] | [_ [out H]]]; [done|].
    by eapply prepend_orig_first_position.
  - intros layer_no orig_in p ret Hpar H.
    apply mlp_hook_returned in H as [[_ ->] | [_ [out H]]]; [done|].
    by eapply prepend_orig_first_position.
  - intros orig_in p out. unfold pruning_edge_final_hook_all_tokens.
    destruct (pruning_edge_mlp_hook_all_tokens _ _ _) as [p' [ret|e]]; [|done].
    destruct (if disable_hooks self then _ else _) as [groups|] eqn:G; [|done].
    simpl. destruct (mapM _ groups) as [o|] eqn:L; [|done].
    intros [= <- <-]. by exists ret, groups.
  - intros layer_no circ_idx orig_in p ret Hpar Hen H.
    apply attention_hook_returned in H as [[? _] | [_ [out H]]]; [congruence|].
    exists out. by eapply prepend_orig_parallel.
  - intros layer_no orig_in p ret Hpar Hen H.
    apply mlp_hook_returned in H as [[? _] | [_ [out H]]]; [congruence|].
    exists out. by eapply prepend_orig_parallel.
Qed.

End FrameFacts.

(** ** The threshold-free form of the reconstruction *)

Section BlendFacts.
Import Scalar Tensor Pruner Shapes.
Context {V : Type} `{!VectorSpace V}.

Lemma term_blend (g : R) (c m : V) :
  vadd (vscale g c) (modal_term g m) = blend g c m.
Proof. unfold blend. by rewrite modal_term_value. Qed.

Lemma blend_one (c m : V) : blend 1 c m = c.
Proof.
  unfold blend. rewrite vscale_one.
  replace (1 - 1) with 0 by lra. by rewrite vscale_zero, vadd_zero_r.
Qed.

Lemma blend_zero (c m : V) : blend 0 c m = m.
Proof.
  unfold blend. rewrite vscale_zero.
  replace (1 - 0) with 1 by lra. by rewrite vscale_one, vadd_zero_l.
Qed.

Lemma mlp_parts_blend (k : nat) (g : nat -> R) (c m : nat -> V) :
  vadd (mlp_part k g c) (mlp_modal_part k g m)
  = vsum (tab (S k) (fun j => blend (g j) (c j) (m j))).
Proof.
  unfold mlp_part, mlp_modal_part. rewrite <- vsum_tab_vadd.
  f_equal. apply tab_ext. intros j _. apply term_blend.
Qed.

Lemma attn_part_blend (na nh : nat) (f : nat -> nat -> V -> V)
    (g : nat -> nat -> R) (c m : nat -> nat -> V) :
  attn_part na nh f g c m = attn_blend na nh f g c m.
Proof.
  unfold attn_part, attn_blend. f_equal. apply tab_ext. intros l _.
  f_equal. apply tab_ext. intros h _. by rewrite term_blend.
Qed.

Lemma mlp_hook_entry_blend (self : EdgePruner V) layer_no nb np nh k a
    gm ga mc ac mm ma w md b p :
  ablation_backward self = false ->
  mlp_hook_entry self layer_no nb np nh k a gm ga mc ac mm ma w md b p
  = mlp_blend_entry self layer_no nh k a gm ga mc ac mm ma w b p.
Proof.
  intros Hab. unfold mlp_hook_entry, mlp_try_entry, mlp_blend_entry.
  rewrite Hab. by rewrite mlp_parts_blend, attn_part_blend.
Qed.

Lemma attn_mlp_entry_blend (self : EdgePruner V) k gm mc mm b p h :
  ablation_backward self = false ->
  attn_mlp_entry self k gm mc mm b p h
  = vsum (tab (S k) (fun j => blend (gm b h j) (mc j b p) (mm j))).
Proof. intros Hab. unfold attn_mlp_entry. rewrite Hab. apply mlp_parts_blend. Qed.

Lemma attn_hook_entry_blend (self : EdgePruner V) layer_no nhs k a
    gm ga mc ac mm ma w md b p h :
  ablation_backward self = false ->
  attn_hook_entry self layer_no nhs k a gm ga mc ac mm ma w md b p h
  = attn_blend_entry self layer_no nhs k a gm ga mc ac mm ma w b p h.
Proof.
  intros Hab. unfold attn_hook_entry, attn_try_entry, attn_blend_entry.
  rewrite Hab. by rewrite attn_mlp_entry_blend, attn_part_blend.
Qed.

(** With every gate at one the mixtures are the cached outputs: the entry
    is the residual stream. *)
Lemma mlp_blend_entry_ones (self : EdgePruner V) layer_no nh k a mc ac mm ma w b p :
  mlp_blend_entry self layer_no nh k a (fun _ _ => 1) (fun _ _ _ => 1)
                  mc ac mm ma w b p
  = residual self ((layer_no + 1) `min` n_layers self) nh k a mc ac w b p.
Proof.
  unfold mlp_blend_entry, residual, attn_blend. f_equal. f_equal.
  - f_equal. apply tab_ext. intros j _. apply blend_one.
  - f_equal. apply tab_ext. intros l _. f_equal. apply tab_ext. intros h _.
    by rewrite blend_one.
Qed.

Lemma attn_blend_entry_ones (self : EdgePruner V) layer_no nhs k a mc ac mm ma w b p h :
  attn_blend_entry self layer_no nhs k a (fun _ _ _ => 1) (fun _ _ _ _ => 1)
                   mc ac mm ma w b p h
  = residual self layer_no nhs k a mc ac w b p.
Proof.
  unfold attn_blend_entry, residual, attn_blend. f_equal. f_equal.
  - f_equal. apply tab_ext. intros j _. apply blend_one.
  - f_equal. apply tab_ext. intros l _. f_equal. apply tab_ext. intros hs _.
    by rewrite blend_one.
Qed.

(** With every gate at zero the cached outputs drop out of the entry. *)
Lemma mlp_hook_entry_zeros (self : EdgePruner V) layer_no nb np nh k a
    mc ac mm ma w md b p mc' ac' b' p' :
  mlp_hook_entry self layer_no nb np nh k a (fun _ _ => 0) (fun _ _ _ => 0)
                 mc ac mm ma w md b p
  = mlp_hook_entry self layer_no nb np nh k a (fun _ _ => 0) (fun _ _ _ => 0)
                   mc' ac' mm ma w md b' p'.
Proof.
  unfold mlp_hook_entry, mlp_try_entry, mlp_part, attn_part.
  assert (forall c : nat -> V,
            tab (S k) (fun j => vscale 0 (c j)) = tab (S k) (fun _ => vzero)) as Hz.
  { intros c. apply tab_ext. intros j _. apply vscale_zero. }
  rewrite !Hz.
  assert (forall c : nat -> nat -> V,
            tab (S a) (fun l => vsum (tab nh (fun h =>
              source_map self w l h (vadd (vscale 0 (c l h)) (modal_term 0 (ma l h))))))
            = tab (S a) (fun l => vsum (tab nh (fun h =>
              source_map self w l h (modal_term 0 (ma l h)))))) as Ha.
  { intros c. apply tab_ext. intros l _. f_equal. apply tab_ext. intros h _.
    by rewrite vscale_zero, vadd_zero_l. }
  by rewrite !Ha.
Qed.

End BlendFacts.

(** ** The values returned on a well-shaped state *)

Section ChunkFacts.
Import Tensor.
Context {A : Type}.

Lemma drop_tab (k n : nat) (f : nat -> A) :
  drop k (tab n f) = tab (n - k) (fun i => f (k + i)%nat).
Proof.
  unfold tab. rewrite <- fmap_drop, drop_seq. simpl.
  rewrite <- (map_map (fun i => (k + i)%nat) f). f_equal.
  pose proof (fmap_add_seq k 0 (n - k)) as E. rewrite Nat.add_0_r in E.
  symmetry. exact E.
Qed.

Lemma chunks_tab (n m fuel : nat) (f : nat -> A) :
  n <> 0%nat -> (m <= fuel)%nat ->
  chunks fuel n (tab (m * n) f) = tab m (fun s => tab n (fun b => f (s * n + b)%nat)).
Proof.
  intros Hn. revert fuel f. induction m as [|m IH]; intros fuel f Hm.
  - simpl. by destruct fuel.
  - destruct fuel as [|fuel]; [lia|]. cbn [chunks].
    destruct (tab (S m * n) f) as [|y l] eqn:E.
    { apply (f_equal length) in E. rewrite length_tab in E. simpl in E. destruct n; [done|lia]. }
    rewrite <- E. rewrite take_tab by lia. rewrite drop_tab.
    replace (S m * n - n)%nat with (m * n)%nat by lia.
    rewrite IH by lia. rewrite tab_S. f_equal.
    apply tab_ext. intros s _. apply tab_ext. intros b _. f_equal. lia.
Qed.

Lemma unflatten_tab (n m : nat) (f : nat -> A) :
  n <> 0%nat ->
  unflatten n (tab (m * n) f)
  = Some (tab m (fun s => tab n (fun b => f (s * n + b)%nat))).
Proof.
  intros Hn. unfold unflatten. rewrite length_tab.
  rewrite decide_True by (split; [done | by apply Nat.Div0.mod_mul]).
  f_equal. apply chunks_tab; [done|]. destruct n; [done|]. nia.
Qed.

End ChunkFacts.

Section LatchFacts.
Import Scalar Tensor Pruner Shapes.
Context {V : Type} `{!VectorSpace V}.

(** Under a one-hot mask the latch picks, in every row, the entry at the
    answer position. *)
Lemma latch_one_hot (nb np : nat) (pos : nat -> nat) (r : nat -> nat -> V) :
  (forall b, (b < nb)%nat -> (pos b < np)%nat) ->
  latch (one_hot_mask nb np pos) (tab nb (fun b => tab np (r b)))
  = Some (tab nb (fun b => r b (pos b))).
Proof.
  intros Hpos. unfold latch, one_hot_mask.
  apply zipM_bc_tab. intros b Hb. rewrite zip_bc_tab. cbn [mbind option_bind].
  rewrite map_tab. cbn [fst snd]. f_equal.
  by apply vsum_one_hot, Hpos.
Qed.

End LatchFacts.

Section HookValues.
Import Scalar Tensor Pruner Shapes.
Context {V : Type} `{!VectorSpace V}.

(** The MLP-input hook outside parallel mode: position 0 of a row is the
    incoming entry, a later position holds the reconstructed entry. *)
Lemma mlp_hook_tab (self : EdgePruner V) layer_no nb np nh k a
    gm ga mc ac mm ma w (md : V) (x : nat -> nat -> V) :
  mlp_hook_state self layer_no nb (S np) nh k a gm ga mc ac mm ma w ->
  parallel_inference self = false ->
  (ablation_backward self = true -> modal_mlp self !! layer_no = Some md) ->
  pruning_edge_mlp_hook_all_tokens self layer_no (tab nb (fun b => tab (S np) (x b)))
  = ([], Returned (tab nb (fun b => tab (S np) (fun p =>
       match p with
       | O => x b 0%nat
       | S _ => mlp_hook_entry self layer_no nb (S np) nh k a
                               gm ga mc ac mm ma w md b p
       end)))).
Proof.
  intros Hstate Hpar Hmd.
  rewrite (mlp_hook_before_prepend self layer_no nb (S np) nh k a
             gm ga mc ac mm ma w Hstate md _ Hmd).
  by rewrite prepend_orig_tab.
Qed.

(** The attention-input hook of a layer after the first. *)
Lemma attention_hook_tab (self : EdgePruner V) layer_no circ_idx nb np nh nhs k a
    gm ga mc ac mm ma w (md : nat -> V) (x : nat -> nat -> nat -> V) :
  attn_hook_state self layer_no circ_idx nb (S np) nh k gm mc mm ->
  attn_hook_attn_state self layer_no circ_idx nb (S np) nh nhs a ga ac ma w ->
  layer_no <> 0%nat ->
  parallel_inference self = false ->
  (ablation_backward self = true ->
   modal_attention self !! layer_no = Some (tab nh md)) ->
  pruning_edge_attention_hook_all_tokens self layer_no circ_idx
    (tab nb (fun b => tab (S np) (fun p => tab nh (x b p))))
  = ([], Returned (tab nb (fun b => tab (S np) (fun p =>
       match p with
       | O => tab nh (x b 0%nat)
       | S _ => tab nh (fun h =>
                  attn_hook_entry self layer_no nhs k a
                                  gm ga mc ac mm ma w md b p h)
       end)))).
Proof.
  intros Hmlp Hattn Hl Hpar Hmd.
  rewrite (attention_hook_before_prepend self layer_no circ_idx nb (S np) nh nhs k a
             gm ga mc ac mm ma w Hmlp Hattn md _ Hl Hmd).
  rewrite (prepend_orig_tab shape1 self nb np
             (fun b p => tab nh (x b p))
             (fun b p => tab nh (fun h =>
                attn_hook_entry self layer_no nhs k a gm ga mc ac mm ma w md b p h))
             Hpar).
  - done.
  - intros b p _. unfold shape1. by rewrite !length_tab.
Qed.

(** The attention-input hook of the first layer. *)
Lemma attention_hook_first_layer_tab (self : EdgePruner V) circ_idx nb np nh k
    gm mc mm (x : nat -> nat -> nat -> V) :
  attn_hook_state self 0 circ_idx nb (S np) nh k gm mc mm ->
  parallel_inference self = false ->
  pruning_edge_attention_hook_all_tokens self 0 circ_idx
    (tab nb (fun b => tab (S np) (fun p => tab nh (x b p))))
  = ([], Returned (tab nb (fun b => tab (S np) (fun p =>
       match p with
       | O => tab nh (x b 0%nat)
       | S _ => tab nh (fun h => attn_mlp_entry self k gm mc mm b p h)
       end)))).
Proof.
  intros Hmlp Hpar.
  rewrite (attention_hook_first_layer self circ_idx nb (S np) nh k gm mc mm _ Hmlp).
  rewrite (prepend_orig_tab shape1 self nb np
             (fun b p => tab nh (x b p))
             (fun b p => tab nh (fun h => attn_mlp_entry self k gm mc mm b p h))
             Hpar).
  - done.
  - intros b p _. unfold shape1. by rewrite !length_tab.
Qed.

(** The final hook with patching enabled, for [ns] groups of
    [batch_size] rows and a one-hot last-token mask: every output entry is
    the entry of the MLP-input hook of layer [n_layers] at the answer
    position of its row. *)
Lemma final_hook_tab (self : EdgePruner V) ns np nh k a
    gm ga mc ac mm ma w (md : V) (x : nat -> nat -> V) (pos : nat -> nat) :
  let nb := (ns * batch_size self)%nat in
  mlp_hook_state self (n_layers self) nb (S np) nh k a gm ga mc ac mm ma w ->
  parallel_inference self = false ->
  (ablation_backward self = true -> modal_mlp self !! n_layers self = Some md) ->
  batch_size self <> 0%nat ->
  last_token_mask self = one_hot_mask (batch_size self) (S np) pos ->
  (forall b, (b < batch_size self)%nat -> (pos b < S np)%nat) ->
  pruning_edge_final_hook_all_tokens self (tab nb (fun b => tab (S np) (x b)))
  = ([], Returned (tab ns (fun s => tab (batch_size self) (fun b =>
       match pos b with
       | O => x (s * batch_size self + b)%nat 0%nat
       | S _ => mlp_hook_entry self (n_layers self) nb (S np) nh k a
                               gm ga mc ac mm ma w md
                               (s * batch_size self + b)%nat (pos b)
       end)))).
Proof.
  intros nb Hstate Hpar Hmd Hbsz Hmask Hpos.
  unfold pruning_edge_final_hook_all_tokens.
  rewrite (mlp_hook_tab self (n_layers self) nb np nh k a
             gm ga mc ac mm ma w md x Hstate Hpar Hmd).
  rewrite (ms_enabled _ _ _ _ _ _ _ _ _ _ _ _ _ _ Hstate).
  unfold nb. rewrite unflatten_tab by done. cbn [mbind option_bind].
  rewrite Hmask.
  erewrite mapM_tab; [done|].
  intros s _. cbn beta. by rewrite latch_one_hot.
Qed.

End HookValues.

(** ** The example pruner is well shaped *)

Section ExampleStates.
Import Scalar Tensor Pruner Shapes.

Lemma mlp_state_example (g : R) (par abl : bool) (ltm : list (list R)) :
  mlp_hook_state (pruner_example par abl 2 2 ltm (mask_example g)) 1 1 2 1 1 1
    (fun _ _ => g) (fun _ _ _ => g)
    mc_example ac_example mm_example ma_example w_example.
Proof. constructor; first [reflexivity | intros _; reflexivity]. Qed.

Lemma final_state_example (g : R) (par abl : bool) (ltm : list (list R)) :
  mlp_hook_state (pruner_example par abl 2 3 ltm (mask_example g)) 2 (1 * 1) 2 1 2 1
    (fun _ _ => g) (fun _ _ _ => g)
    mc_example ac_example mm_example ma_example w_example.
Proof. constructor; first [reflexivity | intros _; reflexivity]. Qed.

Lemma attn_state_example (g : R) (par abl : bool) (ltm : list (list R)) (circ_idx : nat) :
  (circ_idx < 3)%nat ->
  attn_hook_state (pruner_example par abl 1 2 ltm (mask_example g)) 1 circ_idx 1 2 1 1
    (fun _ _ _ => g) mc_example mm_example /\
  attn_hook_attn_state (pruner_example par abl 1 2 ltm (mask_example g))
    1 circ_idx 1 2 1 1 0
    (fun _ _ _ _ => g) ac_example ma_example w_example.
Proof.
  intros Hc.
  destruct circ_idx as [|[|[|?]]]; [| | |lia];
    (split; constructor; first [reflexivity | intros _; reflexivity]).
Qed.

End ExampleStates.

(** Unfolds the entries of the example pruner down to real arithmetic. *)
Ltac eval_entries :=
  cbv [Shapes.mlp_hook_entry Shapes.mlp_try_entry Shapes.mlp_blend_entry
       Shapes.mlp_part Shapes.mlp_modal_part Shapes.attn_part Shapes.attn_blend
       Shapes.blend Shapes.source_map Shapes.residual
       Shapes.attn_hook_entry Shapes.attn_try_entry Shapes.attn_blend_entry
       Shapes.attn_mlp_entry
       Tensor.vsum Tensor.tab seq map foldr
       Tensor.vadd Tensor.vscale Tensor.vzero Tensor.real_vector_space
       pruner_example Pruner.ablation_backward Pruner.cache_compressed_attn
       Pruner.post_bias Pruner.n_layers
       mc_example ac_example mm_example ma_example w_example
       take Nat.min Nat.add Pruner.modal_term Scalar.lt_ind Scalar.ge_ind].

(** ** The detach threshold does not change values *)

Section ThresholdFacts.
Import Scalar Tensor Pruner Shapes.

(** C10, as the code has it.  The two branches of the modal substitution
    split at [g = 0.001] and the modal contribution of an edge is
    [(1-g) * v] on either side.  With [ablation_backward] off, in either
    inference mode, every entry of the tensor that a hook reconstructs and
    hands to [prepend_orig] is the sum over the MLP-side sources of
    [g * cached + (1-g) * modal], plus the sum over the attention sources of
    the same mixture (sent through the output projection when the cache is
    compressed), plus the summed attention output biases; the threshold
    does not occur in it.  Outside parallel inference the hook returns
    these entries at every position after the first. *)
Theorem modal_substitution_threshold_free
    (V : Type) (VS : VectorSpace V) (self : EdgePruner V) :
  (forall (g : R) (m : V), modal_term g m = vscale (1 - g) m) /\
  (forall layer_no nb np nh k a gm ga mc ac mm ma w (orig_in : list (list V)),
     mlp_hook_state self layer_no nb np nh k a gm ga mc ac mm ma w ->
     ablation_backward self = false ->
     pruning_edge_mlp_hook_all_tokens self layer_no orig_in
     = match prepend_orig (fun _ : V => []) self orig_in
               (tab nb (fun b => tab np
                  (mlp_blend_entry self layer_no nh k a gm ga mc ac mm ma w b))) with
       | None => ([], Raised RuntimeError)
       | Some r => ([], Returned r)
       end) /\
  (forall layer_no circ_idx nb np nh nhs k a gm ga mc ac mm ma w
          (orig_in : list (list (list V))),
     attn_hook_state self layer_no circ_idx nb np nh k gm mc mm ->
     attn_hook_attn_state self layer_no circ_idx nb np nh nhs a ga ac ma w ->
     layer_no <> 0%nat ->
     ablation_backward self = false ->
     pruning_edge_attention_hook_all_tokens self layer_no circ_idx orig_in
     = match prepend_orig shape1 self orig_in
               (tab nb (fun b => tab np (fun p => tab nh
                  (attn_blend_entry self layer_no nhs k a
                                    gm ga mc ac mm ma w b p)))) with
       | None => ([], Raised RuntimeError)
       | Some r => ([], Returned r)
       end) /\
  (forall circ_idx nb np nh k gm mc mm (orig_in : list (list (list V))),
     attn_hook_state self 0 circ_idx nb np nh k gm mc mm ->
     ablation_backward self = false ->
     pruning_edge_attention_hook_all_tokens self 0 circ_idx orig_in
     = match prepend_orig shape1 self orig_in
               (tab nb (fun b => tab np (fun p => tab nh (fun h =>
                  vsum (tab (S k) (fun j => blend (gm b h j) (mc j b p) (mm j))))))) with
       | None =>
           attention_handler self orig_in
             (Some (tab nb (fun b => tab nh (fun h => tab (S k) (fun j => gm b h j)))))
             None RuntimeError
       | Some r => ([], Returned r)
       end) /\
  (forall layer_no nb np nh k a gm ga mc ac mm ma w (x : nat -> nat -> V),
     mlp_hook_state self layer_no nb (S np) nh k a gm ga mc ac mm ma w ->
     parallel_inference self = false ->
     ablation_backward self = false ->
     pruning_edge_mlp_hook_all_tokens self layer_no
       (tab nb (fun b => tab (S np) (x b)))
     = ([], Returned (tab nb (fun b => tab (S np) (fun p =>
          match p with
          | O => x b 0%nat
          | S _ => mlp_blend_entry self layer_no nh k a gm ga mc ac mm ma w b p
          end))))) /\
  (forall layer_no circ_idx nb np nh nhs k a gm ga mc ac mm ma w
          (x : nat -> nat -> nat -> V),
     attn_hook_state self layer_no circ_idx nb (S np) nh k gm mc mm ->
     attn_hook_attn_state self layer_no circ_idx nb (S np) nh nhs a ga ac ma w ->
     layer_no <> 0%nat ->
     parallel_inference self = false ->
     ablation_backward self = false ->
     pruning_edge_attention_hook_all_tokens self layer_no circ_idx
       (tab nb (fun b => tab (S np) (fun p => tab nh (x b p))))
     = ([], Returned (tab nb (fun b => tab (S np) (fun p =>
          match p with
          | O => tab nh (x b 0%nat)
          | S _ => tab nh (fun h =>
                     attn_blend_entry self layer_no nhs k a
                                      gm ga mc ac mm ma w b p h)
          end))))) /\
  (forall circ_idx nb np nh k gm mc mm (x : nat -> nat -> nat -> V),
     attn_hook_state self 0 circ_idx nb (S np) nh k gm mc mm ->
     parallel_inference self = false ->
     ablation_backward self = false ->
     pruning_edge_attention_hook_all_tokens self 0 circ_idx
       (tab nb (fun b => tab (S np) (fun p => tab nh (x b p))))
     = ([], Returned (tab nb (fun b => tab (S np) (fun p =>
          match p with
          | O => tab nh (x b 0%nat)
          | S _ => tab nh (fun h =>
                     vsum (tab (S k) (fun j => blend (gm b h j) (mc j b p) (mm j))))
          end))))).
Proof.
  split; [apply modal_term_value|]. split; [|split; [|split; [|split; [|split]]]].
  - intros layer_no nb np nh k a gm ga mc ac mm ma w orig_in Hstate Hab.
    rewrite (mlp_hook_before_prepend self layer_no nb np nh k a gm ga mc ac mm ma w
               Hstate vzero) by congruence.
    erewrite tab_ext; [reflexivity|]. intros b _. apply tab_ext. intros p _.
    by apply mlp_hook_entry_blend.
  - intros layer_no circ_idx nb np nh nhs k a gm ga mc ac mm ma w orig_in
           Hmlp Hattn Hl Hab.
    rewrite (attention_hook_before_prepend self layer_no circ_idx nb np nh nhs k a
               gm ga mc ac mm ma w Hmlp Hattn (fun _ => vzero) _ Hl) by congruence.
    erewrite tab_ext; [reflexivity|]. intros b _. apply tab_ext. intros p _.
    apply tab_ext. intros h _. by apply attn_hook_entry_blend.
  - intros circ_idx nb np nh k gm mc mm orig_in Hmlp Hab.
    rewrite (attention_hook_first_layer self circ_idx nb np nh k gm mc mm _ Hmlp).
    erewrite tab_ext; [reflexivity|]. intros b _. apply tab_ext. intros p _.
    apply tab_ext. intros h _. by apply attn_mlp_entry_blend.
  - intros layer_no nb np nh k a gm ga mc ac mm ma w x Hstate Hpar Hab.
    rewrite (mlp_hook_tab self layer_no nb np nh k a gm ga mc ac mm ma w vzero x
               Hstate Hpar) by congruence.
    do 2 f_equal. apply tab_ext. intros b _. apply tab_ext. intros [|p] _; [done|].
    by apply mlp_hook_entry_blend.
  - intros layer_no circ_idx nb np nh nhs k a gm ga mc ac mm ma w x
           Hmlp Hattn Hl Hpar Hab.
    rewrite (attention_hook_tab self layer_no circ_idx nb np nh nhs k a
               gm ga mc ac mm ma w (fun _ => vzero) x Hmlp Hattn Hl Hpar)
      by congruence.
    do 2 f_equal. apply tab_ext. intros b _. apply tab_ext. intros [|p] _; [done|].
    apply tab_ext. intros h _. by apply attn_hook_entry_blend.
  - intros circ_idx nb np nh k gm mc mm x Hmlp Hpar Hab.
    rewrite (attention_hook_first_layer_tab self circ_idx nb np nh k gm mc mm x Hmlp Hpar).
    do 2 f_equal. apply tab_ext. intros b _. apply tab_ext. intros [|p] _; [done|].
    apply tab_ext. intros h _. by apply attn_mlp_entry_blend.
Qed.

(** The theorem on the example pruner, gates at one half. *)
Lemma modal_substitution_threshold_free_witness :
  pruning_edge_mlp_hook_all_tokens
    (pruner_example false false 2 2 [[0; 1]] (mask_example 0.5)) 1
    (tab 1 (fun b => tab 2 (fun p => 0)))
  = ([], Returned (tab 1 (fun b => tab 2 (fun p =>
       match p with
       | O => 0
       | S _ => mlp_blend_entry
                  (pruner_example false false 2 2 [[0; 1]] (mask_example 0.5))
                  1 1 1 1 (fun _ _ => 0.5) (fun _ _ _ => 0.5)
                  mc_example ac_example mm_example ma_example w_example b p
       end)))).
Proof.
  apply (proj1 (proj2 (proj2 (proj2 (proj2 (modal_substitution_threshold_free
           R real_vector_space
           (pruner_example false false 2 2 [[0; 1]] (mask_example 0.5)))))))
           1%nat 1%nat 1%nat 1%nat 1%nat 1%nat
           (fun _ _ => 0.5) (fun _ _ _ => 0.5)
           mc_example ac_example mm_example ma_example w_example (fun _ _ => 0)).
  - apply mlp_state_example.
  - reflexivity.
  - reflexivity.
Defined.

End ThresholdFacts.

Section ThresholdCounterexample.
Import Scalar Tensor Pruner Shapes.

(** C10, as stated, fails under [ablation_backward].  On the example
    pruner with every gate at zero, the MLP-input hook of layer 1 puts
    [3280] at position 1: the projected attention modal values
    [2*10 + 3*20], the biases [3000] and the unweighted modal value [200]
    of the destination layer.  The sum over the sources of
    [g * cached + (1-g) * modal] is [3380]. *)
Lemma ablation_backward_skips_modal_terms :
  exists v,
    pruning_edge_mlp_hook_all_tokens
      (pruner_example false true 2 2 [[0; 1]] (mask_example 0)) 1 [[0; 0]]
    = ([], Returned [[0; v]]) /\
    v = 3280 /\
    mlp_blend_entry (pruner_example false true 2 2 [[0; 1]] (mask_example 0))
      1 1 1 1 (fun _ _ => 0) (fun _ _ _ => 0)
      mc_example ac_example mm_example ma_example w_example 0 1 = 3380.
Proof.
  eexists. split; [|split].
  - exact (mlp_hook_tab (pruner_example false true 2 2 [[0; 1]] (mask_example 0))
             1 1 1 1 1 1 (fun _ _ => 0) (fun _ _ _ => 0)
             mc_example ac_example mm_example ma_example w_example 200
             (fun _ _ => 0) (mlp_state_example 0 false true [[0; 1]])
             eq_refl (fun _ => eq_refl)).
  - eval_entries. destruct (Rlt_dec 0 0.001), (Rge_dec 0 0.001); lra.
  - eval_entries. lra.
Qed.

End ThresholdCounterexample.

(** ** Every gate at one: the reconstruction is the incoming tensor *)

Section RoundTrip.
Import Scalar Tensor Pruner Shapes.

Lemma unflatten_single {A : Type} (n : nat) (l : list A) :
  n <> 0%nat -> length l = n -> unflatten n l = Some [l].
Proof.
  intros Hn Hl. unfold unflatten.
  rewrite decide_True by (split; [done | rewrite Hl; apply Nat.Div0.mod_same]).
  rewrite Hl. destruct n as [|n]; [done|]. cbn [chunks].
  destruct l as [|x l]; [done|].
  rewrite firstn_all2 by (rewrite Hl; lia).
  rewrite skipn_all2 by (rewrite Hl; lia).
  by destruct n.
Qed.

(** With patching off, the final hook latches the incoming tensor. *)
Lemma final_hook_disabled {V : Type} `{!VectorSpace V}
    (self : EdgePruner V) (orig_in : list (list V)) :
  pruning_edge_final_hook_all_tokens (set_disable_hooks self true) orig_in
  = match latch (last_token_mask self) orig_in with
    | None => ([], Raised RuntimeError)
    | Some out => ([], Returned [out])
    end.
Proof.
  unfold pruning_edge_final_hook_all_tokens, pruning_edge_mlp_hook_all_tokens.
  cbn. by destruct (latch _ _).
Qed.

(** C1, as the code has it.  With [ablation_backward] off, when every
    gate is one the tensor that a hook reconstructs and hands to
    [prepend_orig] is the residual stream of the cached outputs, whatever
    the modal values and in either inference mode.  Outside parallel
    inference, on an incoming tensor that is this residual stream, the
    attention-input hook and the MLP-input hook therefore return the
    incoming tensor, and the final hook returns the latch of the incoming
    tensor, which for one sample per row is what it returns with all hooks
    disabled. *)
Theorem gates_one_reconstruct_input
    (V : Type) (VS : VectorSpace V) (self : EdgePruner V) :
  ablation_backward self = false ->
  (forall layer_no nb np nh k a mc ac mm ma w (orig_in : list (list V)),
     mlp_hook_state self layer_no nb np nh k a
       (fun _ _ => 1) (fun _ _ _ => 1) mc ac mm ma w ->
     pruning_edge_mlp_hook_all_tokens self layer_no orig_in
     = match prepend_orig (fun _ : V => []) self orig_in
               (tab nb (fun b => tab np
                  (residual self ((layer_no + 1) `min` n_layers self)
                            nh k a mc ac w b))) with
       | None => ([], Raised RuntimeError)
       | Some r => ([], Returned r)
       end) /\
  (forall layer_no circ_idx nb np nh nhs k a mc ac mm ma w
          (orig_in : list (list (list V))),
     attn_hook_state self layer_no circ_idx nb np nh k (fun _ _ _ => 1) mc mm ->
     attn_hook_attn_state self layer_no circ_idx nb np nh nhs a
       (fun _ _ _ _ => 1) ac ma w ->
     layer_no <> 0%nat ->
     pruning_edge_attention_hook_all_tokens self layer_no circ_idx orig_in
     = match prepend_orig shape1 self orig_in
               (tab nb (fun b => tab np (fun p => tab nh (fun _ =>
                  residual self layer_no nhs k a mc ac w b p)))) with
       | None => ([], Raised RuntimeError)
       | Some r => ([], Returned r)
       end) /\
  (forall circ_idx nb np nh k mc mm (orig_in : list (list (list V))),
     attn_hook_state self 0 circ_idx nb np nh k (fun _ _ _ => 1) mc mm ->
     pruning_edge_attention_hook_all_tokens self 0 circ_idx orig_in
     = match prepend_orig shape1 self orig_in
               (tab nb (fun b => tab np (fun p => tab nh (fun _ =>
                  vsum (tab (S k) (fun j => mc j b p)))))) with
       | None =>
           attention_handler self orig_in
             (Some (tab nb (fun b => tab nh (fun h => tab (S k) (fun j => 1)))))
             None RuntimeError
       | Some r => ([], Returned r)
       end) /\
  (forall layer_no nb np nh k a mc ac mm ma w,
     parallel_inference self = false ->
     mlp_hook_state self layer_no nb (S np) nh k a
       (fun _ _ => 1) (fun _ _ _ => 1) mc ac mm ma w ->
     let orig_in :=
       tab nb (fun b => tab (S np) (fun p =>
         residual self ((layer_no + 1) `min` n_layers self) nh k a mc ac w b p)) in
     pruning_edge_mlp_hook_all_tokens self layer_no orig_in = ([], Returned orig_in)) /\
  (forall layer_no circ_idx nb np nh nhs k a mc ac mm ma w,
     parallel_inference self = false ->
     attn_hook_state self layer_no circ_idx nb (S np) nh k (fun _ _ _ => 1) mc mm ->
     attn_hook_attn_state self layer_no circ_idx nb (S np) nh nhs a
       (fun _ _ _ _ => 1) ac ma w ->
     layer_no <> 0%nat ->
     let orig_in :=
       tab nb (fun b => tab (S np) (fun p => tab nh (fun _ =>
         residual self layer_no nhs k a mc ac w b p))) in
     pruning_edge_attention_hook_all_tokens self layer_no circ_idx orig_in
     = ([], Returned orig_in)) /\
  (forall circ_idx nb np nh k mc mm,
     parallel_inference self = false ->
     attn_hook_state self 0 circ_idx nb (S np) nh k (fun _ _ _ => 1) mc mm ->
     let orig_in :=
       tab nb (fun b => tab (S np) (fun p => tab nh (fun _ =>
         vsum (tab (S k) (fun j => mc j b p))))) in
     pruning_edge_attention_hook_all_tokens self 0 circ_idx orig_in
     = ([], Returned orig_in)) /\
  (forall nb np nh k a mc ac mm ma w,
     parallel_inference self = false ->
     mlp_hook_state self (n_layers self) nb (S np) nh k a
       (fun _ _ => 1) (fun _ _ _ => 1) mc ac mm ma w ->
     let orig_in :=
       tab nb (fun b => tab (S np) (fun p =>
         residual self ((n_layers self + 1) `min` n_layers self) nh k a mc ac w b p)) in
     pruning_edge_final_hook_all_tokens self orig_in
     = match unflatten (batch_size self) orig_in
             ≫= mapM (latch (last_token_mask self)) with
       | None => ([], Raised RuntimeError)
       | Some out => ([], Returned out)
       end /\
     (nb = batch_size self -> nb <> 0%nat ->
      pruning_edge_final_hook_all_tokens self orig_in
      = pruning_edge_final_hook_all_tokens (set_disable_hooks self true) orig_in)).
Proof.
  intros Hab.
  assert (forall layer_no nb np nh k a mc ac mm ma w,
     parallel_inference self = false ->
     mlp_hook_state self layer_no nb (S np) nh k a
       (fun _ _ => 1) (fun _ _ _ => 1) mc ac mm ma w ->
     pruning_edge_mlp_hook_all_tokens self layer_no
       (tab nb (fun b => tab (S np) (fun p =>
          residual self ((layer_no + 1) `min` n_layers self) nh k a mc ac w b p)))
     = ([], Returned (tab nb (fun b => tab (S np) (fun p =>
          residual self ((layer_no + 1) `min` n_layers self) nh k a mc ac w b p)))))
    as Hmlp.
  { intros layer_no nb np nh k a mc ac mm ma w Hpar Hstate.
    rewrite (mlp_hook_tab self layer_no nb np nh k a _ _ mc ac mm ma w vzero _
               Hstate Hpar) by congruence.
    do 2 f_equal. apply tab_ext. intros b _. apply tab_ext. intros [|p] _; [done|].
    rewrite mlp_hook_entry_blend by done. apply mlp_blend_entry_ones. }
  split; [|split; [|split; [|split; [exact Hmlp|split; [|split]]]]].
  - intros layer_no nb np nh k a mc ac mm ma w orig_in Hstate.
    rewrite (mlp_hook_before_prepend self layer_no nb np nh k a _ _ mc ac mm ma w
               Hstate vzero) by congruence.
    erewrite tab_ext; [reflexivity|]. intros b _. apply tab_ext. intros p _.
    rewrite mlp_hook_entry_blend by done. apply mlp_blend_entry_ones.
  - intros layer_no circ_idx nb np nh nhs k a mc ac mm ma w orig_in Hm Ha Hl.
    rewrite (attention_hook_before_prepend self layer_no circ_idx nb np nh nhs k a
               _ _ mc ac mm ma w Hm Ha (fun _ => vzero) _ Hl) by congruence.
    erewrite tab_ext; [reflexivity|]. intros b _. apply tab_ext. intros p _.
    apply tab_ext. intros h _.
    rewrite attn_hook_entry_blend by done. apply attn_blend_entry_ones.
  - intros circ_idx nb np nh k mc mm orig_in Hm.
    rewrite (attention_hook_first_layer self circ_idx nb np nh k _ mc mm _ Hm).
    erewrite tab_ext; [reflexivity|]. intros b _. apply tab_ext. intros p _.
    apply tab_ext. intros h _. rewrite attn_mlp_entry_blend by done.
    f_equal. apply tab_ext. intros j _. apply blend_one.
  - intros layer_no circ_idx nb np nh nhs k a mc ac mm ma w Hpar Hm Ha Hl orig_in.
    unfold orig_in.
    rewrite (attention_hook_tab self layer_no circ_idx nb np nh nhs k a
               _ _ mc ac mm ma w (fun _ => vzero) _ Hm Ha Hl Hpar) by congruence.
    do 2 f_equal. apply tab_ext. intros b _. apply tab_ext. intros [|p] _; [done|].
    apply tab_ext. intros h _.
    rewrite attn_hook_entry_blend by done. apply attn_blend_entry_ones.
  - intros circ_idx nb np nh k mc mm Hpar Hm orig_in. unfold orig_in.
    rewrite (attention_hook_first_layer_tab self circ_idx nb np nh k _ mc mm _ Hm Hpar).
    do 2 f_equal. apply tab_ext. intros b _. apply tab_ext. intros [|p] _; [done|].
    apply tab_ext. intros h _. rewrite attn_mlp_entry_blend by done.
    f_equal. apply tab_ext. intros j _. apply blend_one.
  - intros nb np nh k a mc ac mm ma w Hpar Hstate orig_in.
    assert (pruning_edge_final_hook_all_tokens self orig_in
            = match unflatten (batch_size self) orig_in
                    ≫= mapM (latch (last_token_mask self)) with
              | None => ([], Raised RuntimeError)
              | Some out => ([], Returned out)
              end) as Hfinal.
    { unfold pruning_edge_final_hook_all_tokens, orig_in.
      rewrite (Hmlp _ _ _ _ _ _ _ _ _ _ _ Hpar Hstate).
      by rewrite (ms_enabled _ _ _ _ _ _ _ _ _ _ _ _ _ _ Hstate). }
    split; [exact Hfinal|]. intros Hnb Hnz.
    rewrite Hfinal, final_hook_disabled.
    rewrite unflatten_single; [|congruence|].
    + cbn [mbind option_bind mapM]. destruct (latch _ _); done.
    + unfold orig_in. rewrite length_tab. done.
Qed.

(** The theorem on the example pruner: the MLP-input hook of layer 1
    returns the residual stream it receives. *)
Lemma gates_one_reconstruct_input_witness :
  let self := pruner_example false false 2 2 [[0; 1]] (mask_example 1) in
  let orig_in :=
    tab 1 (fun b => tab 2 (fun p =>
      residual self 2 1 1 1 mc_example ac_example w_example b p)) in
  ablation_backward self = false /\
  pruning_edge_mlp_hook_all_tokens self 1 orig_in = ([], Returned orig_in).
Proof.
  split; [reflexivity|].
  apply (proj1 (proj2 (proj2 (proj2 (gates_one_reconstruct_input R real_vector_space
           (pruner_example false false 2 2 [[0; 1]] (mask_example 1)) eq_refl))))
           1%nat 1%nat 1%nat 1%nat 1%nat 1%nat
           mc_example ac_example mm_example ma_example w_example eq_refl).
  apply mlp_state_example.
Defined.

(** The residual stream of the example: [3035] at position 0 and [3042] at
    position 1. *)
Lemma residual_example (abl : bool) (ltm : list (list R)) (g : R) :
  residual (pruner_example false abl 2 2 ltm (mask_example g)) 2 1 1 1
           mc_example ac_example w_example 0 0 = 3035 /\
  residual (pruner_example false abl 2 2 ltm (mask_example g)) 2 1 1 1
           mc_example ac_example w_example 0 1 = 3042.
Proof. split; eval_entries; lra. Qed.

(** C1, as stated, fails under [ablation_backward].  On the example pruner
    with every gate at one, the MLP-input hook of layer 1 receives the
    residual stream [[3035; 3042]] and returns [3242] at position 1: the
    modal value [200] of the destination layer has been added. *)
Lemma ablation_backward_changes_input :
  exists v,
    pruning_edge_mlp_hook_all_tokens
      (pruner_example false true 2 2 [[0; 1]] (mask_example 1)) 1 [[3035; 3042]]
    = ([], Returned [[3035; v]]) /\
    v = 3242.
Proof.
  eexists. split.
  - exact (mlp_hook_tab (pruner_example false true 2 2 [[0; 1]] (mask_example 1))
             1 1 1 1 1 1 (fun _ _ => 1) (fun _ _ _ => 1)
             mc_example ac_example mm_example ma_example w_example 200
             (fun _ p => match p with O => 3035 | S _ => 3042 end)
             (mlp_state_example 1 false true [[0; 1]])
             eq_refl (fun _ => eq_refl)).
  - eval_entries. destruct (Rlt_dec 1 0.001), (Rge_dec 1 0.001); lra.
Qed.

End RoundTrip.

(** ** Every gate at zero: the output is made of modal values *)

Section FullAblation.
Import Scalar Tensor Pruner Shapes.

Lemma mlp_hook_entry_ablated {V : Type} `{!VectorSpace V}
    (self : EdgePruner V) attention mlp layer_no nb np nh k a mc ac mm ma w md b p :
  mlp_hook_entry (with_caches self attention mlp) layer_no nb np nh k a
                 (fun _ _ => 0) (fun _ _ _ => 0) mc ac mm ma w md b p
  = ablated_entry self layer_no nh k a mm ma w md.
Proof.
  unfold ablated_entry.
  rewrite <- (mlp_hook_entry_zeros self layer_no 0 0 nh k a mc ac mm ma w md b p).
  reflexivity.
Qed.

(** C2, as the code has it.  When every gate is zero the tensor that the
    final hook reconstructs has the same entry everywhere, made of the
    modal values, the output projections and the biases: the batch enters
    the output only through the incoming entries that [prepend_orig] lets
    through.  Outside parallel inference, when no answer position is
    position 0, the output of the final hook is this entry for every
    sample and row, whatever the cached activations and the incoming
    tensor: two batches of the same shape give identical outputs. *)
Theorem gates_zero_output_invariant
    (V : Type) (VS : VectorSpace V) (self : EdgePruner V)
    (ns np nh k a : nat) (mm : nat -> V) (ma : nat -> nat -> V)
    (w : nat -> nat -> V -> V) (md : V) (pos : nat -> nat) :
  let nb := (ns * batch_size self)%nat in
  let fin := n_layers self in
  let entry := ablated_entry self fin nh k a mm ma w md in
  (ablation_backward self = true -> modal_mlp self !! fin = Some md) ->
  (forall attention mlp mc ac (orig_in : list (list V)),
     mlp_hook_state (with_caches self attention mlp) fin nb (S np) nh k a
       (fun _ _ => 0) (fun _ _ _ => 0) mc ac mm ma w ->
     pruning_edge_final_hook_all_tokens (with_caches self attention mlp) orig_in
     = match r ← prepend_orig (fun _ : V => []) self orig_in
                    (tab nb (fun _ => tab (S np) (fun _ => entry)));
             groups ← unflatten (batch_size self) r;
             mapM (latch (last_token_mask self)) groups with
       | None => ([], Raised RuntimeError)
       | Some out => ([], Returned out)
       end) /\
  (parallel_inference self = false ->
   batch_size self <> 0%nat ->
   last_token_mask self = one_hot_mask (batch_size self) (S np) pos ->
   (forall b, (b < batch_size self)%nat -> (1 <= pos b <= np)%nat) ->
   forall attention mlp mc ac (x : nat -> nat -> V),
     mlp_hook_state (with_caches self attention mlp) fin nb (S np) nh k a
       (fun _ _ => 0) (fun _ _ _ => 0) mc ac mm ma w ->
     pruning_edge_final_hook_all_tokens (with_caches self attention mlp)
       (tab nb (fun b => tab (S np) (x b)))
     = ([], Returned (tab ns (fun _ => tab (batch_size self) (fun _ => entry))))).
Proof.
  intros nb fin entry Hmd. split.
  - intros attention mlp mc ac orig_in Hstate.
    unfold pruning_edge_final_hook_all_tokens.
    change (n_layers (with_caches self attention mlp)) with fin.
    rewrite (mlp_hook_before_prepend (with_caches self attention mlp) fin nb (S np)
               nh k a _ _ mc ac mm ma w Hstate md orig_in Hmd).
    erewrite (tab_ext nb); [|intros b _; apply tab_ext; intros p _;
                             apply mlp_hook_entry_ablated].
    change (prepend_orig (fun _ : V => []) (with_caches self attention mlp))
      with (prepend_orig (fun _ : V => []) self).
    destruct (prepend_orig _ self orig_in _) as [r|]; [|done].
    rewrite (ms_enabled _ _ _ _ _ _ _ _ _ _ _ _ _ _ Hstate). done.
  - intros Hpar Hbsz Hmask Hpos attention mlp mc ac x Hstate.
    rewrite (final_hook_tab (with_caches self attention mlp) ns np nh k a
               _ _ mc ac mm ma w md x pos Hstate Hpar Hmd Hbsz Hmask).
    + do 2 f_equal. apply tab_ext. intros s _. apply tab_ext. intros b Hb.
      destruct (Hpos b Hb) as [H1 _]. destruct (pos b) as [|q]; [lia|].
      apply mlp_hook_entry_ablated.
    + intros b Hb. destruct (Hpos b Hb). cbn. lia.
Qed.

End FullAblation.

Section FullAblationExamples.
Import Scalar Tensor Pruner Shapes.

Lemma final_state_with_caches (g : R) (abl : bool) (ltm : list (list R)) :
  let self := pruner_example false abl 2 3 ltm (mask_example g) in
  mlp_hook_state (with_caches self (attention_cache self) (mlp_cache self))
    2 (1 * 1) 2 1 2 1 (fun _ _ => g) (fun _ _ _ => g)
    mc_example ac_example mm_example ma_example w_example.
Proof. constructor; first [reflexivity | intros _; reflexivity]. Qed.

(** The theorem on the example pruner, the answer at position 1. *)
Lemma gates_zero_output_invariant_witness :
  let self := pruner_example false false 2 3 [[0; 1]] (mask_example 0) in
  pruning_edge_final_hook_all_tokens
    (with_caches self (attention_cache self) (mlp_cache self)) [[5; 6]]
  = ([], Returned [[ablated_entry self 2 1 2 1 mm_example ma_example w_example 0]]).
Proof.
  intros self.
  apply (proj2 (gates_zero_output_invariant R real_vector_space self
                  1 1 1 2 1 mm_example ma_example w_example 0 (fun _ => 1%nat)
                  (fun H => match Bool.diff_false_true H with end))
               eq_refl (fun H : 1%nat = 0%nat => match Nat.neq_succ_0 _ H with end)
               eq_refl (fun b _ => conj (le_n 1) (le_n 1))
               (attention_cache self) (mlp_cache self) mc_example ac_example
               (fun _ p => match p with O => 5 | S _ => 6 end)).
  apply final_state_with_caches.
Defined.

(** C2, as stated, fails when the answer is at position 0.  On the example
    pruner with every gate at zero and the last-token mask on position 0,
    the final hook returns the incoming entry of position 0: [5] for one
    batch and [7] for another of the same shape. *)
Lemma first_position_reaches_output :
  let self := pruner_example false false 2 3 [[1; 0]] (mask_example 0) in
  pruning_edge_final_hook_all_tokens self [[5; 6]] = ([], Returned [[5]]) /\
  pruning_edge_final_hook_all_tokens self [[7; 6]] = ([], Returned [[7]]) /\
  5 <> 7.
Proof.
  intros self. split; [|split; [|lra]].
  - exact (final_hook_tab self 1 1 1 2 1 (fun _ _ => 0) (fun _ _ _ => 0)
             mc_example ac_example mm_example ma_example w_example 0
             (fun _ p => match p with O => 5 | S _ => 6 end) (fun _ => 0%nat)
             (final_state_example 0 false false [[1; 0]]) eq_refl
             (fun H => match Bool.diff_false_true H with end)
             (fun H : 1%nat = 0%nat => match Nat.neq_succ_0 _ H with end)
             eq_refl (fun b _ => le_S _ _ (le_n 1))).
  - exact (final_hook_tab self 1 1 1 2 1 (fun _ _ => 0) (fun _ _ _ => 0)
             mc_example ac_example mm_example ma_example w_example 0
             (fun _ p => match p with O => 7 | S _ => 6 end) (fun _ => 0%nat)
             (final_state_example 0 false false [[1; 0]]) eq_refl
             (fun H => match Bool.diff_false_true H with end)
             (fun H : 1%nat = 0%nat => match Nat.neq_succ_0 _ H with end)
             eq_refl (fun b _ => le_S _ _ (le_n 1))).
Qed.

End FullAblationExamples.

Section FrameExamples.
Import Scalar Tensor Pruner Shapes.

(** The same hook on the same input in the sequential mode: the
    MLP-input hook of layer 1 returns, and position 0 of the returned row
    is the incoming [7]. *)
Lemma hooks_keep_first_position_witness :
  let self := pruner_example false false 2 2 [[0; 1]] (mask_example 0.5) in
  exists ret,
    parallel_inference self = false /\
    pruning_edge_mlp_hook_all_tokens self 1 [[7; 9]] = ([], Returned ret) /\
    map head ret = map head [[7; 9]].
Proof.
  intros self.
  pose proof (mlp_hook_tab self 1 1 1 1 1 1 (fun _ _ => 0.5) (fun _ _ _ => 0.5)
                mc_example ac_example mm_example ma_example w_example 0
                (fun _ p => match p with O => 7 | S _ => 9 end)
                (mlp_state_example 0.5 false false [[0; 1]]) eq_refl
                (fun H => match Bool.diff_false_true H with end)) as Hret.
  eexists. split; [reflexivity|]. split; [exact Hret|].
  exact (proj1 (proj2 (hooks_keep_first_position self)) 1%nat [[7; 9]] [] _ eq_refl Hret).
Defined.

(** C7 fails on the code in parallel inference.  There [prepend_orig]
    returns before the statement that restores position 0: the MLP-input
    hook of layer 1 returns the incoming row followed by a reconstructed
    row, and position 0 of the reconstructed row is the reconstruction
    [3380] (every gate at zero), not the incoming [7]. *)
Lemma parallel_inference_reconstructs_first_position :
  let self := pruner_example true false 2 2 [[0; 1]] (mask_example 0) in
  exists v0 v1,
    pruning_edge_mlp_hook_all_tokens self 1 [[7; 9]]
    = ([], Returned [[7; 9]; [v0; v1]]) /\
    v0 = 3380 /\
    map head [[7; 9]; [v0; v1]] <> map head [[7; 9]].
Proof.
  intros self. eexists _, _. split; [|split].
  - rewrite (mlp_hook_before_prepend self 1 1 2 1 1 1 (fun _ _ => 0) (fun _ _ _ => 0)
               mc_example ac_example mm_example ma_example w_example
               (mlp_state_example 0 true false [[0; 1]]) 0 [[7; 9]]
               (fun H => match Bool.diff_false_true H with end)).
    reflexivity.
  - subst self. eval_entries. destruct (Rlt_dec 0 0.001), (Rge_dec 0 0.001); lra.
  - discriminate.
Qed.

End FrameExamples.

(** ** Shapes of the activations of the base model *)

Section ShapeFacts.
Import Scalar Tensor Pruner Shapes Forward.
Context {V : Type} `{!VectorSpace V}.

Lemma nth_tab {A : Type} (n i : nat) (f : nat -> A) (d : A) :
  (i < n)%nat -> nth i (tab n f) d = f i.
Proof. intros Hi. apply nth_lookup_Some. by apply lookup_tab. Qed.

Lemma has_shape2_entries (nb np : nat) (t : list (list V)) :
  has_shape2 nb np t -> t = tab nb (fun b => tab np (fun p => entry2 t b p)).
Proof.
  intros [f ->]. apply tab_ext. intros b Hb. apply tab_ext. intros p Hp.
  unfold entry2. by rewrite !nth_tab.
Qed.

Lemma has_shape3_entries (nb np nh : nat) (t : list (list (list V))) :
  has_shape3 nb np nh t ->
  t = tab nb (fun b => tab np (fun p => tab nh (fun h => entry3 t b p h))).
Proof.
  intros [f ->]. apply tab_ext. intros b Hb. apply tab_ext. intros p Hp.
  apply tab_ext. intros h Hh. unfold entry3. by rewrite !nth_tab.
Qed.

Lemma entry2_tab (nb np : nat) (f : nat -> nat -> V) (b p : nat) :
  (b < nb)%nat -> (p < np)%nat ->
  entry2 (tab nb (fun b => tab np (fun p => f b p))) b p = f b p.
Proof. intros Hb Hp. unfold entry2. by rewrite !nth_tab. Qed.

Lemma entry3_tab (nb np nh : nat) (f : nat -> nat -> nat -> V) (b p h : nat) :
  (b < nb)%nat -> (p < np)%nat -> (h < nh)%nat ->
  entry3 (tab nb (fun b => tab np (fun p => tab nh (fun h => f b p h)))) b p h = f b p h.
Proof. intros Hb Hp Hh. unfold entry3. by rewrite !nth_tab. Qed.

Lemma zip_with_tab {A B C : Type} (F : A -> B -> C) (n : nat)
    (f : nat -> A) (g : nat -> B) :
  zip_with F (tab n f) (tab n g) = tab n (fun i => F (f i) (g i)).
Proof.
  unfold tab. generalize 0%nat. induction n as [|n IH]; intros s; [done|].
  cbn [seq map zip_with]. by rewrite IH.
Qed.

Lemma add_stream_tab (nb np : nat) (f g : nat -> nat -> V) :
  add_stream (tab nb (fun b => tab np (f b))) (tab nb (fun b => tab np (g b)))
  = tab nb (fun b => tab np (fun p => vadd (f b p) (g b p))).
Proof.
  unfold add_stream. rewrite zip_with_tab. apply tab_ext. intros b _.
  apply zip_with_tab.
Qed.

Lemma imap_tab {A B : Type} (F : nat -> A -> B) (n : nat) (f : nat -> A) :
  imap F (tab n f) = tab n (fun i => F i (f i)).
Proof.
  revert F f. induction n as [|n IH]; intros F f; [done|].
  rewrite !tab_S. cbn [imap]. f_equal. apply IH.
Qed.

Lemma replicate_tab {A : Type} (n : nat) (x : A) : replicate n x = tab n (fun _ => x).
Proof. induction n as [|n IH]; [done|]. rewrite tab_S. simpl. by rewrite IH. Qed.

Lemma repeat_heads_tab (nh nb np : nat) (f : nat -> nat -> V) :
  repeat_heads nh (tab nb (fun b => tab np (f b)))
  = tab nb (fun b => tab np (fun p => tab nh (fun _ => f b p))).
Proof.
  unfold repeat_heads. rewrite map_tab. apply tab_ext. intros b _.
  rewrite map_tab. apply tab_ext. intros p _. apply replicate_tab.
Qed.

Lemma project_tab (M : HookedTransformer V) (l nb np nh : nat)
    (z : nat -> nat -> nat -> V) :
  project M l (tab nb (fun b => tab np (fun p => tab nh (z b p))))
  = tab nb (fun b => tab np (fun p => tab nh (fun h => w_o M l h (z b p h)))).
Proof.
  unfold project. rewrite map_tab. apply tab_ext. intros b _.
  rewrite map_tab. apply tab_ext. intros p _. apply imap_tab.
Qed.

Lemma attn_out_tab (M : HookedTransformer V) (l nb np nh : nat)
    (r : nat -> nat -> nat -> V) :
  attn_out M l (tab nb (fun b => tab np (fun p => tab nh (r b p))))
  = tab nb (fun b => tab np (fun p => vadd (vsum (tab nh (r b p))) (b_o M l))).
Proof.
  unfold attn_out. rewrite map_tab. apply tab_ext. intros b _. by rewrite map_tab.
Qed.

Lemma has_shape2_tab (nb np : nat) (f : nat -> nat -> V) :
  has_shape2 nb np (tab nb (fun b => tab np (f b))).
Proof. by exists f. Qed.

Lemma has_shape3_tab (nb np nh : nat) (f : nat -> nat -> nat -> V) :
  has_shape3 nb np nh (tab nb (fun b => tab np (fun p => tab nh (f b p)))).
Proof. by exists f. Qed.

Lemma add_stream_shape (nb np : nat) (x y : list (list V)) :
  has_shape2 nb np x -> has_shape2 nb np y -> has_shape2 nb np (add_stream x y).
Proof. intros [f ->] [g ->]. rewrite add_stream_tab. apply has_shape2_tab. Qed.

Lemma attn_out_project_shape (M : HookedTransformer V) (l nb np : nat)
    (z : list (list (list V))) :
  has_shape3 nb np (n_heads M) z -> has_shape2 nb np (attn_out M l (project M l z)).
Proof.
  intros [f ->]. rewrite project_tab, attn_out_tab. apply has_shape2_tab.
Qed.

End ShapeFacts.

Section BaseFacts.
Import Scalar Tensor Pruner Shapes Forward.
Context {V : Type} `{!VectorSpace V}.

Variable M : HookedTransformer V.
Variable self : EdgePruner V.
Variable tokens : list (list nat).
Variables nb np : nat.
Hypothesis Hws : well_shaped M self tokens nb np.

Lemma base_stream_S (l : nat) :
  base_stream M (S l) tokens
  = add_stream (base_mid M l tokens) (base_mlp_out M l tokens).
Proof.
  unfold base_stream. rewrite seq_S, foldl_app. reflexivity.
Qed.

Lemma attn_step_shape (l : nat) (x : list (list V)) :
  has_shape2 nb np x ->
  has_shape2 nb np
    (add_stream x (attn_out M l (project M l
       (attn_z M l (repeat_heads (n_heads M) x) (repeat_heads (n_heads M) x)
                   (repeat_heads (n_heads M) x))))).
Proof using Hws.
  intros Hx. apply add_stream_shape; [done|].
  apply attn_out_project_shape. by apply (ws_attn _ _ _ _ _ Hws).
Qed.

Lemma base_stream_shape (l : nat) : has_shape2 nb np (base_stream M l tokens).
Proof using Hws.
  induction l as [|l IH].
  - apply (ws_embed _ _ _ _ _ Hws).
  - rewrite base_stream_S. unfold base_mlp_out, base_mid, base_z.
    apply add_stream_shape; [by apply attn_step_shape|].
    apply (ws_mlp _ _ _ _ _ Hws). by apply attn_step_shape.
Qed.

Lemma base_mid_shape (l : nat) : has_shape2 nb np (base_mid M l tokens).
Proof using Hws. apply attn_step_shape, base_stream_shape. Qed.

Lemma base_z_shape (l : nat) : has_shape3 nb np (n_heads M) (base_z M l tokens).
Proof using Hws. apply (ws_attn _ _ _ _ _ Hws), base_stream_shape. Qed.

Lemma base_mlp_out_shape (l : nat) : has_shape2 nb np (base_mlp_out M l tokens).
Proof using Hws. apply (ws_mlp _ _ _ _ _ Hws), base_mid_shape. Qed.

End BaseFacts.

(** ** The stream of the base model is the sum of the cached outputs *)

Section StreamFacts.
Import Scalar Tensor Pruner Shapes Forward.
Context {V : Type} `{!VectorSpace V}.

Lemma vadd_swap (a b c d : V) :
  vadd (vadd a b) (vadd c d) = vadd (vadd a c) (vadd b d).
Proof.
  rewrite <- (vadd_assoc a b), (vadd_assoc b c d), (vadd_comm b c).
  by rewrite <- (vadd_assoc c b d), (vadd_assoc a c).
Qed.

Variable M : HookedTransformer V.
Variable self : EdgePruner V.
Variable tokens : list (list nat).
Variable compressed : bool.
Variables nb np : nat.
Hypothesis Hws : well_shaped M self tokens nb np.

Lemma stream_entry_0 (b p : nat) :
  stream_entry M compressed tokens 0 b p = mc_of M tokens 0 b p.
Proof.
  unfold stream_entry. rewrite tab_S, !tab_0, vsum_cons, !vsum_nil.
  by rewrite !vadd_zero_r.
Qed.

Lemma mid_entry_step (l b p : nat) :
  mid_entry M compressed tokens l b p
  = vadd (stream_entry M compressed tokens l b p)
         (vadd (attn_contribution M compressed tokens l b p) (b_o M l)).
Proof.
  unfold mid_entry, stream_entry.
  set (A := vsum (tab (S l) (fun j => mc_of M tokens j b p))).
  rewrite !(tab_snoc l), !vsum_snoc.
  set (B := vsum (tab l _)). set (C := vsum (tab l _)).
  by rewrite (vadd_assoc A B), vadd_swap.
Qed.

Lemma stream_entry_S (l b p : nat) :
  stream_entry M compressed tokens (S l) b p
  = vadd (mid_entry M compressed tokens l b p) (mc_of M tokens (S l) b p).
Proof.
  unfold mid_entry, stream_entry.
  rewrite (tab_snoc (S l) (fun j => mc_of _ _ j b p)), vsum_snoc.
  set (A := vsum (tab (S l) (fun j => mc_of M tokens j b p))).
  set (x := mc_of M tokens (S l) b p).
  set (C := vsum (tab (S l) _)). set (D := vsum (tab (S l) _)).
  rewrite <- !vadd_assoc. f_equal.
  by rewrite (vadd_comm x), <- !vadd_assoc.
Qed.

Lemma attn_cached_shape (l : nat) :
  has_shape3 nb np (n_heads M) (attn_cached M compressed tokens l).
Proof using Hws.
  unfold attn_cached. destruct compressed; [by eapply base_z_shape|].
  destruct (base_z_shape M self tokens nb np Hws l) as [f ->].
  rewrite project_tab. apply has_shape3_tab.
Qed.

Lemma mlp_cached_shape (j : nat) : has_shape2 nb np (mlp_cached M tokens j).
Proof using Hws.
  destruct j as [|j]; [apply (ws_embed _ _ _ _ _ Hws)|by eapply base_mlp_out_shape].
Qed.

(** The contribution of an attention layer, from its [z]. *)
Lemma attn_contribution_value (l b p : nat) :
  (b < nb)%nat -> (p < np)%nat ->
  attn_contribution M compressed tokens l b p
  = vsum (tab (n_heads M) (fun h => w_o M l h (entry3 (base_z M l tokens) b p h))).
Proof using Hws.
  intros Hb Hp. unfold attn_contribution, ac_of, attn_cached.
  destruct compressed; [done|]. f_equal. apply tab_ext. intros h Hh.
  destruct (base_z_shape M self tokens nb np Hws l) as [f ->].
  by rewrite project_tab, !entry3_tab.
Qed.

Lemma base_mid_entry_of_stream (l b p : nat) :
  (b < nb)%nat -> (p < np)%nat ->
  entry2 (base_mid M l tokens) b p
  = vadd (entry2 (base_stream M l tokens) b p)
         (vadd (attn_contribution M compressed tokens l b p) (b_o M l)).
Proof using Hws.
  intros Hb Hp. rewrite attn_contribution_value by done. unfold base_mid.
  rewrite (has_shape2_entries nb np (base_stream M l tokens))
    by (by eapply base_stream_shape).
  rewrite (has_shape3_entries nb np (n_heads M) (base_z M l tokens))
    by (by eapply base_z_shape).
  rewrite project_tab, attn_out_tab, add_stream_tab, !entry2_tab by done.
  do 2 f_equal. f_equal. apply tab_ext. intros h Hh. by rewrite entry3_tab.
Qed.

Lemma base_stream_S_entry (l b p : nat) :
  (b < nb)%nat -> (p < np)%nat ->
  entry2 (base_stream M (S l) tokens) b p
  = vadd (entry2 (base_mid M l tokens) b p) (entry2 (base_mlp_out M l tokens) b p).
Proof using Hws.
  intros Hb Hp. rewrite base_stream_S.
  destruct (base_mid_shape M self tokens nb np Hws l) as [f ->].
  destruct (base_mlp_out_shape M self tokens nb np Hws l) as [g ->].
  by rewrite add_stream_tab, !entry2_tab.
Qed.

Lemma base_stream_entry (l b p : nat) :
  (b < nb)%nat -> (p < np)%nat ->
  entry2 (base_stream M l tokens) b p = stream_entry M compressed tokens l b p.
Proof using Hws.
  intros Hb Hp. induction l as [|l IH].
  - by rewrite stream_entry_0.
  - rewrite stream_entry_S, mid_entry_step, <- IH, <- base_mid_entry_of_stream by done.
    by rewrite base_stream_S_entry.
Qed.

Lemma base_mid_entry (l b p : nat) :
  (b < nb)%nat -> (p < np)%nat ->
  entry2 (base_mid M l tokens) b p = mid_entry M compressed tokens l b p.
Proof using Hws.
  intros Hb Hp.
  by rewrite mid_entry_step, <- base_stream_entry, <- base_mid_entry_of_stream.
Qed.

End StreamFacts.

(** ** The hooks in the forward pass, every gate at one *)

Section SelectFacts.
Import Tensor Pruner.

Lemma select_circuit_tab {A : Type} (n nb nc : nat) (X : nat -> nat -> nat -> A)
    (l circ : nat) :
  (l < n)%nat -> (circ < nc)%nat ->
  select_circuit (tab n (fun l => tab nb (fun b => tab nc (X l b)))) l circ
  = Some (tab nb (fun b => X l b circ)).
Proof.
  intros Hl Hc. unfold select_circuit. rewrite lookup_tab by done.
  cbn [mbind option_bind]. apply mapM_tab. intros b _. by apply lookup_tab.
Qed.

End SelectFacts.

Section ForwardHooks.
Import Scalar Tensor Pruner Shapes Forward.
Context {V : Type} `{!VectorSpace V}.

Variable M : HookedTransformer V.
Variable self : EdgePruner V.
Variable tokens : list (list nat).
Variables nb np : nat.
Variable mm : nat -> V.
Variable ma : nat -> nat -> V.
Hypothesis Hws : well_shaped M self tokens nb (S np).
Hypothesis Hmm : modal_mlp self = tab (S (n_layers self)) mm.
Hypothesis Hma :
  modal_attention self = tab (n_layers self) (fun l => tab (n_heads M) (ma l)).
Hypothesis Hmask :
  sampled_mask self = constant_mask 1 (n_layers self) nb (n_heads M).
Hypothesis Hen : disable_hooks self = false.
Hypothesis Hpr : disable_pruning_hooks self = false.
Hypothesis Hpar : parallel_inference self = false.
Hypothesis Hab : ablation_backward self = false.

Local Abbreviation compressed := (cache_compressed_attn self).
Local Abbreviation mc := (mc_of M tokens).
Local Abbreviation ac := (ac_of M compressed tokens).

Lemma mlp_trace_tab (l : nat) :
  mlp_trace M tokens l
  = tab (S l) (fun j => tab nb (fun b => tab (S np) (fun p => mc j b p))).
Proof using Hws.
  unfold mlp_trace. apply tab_ext. intros j _.
  apply has_shape2_entries. by eapply mlp_cached_shape.
Qed.

Lemma attn_trace_tab (l : nat) :
  attn_trace M compressed tokens l
  = tab l (fun j => tab nb (fun b => tab (S np) (fun p =>
      tab (n_heads M) (fun h => ac j b p h)))).
Proof using Hws.
  unfold attn_trace. apply tab_ext. intros j _.
  apply has_shape3_entries. by eapply attn_cached_shape.
Qed.

Lemma attn_state_forward (l circ : nat) (A : list (list (list (list V)))) :
  (l < n_layers self)%nat -> (circ < 3)%nat ->
  attn_hook_state (with_caches self A (mlp_trace M tokens l)) l circ nb (S np)
    (n_heads M) l (fun _ _ _ => 1) mc mm.
Proof using Hws Hmm Hmask Hen.
  intros Hl Hc. constructor.
  - exact Hen.
  - apply mlp_trace_tab.
  - cbn [sampled_mask with_caches]. rewrite Hmask. cbn [mlp_attn constant_mask].
    by rewrite (select_circuit_tab (n_layers self) nb 3
                  (fun l _ _ => tab (n_heads M) (fun _ => tab (S l) (fun _ => 1)))).
  - cbn [modal_mlp with_caches]. rewrite Hmm, take_tab by lia.
    by rewrite Nat.add_1_r.
Qed.

Lemma attn_attn_state_forward (l circ : nat) (Mc : list (list (list V))) :
  (S l < n_layers self)%nat -> (circ < 3)%nat ->
  attn_hook_attn_state (with_caches self (attn_trace M compressed tokens (S l)) Mc)
    (S l) circ nb (S np) (n_heads M) (n_heads M) l (fun _ _ _ _ => 1) ac ma (w_o M).
Proof using Hws Hma Hmask.
  intros Hl Hc. constructor.
  - apply attn_trace_tab.
  - cbn [sampled_mask with_caches]. rewrite Hmask. cbn [attn_attn constant_mask].
    by rewrite (select_circuit_tab (n_layers self) nb 3
                  (fun l _ _ => tab (n_heads M) (fun _ =>
                     tab l (fun _ => tab (n_heads M) (fun _ => 1))))).
  - cbn [modal_attention with_caches]. by rewrite Hma, take_tab by lia.
  - intros _. cbn [W_O with_caches].
    by rewrite (ws_W_O _ _ _ _ _ Hws), take_tab by lia.
Qed.

Lemma mlp_state_forward (l a : nat) :
  (l <= n_layers self)%nat -> S a = ((l + 1) `min` n_layers self)%nat ->
  mlp_hook_state
    (with_caches self (attn_trace M compressed tokens (S a)) (mlp_trace M tokens l))
    l nb (S np) (n_heads M) l a (fun _ _ => 1) (fun _ _ _ => 1) mc ac mm ma (w_o M).
Proof using Hws Hmm Hma Hmask Hen Hpr.
  intros Hl Ha. constructor.
  - exact Hen.
  - exact Hpr.
  - apply mlp_trace_tab.
  - apply attn_trace_tab.
  - cbn [sampled_mask with_caches]. rewrite Hmask. cbn [mlp_mlp constant_mask].
    by rewrite lookup_tab by lia.
  - cbn [sampled_mask with_caches]. rewrite Hmask. cbn [attn_mlp constant_mask].
    rewrite lookup_tab by lia. by rewrite <- Ha.
  - cbn [modal_mlp with_caches]. rewrite Hmm, take_tab by lia.
    by rewrite Nat.add_1_r.
  - cbn [modal_attention n_layers with_caches]. rewrite <- Ha.
    by rewrite Hma, take_tab by lia.
  - intros _. cbn [W_O n_layers with_caches]. rewrite <- Ha.
    by rewrite (ws_W_O _ _ _ _ _ Hws), take_tab by lia.
Qed.

(** The residual stream of the cached outputs, on the caches of the
    forward pass. *)
Lemma residual_value (A : list (list (list (list V)))) (Mc : list (list (list V)))
    (nl k a b p : nat) :
  (nl <= n_layers self)%nat ->
  residual (with_caches self A Mc) nl (n_heads M) k a mc ac (w_o M) b p
  = vadd (vadd (vsum (tab (S k) (fun j => mc j b p)))
               (vsum (tab (S a) (fun j => attn_contribution M compressed tokens j b p))))
         (vsum (tab nl (fun j => b_o M j))).
Proof using Hws.
  intros Hnl. unfold residual, attn_contribution, source_map.
  cbn [post_bias cache_compressed_attn with_caches].
  by rewrite (ws_post_bias _ _ _ _ _ Hws), take_tab by done.
Qed.

Lemma base_stream_tab (l : nat) :
  base_stream M l tokens
  = tab nb (fun b => tab (S np) (fun p => stream_entry M compressed tokens l b p)).
Proof using Hws.
  etrans; [apply (has_shape2_entries nb (S np)); by eapply base_stream_shape|].
  apply tab_ext. intros b Hb. apply tab_ext. intros p Hp. by eapply base_stream_entry.
Qed.

Lemma base_mid_tab (l : nat) :
  base_mid M l tokens
  = tab nb (fun b => tab (S np) (fun p => mid_entry M compressed tokens l b p)).
Proof using Hws.
  etrans; [apply (has_shape2_entries nb (S np)); by eapply base_mid_shape|].
  apply tab_ext. intros b Hb. apply tab_ext. intros p Hp. by eapply base_mid_entry.
Qed.

(** The attention-input hooks of block [l] return the stream they
    receive. *)
Lemma attention_hook_forward (l circ : nat) :
  (l < n_layers self)%nat -> (circ < 3)%nat ->
  pruning_edge_attention_hook_all_tokens
    (with_caches self (attn_trace M compressed tokens l) (mlp_trace M tokens l))
    l circ (repeat_heads (n_heads M) (base_stream M l tokens))
  = ([], Returned (repeat_heads (n_heads M) (base_stream M l tokens))).
Proof using All.
  intros Hl Hc. rewrite base_stream_tab, repeat_heads_tab.
  destruct l as [|l].
  - rewrite (attention_hook_first_layer_tab _ circ nb np (n_heads M) 0 _ mc mm
               (fun b p _ => stream_entry M compressed tokens 0 b p)
               (attn_state_forward 0 circ _ Hl Hc) Hpar).
    do 2 f_equal. apply tab_ext. intros b _. apply tab_ext. intros [|p] _; [done|].
    apply tab_ext. intros h _. rewrite attn_mlp_entry_blend by exact Hab.
    rewrite stream_entry_0, tab_S, tab_0, vsum_cons, vsum_nil, vadd_zero_r.
    apply blend_one.
  - rewrite (attention_hook_tab _ (S l) circ nb np (n_heads M) (n_heads M) (S l) l
               _ _ mc ac mm ma (w_o M) (fun _ => vzero)
               (fun b p _ => stream_entry M compressed tokens (S l) b p)
               (attn_state_forward (S l) circ _ Hl Hc)
               (attn_attn_state_forward l circ _ Hl Hc) (Nat.neq_succ_0 l) Hpar)
      by (intros Ht; cbn in Ht; congruence).
    do 2 f_equal. apply tab_ext. intros b _. apply tab_ext. intros [|p] _; [done|].
    apply tab_ext. intros h _. rewrite attn_hook_entry_blend by exact Hab.
    by rewrite attn_blend_entry_ones, residual_value by lia.
Qed.

(** The MLP-input hook of block [l] returns the stream it receives. *)
Lemma mlp_hook_forward (l : nat) :
  (l < n_layers self)%nat ->
  pruning_edge_mlp_hook_all_tokens
    (with_caches self (attn_trace M compressed tokens (S l)) (mlp_trace M tokens l))
    l (base_mid M l tokens)
  = ([], Returned (base_mid M l tokens)).
Proof using All.
  intros Hl. rewrite base_mid_tab.
  rewrite (mlp_hook_tab _ l nb np (n_heads M) l l _ _ mc ac mm ma (w_o M) vzero
             (fun b p => mid_entry M compressed tokens l b p)
             (mlp_state_forward l l ltac:(lia) ltac:(lia)) Hpar)
    by (intros Ht; cbn in Ht; congruence).
  do 2 f_equal. apply tab_ext. intros b _. apply tab_ext. intros [|p] _; [done|].
  rewrite mlp_hook_entry_blend by exact Hab. rewrite mlp_blend_entry_ones.
  cbn [n_layers with_caches]. replace ((l + 1) `min` n_layers self)%nat with (S l) by lia.
  by rewrite residual_value by lia.
Qed.

(** The MLP-input hook that the final hook calls returns the last
    stream. *)
Lemma final_mlp_hook_forward (n' : nat) :
  n_layers self = S n' ->
  pruning_edge_mlp_hook_all_tokens
    (with_caches self (attn_trace M compressed tokens (S n'))
                 (mlp_trace M tokens (n_layers self)))
    (n_layers self) (base_stream M (n_layers self) tokens)
  = ([], Returned (base_stream M (n_layers self) tokens)).
Proof using All.
  intros Hn. rewrite base_stream_tab.
  rewrite (mlp_hook_tab _ (n_layers self) nb np (n_heads M) (n_layers self) n'
             _ _ mc ac mm ma (w_o M) vzero
             (fun b p => stream_entry M compressed tokens (n_layers self) b p)
             (mlp_state_forward (n_layers self) n' ltac:(lia) ltac:(lia)) Hpar)
    by (intros Ht; cbn in Ht; congruence).
  do 2 f_equal. apply tab_ext. intros b _. apply tab_ext. intros [|p] _; [done|].
  rewrite mlp_hook_entry_blend by exact Hab. rewrite mlp_blend_entry_ones.
  cbn [n_layers with_caches].
  replace ((n_layers self + 1) `min` n_layers self)%nat with (n_layers self) by lia.
  rewrite residual_value by lia. unfold stream_entry. by rewrite Hn.
Qed.

Lemma and_then_returned {A B : Type} (a : A)
    (f : A -> list printed * outcome B) :
  and_then ([], Returned a) f = f a.
Proof. unfold and_then. by destruct (f a). Qed.

Lemma cache_hook_enabled {A : Type} (s : EdgePruner V)
    (storage : list (list A)) (activations : list A) :
  disable_hooks s = false -> parallel_inference s = false ->
  cache_hook_all_tokens s storage activations = (storage ++ [activations], activations).
Proof. intros H1 H2. unfold cache_hook_all_tokens. by rewrite H1, H2. Qed.

Lemma attn_trace_S (l : nat) :
  (if compressed
   then (attn_trace M compressed tokens l ++ [base_z M l tokens],
         project M l (base_z M l tokens))
   else (attn_trace M compressed tokens l ++ [project M l (base_z M l tokens)],
         project M l (base_z M l tokens)))
  = (attn_trace M compressed tokens (S l), project M l (base_z M l tokens)).
Proof.
  unfold attn_trace. rewrite tab_snoc. unfold attn_cached.
  by destruct compressed.
Qed.

(** One block of the patched pass is the block of the base model, and its
    cache hooks extend the caches. *)
Lemma block_forward (l : nat) :
  (l < n_layers self)%nat ->
  block M (with_caches self (attn_trace M compressed tokens l) (mlp_trace M tokens l))
        l (base_stream M l tokens)
  = ([], Returned
           (with_caches self (attn_trace M compressed tokens (S l))
                        (mlp_trace M tokens (S l)),
            base_stream M (S l) tokens)).
Proof using All.
  intros Hl. unfold block.
  rewrite !attention_hook_forward by (done || lia).
  rewrite !and_then_returned.
  change (attn_z M l (repeat_heads (n_heads M) (base_stream M l tokens))
            (repeat_heads (n_heads M) (base_stream M l tokens))
            (repeat_heads (n_heads M) (base_stream M l tokens)))
    with (base_z M l tokens).
  rewrite !(cache_hook_enabled
              (with_caches self (attn_trace M compressed tokens l) (mlp_trace M tokens l)))
    by done.
  cbn [cache_compressed_attn attention_cache mlp_cache with_caches].
  cbv beta iota zeta. rewrite attn_trace_S. cbv beta iota zeta.
  change (with_caches (with_caches self (attn_trace M compressed tokens l)
                                   (mlp_trace M tokens l))
                      (attn_trace M compressed tokens (S l)) (mlp_trace M tokens l))
    with (with_caches self (attn_trace M compressed tokens (S l)) (mlp_trace M tokens l)).
  change (add_stream (base_stream M l tokens)
            (attn_out M l (project M l (base_z M l tokens))))
    with (base_mid M l tokens).
  rewrite mlp_hook_forward by done. rewrite and_then_returned.
  rewrite cache_hook_enabled by done.
  rewrite base_stream_S. unfold mlp_trace at 3. rewrite (tab_snoc (S l)).
  reflexivity.
Qed.

Lemma blocks_forward (m l : nat) :
  (l + m <= n_layers self)%nat ->
  blocks M (seq l m)
         (with_caches self (attn_trace M compressed tokens l) (mlp_trace M tokens l))
         (base_stream M l tokens)
  = ([], Returned
           (with_caches self (attn_trace M compressed tokens (l + m))
                        (mlp_trace M tokens (l + m)),
            base_stream M (l + m) tokens)).
Proof using All.
  revert l. induction m as [|m IH]; intros l Hl.
  - by rewrite Nat.add_0_r.
  - cbn [seq blocks]. rewrite block_forward by lia. rewrite and_then_returned.
    cbn [fst snd]. rewrite IH by lia. by rewrite Nat.add_succ_r.
Qed.

(** The patched pass from empty caches: the caches get filled with the
    activations of the base model and the final hook receives, and
    latches, the last stream of the base model. *)
Lemma base_model_forward (n' : nat) :
  n_layers self = S n' -> attention_cache self = [] -> mlp_cache self = [] ->
  base_model M self tokens
  = match unflatten (batch_size self) (base_stream M (n_layers self) tokens)
          ≫= mapM (latch (last_token_mask self)) with
    | None => ([], Raised RuntimeError)
    | Some out =>
        ([], Returned
               (with_caches self (attn_trace M compressed tokens (n_layers self))
                            (mlp_trace M tokens (n_layers self)),
                map (map (unembed M)) out))
    end.
Proof using All.
  intros Hn Hac Hmc. unfold base_model.
  rewrite cache_hook_enabled by done. cbv beta iota zeta.
  rewrite Hac, Hmc. cbn [app].
  pose proof (blocks_forward (n_layers self) 0 ltac:(lia)) as Hb.
  change (attn_trace M compressed tokens 0) with ([] : list (list (list (list V)))) in Hb.
  change (mlp_trace M tokens 0) with [embed M tokens] in Hb.
  change (base_stream M 0 tokens) with (embed M tokens) in Hb.
  cbn [n_layers with_caches].
  rewrite Hb, and_then_returned. cbn [fst snd Nat.add].
  unfold pruning_edge_final_hook_all_tokens. cbn [n_layers with_caches].
  pose proof (final_mlp_hook_forward n' Hn) as Hf. rewrite <- Hn in Hf. rewrite Hf.
  cbn [disable_hooks batch_size last_token_mask with_caches]. rewrite Hen.
  by destruct (_ ≫= _).
Qed.

End ForwardHooks.

(** ** The pass with all hooks disabled *)

Section DisabledPass.
Import Scalar Tensor Pruner Shapes Forward.
Context {V : Type} `{!VectorSpace V}.

Variable M : HookedTransformer V.

Lemma with_caches_eta (s : EdgePruner V) :
  with_caches s (attention_cache s) (mlp_cache s) = s.
Proof. by destruct s. Qed.

Lemma block_disabled (s : EdgePruner V) (l : nat) (resid : list (list V)) :
  disable_hooks s = true ->
  block M s l resid = ([], Returned (s, base_block M l resid)).
Proof.
  intros Hd. unfold block, pruning_edge_attention_hook_all_tokens,
    pruning_edge_mlp_hook_all_tokens, cache_hook_all_tokens.
  cbn [disable_hooks with_caches]. rewrite Hd. cbn [orb and_then app].
  destruct (cache_compressed_attn s); cbn [and_then app attention_cache mlp_cache with_caches];
    by rewrite !with_caches_eta.
Qed.

Lemma blocks_disabled (s : EdgePruner V) (layers : list nat) (resid : list (list V)) :
  disable_hooks s = true ->
  blocks M layers s resid
  = ([], Returned (s, foldl (fun r l => base_block M l r) resid layers)).
Proof.
  intros Hd. revert resid. induction layers as [|l layers IH]; intros resid; [done|].
  cbn [blocks foldl]. rewrite block_disabled by done. cbn [and_then fst snd].
  by rewrite IH.
Qed.

(** With the hooks disabled the pass is the base model: the final hook
    latches its last stream, and the caches are left alone. *)
Lemma base_model_disabled (s : EdgePruner V) (tokens : list (list nat)) :
  disable_hooks s = true ->
  base_model M s tokens
  = match latch (last_token_mask s) (base_stream M (n_layers s) tokens) with
    | None => ([], Raised RuntimeError)
    | Some out => ([], Returned (s, [map (unembed M) out]))
    end.
Proof.
  intros Hd. unfold base_model, cache_hook_all_tokens. rewrite Hd.
  rewrite with_caches_eta, blocks_disabled by done. cbn [and_then fst snd].
  unfold pruning_edge_final_hook_all_tokens, pruning_edge_mlp_hook_all_tokens.
  rewrite Hd. cbn [orb mbind option_bind mapM]. fold (base_stream M (n_layers s) tokens).
  by destruct (latch _ _).
Qed.

End DisabledPass.


(** ** The whole pass, every gate at one *)

Section ForwardPass.
Import Scalar Tensor Pruner Shapes Forward.

(** With every gate at one, [ablation_backward] off and outside parallel
    inference, the patched pass over a base model with [n_layers > 0]
    layers, started from empty caches on one sample per row, fills the
    caches with the activations of the base model and returns the
    unembedded latch of the last stream of the base model; the reference
    pass that [forward] runs afterwards with the hooks disabled returns
    the same output. *)
Theorem patched_pass_gates_one
    (V : Type) (VS : VectorSpace V) (M : HookedTransformer V) (self : EdgePruner V)
    (tokens : list (list nat)) (np : nat) :
  well_shaped M self tokens (batch_size self) (S np) ->
  sampled_mask self
  = constant_mask 1 (n_layers self) (batch_size self) (n_heads M) ->
  disable_hooks self = false ->
  disable_pruning_hooks self = false ->
  parallel_inference self = false ->
  ablation_backward self = false ->
  attention_cache self = [] ->
  mlp_cache self = [] ->
  n_layers self <> 0%nat ->
  batch_size self <> 0%nat ->
  let filled :=
    with_caches self
      (attn_trace M (cache_compressed_attn self) tokens (n_layers self))
      (mlp_trace M tokens (n_layers self)) in
  let out := latch (last_token_mask self) (base_stream M (n_layers self) tokens) in
  base_model M self tokens
  = match out with
    | None => ([], Raised RuntimeError)
    | Some o => ([], Returned (filled, [map (unembed M) o]))
    end /\
  base_model M (set_disable_hooks filled true) tokens
  = match out with
    | None => ([], Raised RuntimeError)
    | Some o => ([], Returned (set_disable_hooks filled true, [map (unembed M) o]))
    end.
Proof.
  intros Hws Hmask Hen Hpr Hpar Hab Hac Hmc Hn Hb.
  destruct (ws_modal_mlp _ _ _ _ _ Hws) as [mm Hmm].
  destruct (ws_modal_attention _ _ _ _ _ Hws) as [ma Hma].
  destruct (n_layers self) as [|n'] eqn:En; [done|]. rewrite <- En in *.
  intros filled out.
  split.
  - rewrite (base_model_forward M self tokens (batch_size self) np mm ma
               Hws Hmm Hma Hmask Hen Hpr Hpar Hab n' En Hac Hmc).
    rewrite unflatten_single; [|done|].
    + subst out filled. cbn [mbind option_bind mapM].
      by destruct (latch _ _).
    + destruct (base_stream_shape M self tokens _ _ Hws (n_layers self)) as [f ->].
      apply length_tab.
  - by rewrite base_model_disabled.
Qed.

(** The theorem on the example: a two-layer model with one head on the
    batch [[0; 1]], answer at position 1. *)
Lemma patched_pass_gates_one_witness :
  let self := pruner_example false false 0 0 [[0; 1]] (constant_mask 1 2 1 1) in
  let filled :=
    with_caches self (attn_trace model_example true [[0; 1]]%nat 2)
                     (mlp_trace model_example [[0; 1]]%nat 2) in
  let out := latch [[0; 1]] (base_stream model_example 2 [[0; 1]]%nat) in
  base_model model_example self [[0; 1]]%nat
  = match out with
    | None => ([], Raised RuntimeError)
    | Some o => ([], Returned (filled, [map (fun x => x) o]))
    end /\
  base_model model_example (set_disable_hooks filled true) [[0; 1]]%nat
  = match out with
    | None => ([], Raised RuntimeError)
    | Some o => ([], Returned (set_disable_hooks filled true, [map (fun x => x) o]))
    end.
Proof.
  apply (patched_pass_gates_one R real_vector_space model_example
           (pruner_example false false 0 0 [[0; 1]] (constant_mask 1 2 1 1))
           [[0; 1]]%nat 1); try reflexivity; try (cbn; lia).
  constructor.
  - by exists (fun _ p => INR p).
  - intros l x [f ->].
    change (has_shape3 1 2 1 (repeat_heads 1 (tab 1 (fun b => tab 2 (f b))))).
    rewrite repeat_heads_tab. apply has_shape3_tab.
  - intros l x [f ->].
    change (has_shape2 1 2 (map (map (fun y => 2 * y)) (tab 1 (fun b => tab 2 (f b))))).
    rewrite map_tab. exists (fun b p => 2 * f b p).
    apply tab_ext. intros b _. by rewrite map_tab.
  - reflexivity.
  - reflexivity.
  - by exists mm_example.
  - by exists ma_example.
Defined.

End ForwardPass.

(** ** The recording schedule of the training loop *)

Section ScheduleFacts.
Import Trainer.

Lemma py_mod_minus_one (n r : Z) :
  py_mod n (-1 * r) = Some (-1)%Z <-> (2 <= r)%Z /\ ((n + 1) mod r = 0)%Z.
Proof.
  unfold py_mod. replace (-1 * r)%Z with (- r)%Z by lia.
  destruct (- r =? 0)%Z eqn:E.
  - apply Z.eqb_eq in E. split; [done | lia].
  - apply Z.eqb_neq in E. split.
    + intros [= Hm].
      destruct (Z.lt_ge_cases 0 r) as [Hr | Hr].
      * pose proof (Z.mod_neg_bound n (- r) ltac:(lia)) as Hb.
        pose proof (Z.div_mod n (- r) E) as Hd.
        split; [lia|].
        replace (n + 1)%Z with ((- (n / - r)) * r)%Z by lia.
        apply Z.mod_mul. lia.
      * pose proof (Z.mod_pos_bound n (- r) ltac:(lia)). lia.
    + intros [Hr Hm]. f_equal. symmetry.
      apply (Z.mod_unique_neg n (- r) (- ((n + 1) / r))); [lia|].
      pose proof (Z.div_mod (n + 1) r ltac:(lia)). lia.
Qed.

Lemma plotting_true_mod (cfg : PruningCfg) (no_batches : Z) :
  plotting cfg no_batches = Some true
  <-> py_mod no_batches (-1 * record_every cfg) = Some (-1)%Z.
Proof.
  unfold plotting. destruct (py_mod _ _) as [m|]; simpl; [|done]. split.
  - intros [= Hm]. apply Z.eqb_eq in Hm. by subst.
  - intros [= ->]. reflexivity.
Qed.

(** A step is a recording step exactly when [record_every] is at least 2
    and divides the number of the step plus one.  With [record_every = 1]
    the remainder is always 0, never -1: no step records. *)
Theorem plotting_schedule (cfg : PruningCfg) (no_batches : Z) :
  plotting cfg no_batches = Some true
  <-> (2 <= record_every cfg)%Z /\ ((no_batches + 1) mod record_every cfg = 0)%Z.
Proof.
  rewrite plotting_true_mod. split.
  - intros H. by apply py_mod_minus_one.
  - intros H. by apply py_mod_minus_one.
Qed.

(** With [record_every] at least 2, a checkpointing step is a recording
    step: the numbered snapshot of an iteration is only taken together
    with the plain one. *)
Theorem checkpointing_implies_plotting (cfg : PruningCfg) (no_batches : Z) :
  (2 <= record_every cfg)%Z ->
  checkpointing cfg no_batches = Some true ->
  plotting cfg no_batches = Some true.
Proof.
  intros Hr Hc. apply plotting_true_mod, py_mod_minus_one. split; [done|].
  unfold checkpointing in Hc.
  replace (-1 * checkpoint_every cfg * record_every cfg)%Z
    with (-1 * (checkpoint_every cfg * record_every cfg))%Z in Hc by lia.
  destruct (py_mod _ _) as [m|] eqn:E; simpl in Hc; [|done].
  injection Hc as Hm. apply Z.eqb_eq in Hm. subst m.
  apply py_mod_minus_one in E as [Hcr Hm].
  apply Z.mod_divide in Hm; [|lia]. apply Z.mod_divide; [lia|].
  etrans; [|exact Hm]. by apply Z.divide_mul_r.
Qed.

Lemma checkpointing_implies_plotting_witness :
  (2 <= record_every cfg_example)%Z /\
  checkpointing cfg_example 499 = Some true /\
  plotting cfg_example 499 = Some true.
Proof.
  split; [cbn; lia|]. split; [reflexivity|].
  apply (checkpointing_implies_plotting cfg_example 499); [cbn; lia | reflexivity].
Defined.

Variable stat_sig_growth : LinePlot -> string -> option (R * R).
Variable train_step : Z -> LinePlot -> LinePlot.

(** When [record_every] is below 2 (recording on every step included), no
    step is a recording step, [early_term] is never called, and the loop
    never stops early: it runs until the batches are exhausted or an
    exception leaves it. *)
Theorem training_loop_never_stops_without_recording
    (cfg : PruningCfg) (log : LinePlot) :
  (record_every cfg < 2)%Z ->
  match snd (training_loop stat_sig_growth train_step cfg log) with
  | Stopped _ => False
  | Exhausted | Raised => True
  end.
Proof.
  intros Hr. unfold training_loop.
  destruct (run _ _ _ _ _) as [log' [n| |]] eqn:E; simpl; [|done|done].
  apply run_stopped in E as (_ & Hp & _).
  apply plotting_true_mod, py_mod_minus_one in Hp. lia.
Qed.

End ScheduleFacts.

Section ScheduleExamples.
Import Trainer.

Lemma training_loop_never_stops_without_recording_witness :
  (record_every cfg_every_step < 2)%Z /\
  match snd (training_loop growth_flat (fun _ log => log) cfg_every_step log_late) with
  | Stopped _ => False
  | Exhausted | Raised => True
  end.
Proof.
  split; [cbn; lia|].
  apply (training_loop_never_stops_without_recording
           growth_flat (fun _ log => log) cfg_every_step log_late).
  cbn. lia.
Defined.

End ScheduleExamples.

(** ** More on the hard-concrete sampler *)

Section SamplerOrder.
Import Scalar Sampler.

Lemma clamp_monotone (lo hi x y : R) : x <= y -> clamp lo hi x <= clamp lo hi y.
Proof.
  intros Hxy. unfold clamp, Rmin, Rmax. repeat destruct (Rle_dec _ _); lra.
Qed.

Lemma stretch_monotone (endpts : R * R) (c d : R) :
  fst endpts <= snd endpts -> c <= d ->
  clamp 0 1 ((c + fst endpts) * (snd endpts - fst endpts))
  <= clamp 0 1 ((d + fst endpts) * (snd endpts - fst endpts)).
Proof.
  intros He Hcd. apply clamp_monotone. apply Rmult_le_compat_r; lra.
Qed.


Lemma ln_monotone (x y : R) : 0 < x -> x <= y -> ln x <= ln y.
Proof.
  intros Hx [Hlt | ->]; [left; by apply ln_increasing | right; reflexivity].
Qed.

Lemma concrete_monotone_noise (u v : R) (p : param) :
  0 <= u -> u <= v -> v < 1 -> concrete u p <= concrete v p.
Proof.
  intros Hu Huv Hv. unfold concrete.
  apply sigmoid_monotone. pose proof (relu_nonneg (sharpness p)).
  apply Rmult_le_compat_r; [left; apply Rinv_0_lt_compat; lra|].
  unfold log.
  pose proof (ln_monotone (0.001 + u) (0.001 + v) ltac:(lra) ltac:(lra)).
  pose proof (ln_monotone (1 - v) (1 - u) ltac:(lra) ltac:(lra)).
  lra.
Qed.



(** Larger noise never gives a smaller gate: each sampled gate is
    non-decreasing in its uniform draw on [[0,1)]. *)
Theorem sample_hard_concrete_monotone_in_noise
    (cfg : PruningCfg) (unif_a unif_b : list (list R)) (sampling_params : list param) :
  fst (hard_concrete_endpoints cfg) <= snd (hard_concrete_endpoints cfg) ->
  Forall2 (Forall2 (fun u v => 0 <= u /\ u <= v /\ v < 1)) unif_a unif_b ->
  Forall2 (Forall2 Rle) (sample_hard_concrete cfg unif_a sampling_params)
                        (sample_hard_concrete cfg unif_b sampling_params).
Proof.
  intros He Hab. unfold sample_hard_concrete.
  apply Forall2_fmap. eapply Forall2_impl; [exact Hab|].
  intros ra rb Hrow. cbn beta. clear Hab.
  revert sampling_params.
  induction Hrow as [|u v ra rb (Hu & Huv & Hv) _ IH]; intros [|p ps];
    cbn [zip_with]; try constructor.
  - unfold hard_concrete. by apply stretch_monotone, concrete_monotone_noise.
  - apply IH.
Qed.

Lemma sample_hard_concrete_monotone_in_noise_witness :
  Forall2 (Forall2 Rle)
    (sample_hard_concrete cfg_example [[0.25; 0]] [(0, 2/3); (-3, 0)])
    (sample_hard_concrete cfg_example [[0.5; 0.75]] [(0, 2/3); (-3, 0)]).
Proof.
  apply (sample_hard_concrete_monotone_in_noise cfg_example [[0.25; 0]] [[0.5; 0.75]]
           [(0, 2/3); (-3, 0)]).
  - cbn. lra.
  - repeat constructor; lra.
Defined.



End SamplerOrder.

(** ** The complexity penalty: when it is defined, and its range *)

Section ComplexityFacts.
Import Scalar Sampler.

(** [complexity_loss] returns exactly when [endpts[1]] is not zero and the
    ratio [-endpts[0]/endpts[1]] is positive; otherwise the division or
    [math.log] raises.  When it returns there is one entry per edge; an
    entry is a real of [[0,1]] or [NaN], it lies strictly between 0 and 1
    when location and sharpness of the edge are real, and it is [NaN] when
    one of them is [NaN]. *)
Theorem complexity_loss_defined_and_range
    (cfg : PruningCfg) (sampling_params : list SamplerExt.param) :
  let endpts := hard_concrete_endpoints cfg in
  (is_Some (SamplerExt.complexity_loss cfg sampling_params)
   <-> snd endpts <> 0 /\ 0 < - fst endpts / snd endpts) /\
  (forall loss, SamplerExt.complexity_loss cfg sampling_params = Some loss ->
     Forall2 (fun p x =>
                (x = Float.NaN \/ SamplerExt.in_unit_interval x) /\
                (Params.pair_finite p = true ->
                 exists r, x = Float.Fin r /\ 0 < r < 1) /\
                (Params.pair_nan_free p = false -> x = Float.NaN))
             sampling_params loss).
Proof.
  intros endpts. split.
  - unfold SamplerExt.complexity_loss, log_endpoint_ratio, py_div, math_log.
    fold endpts.
    destruct (Req_dec_T (snd endpts) 0) as [E|E]; cbn.
    + split; [by intros [? ?] | by intros [? _]].
    + destruct (Rlt_dec 0 (- fst endpts / snd endpts)) as [L|L]; cbn.
      * split; [done | by eexists].
      * split; [by intros [? ?] | by intros [_ ?]].
  - intros loss. unfold SamplerExt.complexity_loss.
    destruct (log_endpoint_ratio cfg) as [c|]; cbn [mbind option_bind]; [|done].
    intros [= <-]. apply Forall2_fmap_r, Forall_Forall2_diag, Forall_forall.
    intros [l s] _. unfold compose, MaskLoss.complexity_entry. cbn [fst snd].
    split; [|split].
    + destruct (Float.fsub l (Float.fmul (Float.frelu s) (Float.Fin c)))
        as [r| | |]; cbn [Float.fsigmoid]; [right | right | right | by left].
      * exists (sigmoid r). split; [done|].
        pose proof (sigmoid_pos r). pose proof (sigmoid_lt_1 r). lra.
      * exists 1. split; [done | lra].
      * exists 0. split; [done | lra].
    + destruct l as [l| | |], s as [s| | |]; try done. intros _.
      eexists. split; [reflexivity|].
      split; [apply sigmoid_pos | apply sigmoid_lt_1].
    + destruct l as [l| | |], s as [s| | |]; try done; intros _; cbn;
        unfold Float.inf_times; by repeat destruct (Rlt_dec _ _).
Qed.



End ComplexityFacts.

(** ** Per-call set-up and the answer position *)

Section SetupFacts.
Import Scalar Tensor Pruner Shapes.
Context {V : Type} `{!VectorSpace V}.

Lemma norm_index_in_range (len : nat) (i : Z) :
  (- Z.of_nat len <= i < Z.of_nat len)%Z ->
  norm_index len i = Some (Z.to_nat (i mod Z.of_nat len)) /\
  (Z.to_nat (i mod Z.of_nat len) < len)%nat.
Proof.
  intros Hi. split.
  - unfold norm_index. case_decide as H1.
    + by rewrite Z.mod_small.
    + rewrite decide_True by lia. do 2 f_equal.
      apply (Z.mod_unique_pos i (Z.of_nat len) (-1)); lia.
  - pose proof (Z.mod_pos_bound i (Z.of_nat len) ltac:(lia)). lia.
Qed.

Lemma norm_index_out_of_range (len : nat) (i : Z) :
  (i < - Z.of_nat len \/ Z.of_nat len <= i)%Z -> norm_index len i = None.
Proof.
  intros Hi. unfold norm_index. by rewrite !decide_False by lia.
Qed.

End SetupFacts.

Section SetupTheorems.
Import Scalar Tensor Pruner Shapes.

(** [setup_inference] on a batch of [nb] rows of [np] tokens, with answer
    positions between [-np] and [np - 1]: both caches are emptied and the
    last-token mask is one-hot at the answer position of every row, a
    negative position counting from the end.  With the hooks disabled, the
    final hook then returns, for every row, the activation at its answer
    position. *)
Theorem setup_inference_answer_positions
    (V T : Type) (VS : VectorSpace V) (self : EdgePruner V)
    (nb np : nat) (tok : nat -> nat -> T) (pos : nat -> Z) :
  (forall b, (b < nb)%nat -> (- Z.of_nat np <= pos b < Z.of_nat np)%Z) ->
  let answer b := Z.to_nat (pos b mod Z.of_nat np) in
  exists self',
    setup_inference self (tab nb (fun b => tab np (tok b))) (tab nb pos) = Some self' /\
    attention_cache self' = [] /\ mlp_cache self' = [] /\
    last_token_mask self' = one_hot_mask nb np answer /\
    forall x : nat -> nat -> V,
      pruning_edge_final_hook_all_tokens (set_disable_hooks self' true)
        (tab nb (fun b => tab np (x b)))
      = ([], Returned [tab nb (fun b => x b (answer b))]).
Proof.
  intros Hpos answer. unfold setup_inference.
  rewrite zip_bc_tab. cbn [mbind option_bind].
  rewrite (mapM_tab _ nb _
             (fun b => tab np (fun j => if decide (j = answer b) then 1 else 0))).
  2:{ intros b Hb. cbn [fst snd]. rewrite length_tab.
      destruct (norm_index_in_range np (pos b) (Hpos b Hb)) as [-> _]. done. }
  eexists. split; [reflexivity|]. split; [reflexivity|]. split; [reflexivity|].
  split; [reflexivity|]. intros x.
  rewrite final_hook_disabled. cbn [last_token_mask].
  change (tab nb (fun b => tab np (fun j => if decide (j = answer b) then 1 else 0)))
    with (@one_hot_mask nb np answer).
  rewrite latch_one_hot; [done|].
  intros b Hb. by destruct (norm_index_in_range np (pos b) (Hpos b Hb)).
Qed.

Lemma setup_inference_answer_positions_witness :
  exists self',
    setup_inference (pruner_example false false 2 2 [] (mask_example 1))
      (tab 1 (fun b => tab 2 (fun p => p))) (tab 1 (fun _ => (-1)%Z)) = Some self' /\
    attention_cache self' = [] /\ mlp_cache self' = [] /\
    last_token_mask self' = one_hot_mask 1 2 (fun _ => Z.to_nat (-1 mod 2)) /\
    forall x : nat -> nat -> R,
      pruning_edge_final_hook_all_tokens (set_disable_hooks self' true)
        (tab 1 (fun b => tab 2 (x b)))
      = ([], Returned [tab 1 (fun b => x b (Z.to_nat (-1 mod 2)))]).
Proof.
  apply (setup_inference_answer_positions R nat real_vector_space
           (pruner_example false false 2 2 [] (mask_example 1))
           1 2 (fun b p => p) (fun _ => (-1)%Z)).
  intros b Hb. cbn. lia.
Defined.

(** An answer position outside [-np .. np-1] in some row makes
    [setup_inference] raise: the indexed assignment is out of range. *)
Theorem setup_inference_out_of_range
    (V T : Type) (VS : VectorSpace V) (self : EdgePruner V)
    (nb np : nat) (tok : nat -> nat -> T) (pos : nat -> Z) (b : nat) :
  (b < nb)%nat ->
  (pos b < - Z.of_nat np \/ Z.of_nat np <= pos b)%Z ->
  setup_inference self (tab nb (fun b => tab np (tok b))) (tab nb pos) = None.
Proof.
  intros Hb Hout. unfold setup_inference.
  rewrite zip_bc_tab. cbn [mbind option_bind].
  rewrite (proj2 (mapM_None _ _)); [done|].
  apply Exists_exists. exists (tab np (tok b), pos b). split.
  - apply list_elem_of_lookup. exists b. by rewrite lookup_tab.
  - cbn [fst snd]. rewrite length_tab. by rewrite norm_index_out_of_range.
Qed.

Lemma setup_inference_out_of_range_witness :
  setup_inference (pruner_example false false 2 2 [] (mask_example 1))
    (tab 1 (fun b => tab 2 (fun p => p))) (tab 1 (fun _ => 2%Z)) = None.
Proof.
  apply (setup_inference_out_of_range R nat real_vector_space
           (pruner_example false false 2 2 [] (mask_example 1))
           1 2 (fun b p => p) (fun _ => 2%Z) 0); [lia | cbn; lia].
Defined.

End SetupTheorems.

(** ** The line-plot log *)

Section LinePlotFacts.
Import TrainingUtils.

Lemma append_entries_ok (entry : gmap string R) (book : list (string * list R)) :
  Forall (fun item => is_Some (appended entry (fst item) (snd item))) book ->
  exists book',
    append_entries entry book = (book', None) /\
    Forall2 (fun old new =>
               fst new = fst old /\
               exists v, appended entry (fst old) (snd old) = Some v /\
                         snd new = snd old ++ [v]) book book'.
Proof.
  induction 1 as [|[k series] book [v Hv] _ (book' & IH & Hall)].
  - exists []. by split.
  - exists ((k, series ++ [v]) :: book'). cbn [append_entries].
    unfold appended in Hv. cbn [fst snd] in Hv. rewrite Hv, IH. split; [done|].
    constructor; [|done]. split; [done|]. by exists v.
Qed.

Lemma append_entries_error (entry : gmap string R)
    (pre rest : list (string * list R)) (k : string) :
  Forall (fun item => is_Some (appended entry (fst item) (snd item))) pre ->
  entry !! k = None ->
  exists pre',
    append_entries entry (pre ++ (k, []) :: rest)
    = (pre' ++ (k, []) :: rest, Some IndexError) /\
    Forall2 (fun old new =>
               fst new = fst old /\
               exists v, appended entry (fst old) (snd old) = Some v /\
                         snd new = snd old ++ [v]) pre pre'.
Proof.
  intros Hpre Hk. induction Hpre as [|[k' series] pre [v Hv] _ (pre' & IH & Hall)].
  - exists []. cbn [app append_entries]. rewrite Hk. by split.
  - exists ((k', series ++ [v]) :: pre'). cbn [app append_entries].
    unfold appended in Hv. cbn [fst snd] in Hv. rewrite Hv, IH. split; [done|].
    constructor; [|done]. split; [done|]. by exists v.
Qed.

Lemma append_entries_raises (entry : gmap string R) (book : list (string * list R)) :
  forall book' e, append_entries entry book = (book', Some e) -> e = IndexError.
Proof.
  induction book as [|[k series] book IH]; intros book' e; cbn [append_entries].
  - done.
  - destruct (match entry !! k with Some v => Some v | None => last series end).
    + destruct (append_entries entry book) as [bk [e'|]] eqn:E; intros [= <- <-].
      by eapply IH.
    + by intros [= <- <-].
Qed.

Lemma append_entries_missing (entry : gmap string R)
    (pre rest : list (string * list R)) (k : string) :
  entry !! k = None ->
  snd (append_entries entry (pre ++ (k, []) :: rest)) <> None.
Proof.
  intros Hk. induction pre as [|[k0 s0] pre IH]; cbn [app append_entries].
  - by rewrite Hk.
  - destruct (match entry !! k0 with Some v => Some v | None => last s0 end); [|done].
    by destruct (append_entries entry (pre ++ (k, []) :: rest)) as [bk [e|]].
Qed.

Lemma empty_book_spec (cols : list string) :
  Forall (fun item => snd item = []) (empty_book cols) /\
  forall k, k ∈ map fst (empty_book cols) <-> k ∈ cols.
Proof.
  unfold empty_book.
  assert (forall acc : list (string * list R),
            Forall (fun item => snd item = []) acc ->
            Forall (fun item => snd item = [])
              (foldl (fun book x => if decide (x ∈ map fst book) then book
                                    else book ++ [(x, [])]) acc cols) /\
            forall k, k ∈ map fst
                (foldl (fun book x => if decide (x ∈ map fst book) then book
                                      else book ++ [(x, [])]) acc cols)
              <-> k ∈ map fst acc \/ k ∈ cols) as H.
  { induction cols as [|x cols IH]; intros acc Hacc; cbn [foldl].
    - split; [done|]. intros k. rewrite elem_of_nil. tauto.
    - case_decide as Hx.
      + destruct (IH acc Hacc) as [H1 H2]. split; [done|]. intros k.
        rewrite H2, elem_of_cons. split; [tauto|]. intros [?|[->|?]]; tauto.
      + destruct (IH (acc ++ [(x, [])])) as [H1 H2].
        { apply Forall_app. split; [done|]. by constructor. }
        split; [done|]. intros k.
        rewrite H2, map_app, elem_of_app, elem_of_cons. cbn.
        rewrite list_elem_of_singleton. tauto. }
  destruct (H [] ltac:(constructor)) as [H1 H2]. split; [done|].
  intros k. rewrite H2. cbn. rewrite elem_of_nil. tauto.
Qed.

(** The first entry of a fresh log must give every column: [add_entry]
    on a log just initialised for the columns [cols] returns normally
    exactly when every column is a key of the entry, and then one entry is
    counted; otherwise it raises [IndexError] (the flat-line default reads
    the last value of an empty series) and no entry is counted. *)
Theorem add_entry_first_entry (cols : list string) (entry : gmap string R) :
  let after := add_entry (init___ cols) entry in
  (snd after = None <-> Forall (fun k => is_Some (entry !! k)) cols) /\
  (snd after = None -> t (fst after) = 1%Z) /\
  (snd after <> None -> snd after = Some IndexError /\ t (fst after) = 0%Z).
Proof.
  intros after. subst after. unfold add_entry, init___. cbn [stat_book t stat_list].
  destruct (empty_book_spec cols) as [Hempty Hkeys].
  destruct (append_entries entry (empty_book cols)) as [book' [e|]] eqn:E;
    cbn [fst snd t].
  - split; [|split; [done|]].
    + split; [done|]. intros Hall. exfalso.
      destruct (append_entries_ok entry (empty_book cols)) as (b & Hb & _);
        [|congruence].
      apply Forall_forall. intros [k series] Hin. cbn [fst snd].
      unfold appended.
      assert (k ∈ cols) as Hk.
      { apply Hkeys. apply list_elem_of_fmap. by exists (k, series). }
      rewrite Forall_forall in Hall. destruct (Hall k Hk) as [v ->]. by eexists.
    + intros _. split; [|done]. f_equal. by eapply append_entries_raises.
  - split; [|split; [done|done]].
    split; [|done]. intros _. apply Forall_forall. intros k Hk.
    apply Hkeys, list_elem_of_fmap in Hk as ([k' series] & -> & Hin). cbn [fst].
    destruct (entry !! k') as [v|] eqn:Ek; [by eexists|]. exfalso.
    apply list_elem_of_split in Hin as (pre & rest & Hsplit).
    assert (series = []) as ->.
    { rewrite Forall_forall in Hempty. apply (Hempty (k', series)).
      rewrite Hsplit. apply elem_of_app. right. by left. }
    pose proof (append_entries_missing entry pre rest k' Ek) as Hm.
    rewrite <- Hsplit, E in Hm. by apply Hm.
Qed.

(** [add_entry] keeps the series aligned.  On a log with at least one entry
    whose series all hold [t] values, [add_entry] returns normally for any
    entry, counts one more entry, keeps the columns and their order, and
    extends every series by one value: the value of the entry for a column
    it gives, the last value of the series for a column it lacks; keys of
    the entry that are not columns are ignored. *)
Theorem add_entry_keeps_aligned (self : LinePlot) (entry : gmap string R) :
  aligned self -> (1 <= t self)%Z ->
  exists self',
    add_entry self entry = (self', None) /\
    aligned self' /\ t self' = (t self + 1)%Z /\
    Forall2 (fun old new =>
               fst new = fst old /\
               exists v, appended entry (fst old) (snd old) = Some v /\
                         snd new = snd old ++ [v])
            (stat_book self) (stat_book self').
Proof.
  intros Hal Ht. unfold add_entry.
  destruct (append_entries_ok entry (stat_book self)) as (book' & -> & Hall).
  { eapply Forall_impl; [exact Hal|]. intros [k series] Hlen. cbn [fst snd] in *.
    unfold appended. destruct (entry !! k); [by eexists|].
    destruct series as [|x series _] using rev_ind; [cbn in Hlen; lia|].
    rewrite last_snoc. by eexists. }
  eexists. split; [reflexivity|]. cbn [stat_book t]. split; [|split; [done|done]].
  unfold aligned. cbn [stat_book t].
  unfold aligned in Hal. clear Ht.
  induction Hall as [|old new book book' (_ & v & _ & Hnew) _ IH]; [constructor|].
  apply Forall_cons in Hal as [Hold Hal]. constructor; [|by apply IH].
  rewrite Hnew, length_app. cbn. lia.
Qed.

Lemma add_entry_keeps_aligned_witness :
  exists self',
    add_entry log_two_columns entry_kl = (self', None) /\
    aligned self' /\ t self' = (t log_two_columns + 1)%Z /\
    Forall2 (fun old new =>
               fst new = fst old /\
               exists v, appended entry_kl (fst old) (snd old) = Some v /\
                         snd new = snd old ++ [v])
            (stat_book log_two_columns) (stat_book self').
Proof.
  apply (add_entry_keeps_aligned log_two_columns entry_kl).
  - repeat constructor.
  - cbn. lia.
Defined.

(** A failed [add_entry] leaves the log out of step.  When the entry lacks
    a column whose series is empty, the call raises [IndexError]; the
    series of the columns before it have already been extended, and [t]
    is not incremented. *)
Theorem add_entry_partial_update
    (self : LinePlot) (entry : gmap string R)
    (pre rest : list (string * list R)) (k : string) :
  stat_book self = pre ++ (k, []) :: rest ->
  entry !! k = None ->
  Forall (fun item => is_Some (appended entry (fst item) (snd item))) pre ->
  exists pre',
    add_entry self entry
    = ({| stat_list := stat_list self;
          stat_book := pre' ++ (k, []) :: rest;
          t := t self |}, Some IndexError) /\
    Forall2 (fun old new =>
               fst new = fst old /\ length (snd new) = S (length (snd old)))
            pre pre'.
Proof.
  intros Hbook Hk Hpre. unfold add_entry. rewrite Hbook.
  destruct (append_entries_error entry pre rest k Hpre Hk) as (pre' & -> & Hall).
  exists pre'. split; [done|].
  eapply Forall2_impl; [exact Hall|].
  intros old new (Hf & v & _ & ->). split; [done|].
  rewrite length_app. cbn. lia.
Qed.

Lemma add_entry_partial_update_witness :
  exists pre',
    add_entry log_fresh entry_kl
    = ({| stat_list := stat_list log_fresh;
          stat_book := pre' ++ ("temp"%string, []) :: [];
          t := t log_fresh |}, Some IndexError) /\
    Forall2 (fun old new =>
               fst new = fst old /\ length (snd new) = S (length (snd old)))
            [("kl_loss"%string, [] : list R)] pre'.
Proof.
  apply (add_entry_partial_update log_fresh entry_kl
           [("kl_loss"%string, [] : list R)] [] "temp"%string).
  - reflexivity.
  - reflexivity.
  - repeat constructor. by exists 3.
Defined.

End LinePlotFacts.


(** ** The last-token hooks *)

Section LastTokenFacts.
Import TrainingUtils.
Context {A : Type}.

Lemma broadcast_to_length (n : nat) (repl rs : list A) :
  broadcast_to n repl = Some rs -> length rs = n.
Proof.
  unfold broadcast_to. case_decide as H; [by intros [= <-]|].
  destruct repl as [|r [|? ?]]; try done. intros [= <-]. apply length_replicate.
Qed.

Lemma set_last_rows (rs : list A) (act : list (list A)) :
  length rs = length act ->
  Forall (fun row => row <> []) act ->
  exists act',
    mapM (fun rr => set_last (fst rr) (snd rr)) (zip rs act) = Some act' /\
    mapM last act' = Some rs /\
    Forall2 (fun row row' =>
               length row' = length row /\ removelast row' = removelast row)
            act act'.
Proof.
  revert rs. induction act as [|row act IH]; intros [|r rs] Hlen Hne; try done.
  - exists []. by repeat split.
  - apply Forall_cons in Hne as [Hrow Hne].
    destruct (IH rs ltac:(cbn in Hlen; lia) Hne) as (act' & H1 & H2 & H3).
    destruct (exists_last Hrow) as (init & x & ->).
    exists ((init ++ [r]) :: act'). cbn [zip zip_with mapM fst snd].
    assert (set_last r (init ++ [x]) = Some (init ++ [r])) as ->.
    { unfold set_last. rewrite removelast_last. by destruct init. }
    cbn [mbind option_bind]. rewrite H1. cbn [mbind option_bind mret option_ret].
    split; [done|]. split.
    + rewrite last_snoc. cbn [mbind option_bind]. by rewrite H2.
    + constructor; [|done]. rewrite !length_app, !removelast_last. done.
Qed.

(** Replacing the last position and then saving it gives the replacement
    back.  On activations whose rows are not empty and a replacement that
    broadcasts along the batch axis, [ablation_all_hook_last_token]
    returns a tensor of the same shape that agrees with the incoming one
    at every position but the last, and [save_hook_last_token] on the
    result appends exactly the (broadcast) replacement. *)
Theorem ablation_then_save_last_token
    (repl rs : list A) (act : list (list A)) (save_to : list (list A)) :
  broadcast_to (length act) repl = Some rs ->
  Forall (fun row => row <> []) act ->
  exists act',
    ablation_all_hook_last_token repl act = Some act' /\
    save_hook_last_token save_to act' = Some (save_to ++ [rs]) /\
    Forall2 (fun row row' =>
               length row' = length row /\ removelast row' = removelast row)
            act act'.
Proof.
  intros Hb Hne. unfold ablation_all_hook_last_token, save_hook_last_token,
    last_position. rewrite Hb. cbn [mbind option_bind].
  destruct (set_last_rows rs act (broadcast_to_length _ _ _ Hb) Hne)
    as (act' & H1 & H2 & H3).
  exists act'. rewrite H1, H2. by repeat split.
Qed.

(** A row without positions makes both hooks raise. *)
Theorem last_token_hooks_empty_row
    (repl : list A) (act : list (list A)) (save_to : list (list A)) :
  [] ∈ act ->
  length repl = length act ->
  save_hook_last_token save_to act = None /\
  ablation_all_hook_last_token repl act = None.
Proof.
  intros Hin Hlen. split.
  - unfold save_hook_last_token, last_position.
    rewrite (proj2 (mapM_None _ _)); [done|].
    apply Exists_exists. by exists [].
  - unfold ablation_all_hook_last_token, broadcast_to.
    rewrite decide_True by done. cbn [mbind option_bind].
    apply mapM_None, Exists_exists.
    apply list_elem_of_lookup in Hin as [i Hi].
    destruct (lookup_lt_is_Some_2 repl i) as [r Hr].
    { rewrite Hlen. by eapply lookup_lt_Some. }
    exists (r, []). split; [|done].
    apply list_elem_of_lookup. exists i. rewrite lookup_zip_with, Hr. cbn.
    by rewrite Hi.
Qed.

End LastTokenFacts.

Section LastTokenExamples.
Import TrainingUtils.

Lemma ablation_then_save_last_token_witness :
  exists act',
    ablation_all_hook_last_token [7] [[1; 2]; [3; 4]] = Some act' /\
    save_hook_last_token [] act' = Some ([] ++ [[7; 7]]) /\
    Forall2 (fun row row' =>
               length row' = length row /\ removelast row' = removelast row)
            [[1; 2]; [3; 4]] act'.
Proof.
  apply (ablation_then_save_last_token [7] [7; 7] [[1; 2]; [3; 4]] []).
  - reflexivity.
  - by repeat constructor.
Defined.

Lemma last_token_hooks_empty_row_witness :
  save_hook_last_token [] [[]; [] : list R] = None /\
  ablation_all_hook_last_token [7; 8] [[]; []] = None.
Proof.
  apply (last_token_hooks_empty_row [7; 8] [[]; []] []).
  - apply list_elem_of_here.
  - reflexivity.
Defined.

End LastTokenExamples.

(** ** The metrics of the mask loss on real parameters *)

Section RealSums.
Import Float.

Lemma fsum_Fin (l : list R) : fsum (map Fin l) = Fin (foldr Rplus 0 l).
Proof.
  unfold fsum. induction l as [|x l IH]; [done|]. cbn [map foldr]. by rewrite IH.
Qed.

Lemma fmean_Fin (l : list R) :
  l <> [] -> fmean (map Fin l) = Fin (foldr Rplus 0 l / INR (length l)).
Proof.
  intros Hne. unfold fmean, of_count. rewrite fsum_Fin, length_map. cbn [fdiv].
  destruct (Req_dec_T (INR (length l)) 0) as [E|_]; [|done].
  destruct l; [done|]. cbn [length] in E. pose proof (pos_INR (length l)).
  rewrite S_INR in E. lra.
Qed.

Lemma sum_lower (a : R) (l : list R) :
  Forall (fun x => a <= x) l -> a * INR (length l) <= foldr Rplus 0 l.
Proof.
  induction 1 as [|x l Hx _ IH]; cbn [foldr length]; [cbn; lra|].
  rewrite S_INR. lra.
Qed.

Lemma sum_upper_strict (b : R) (l : list R) :
  l <> [] -> Forall (fun x => x < b) l -> foldr Rplus 0 l < b * INR (length l).
Proof.
  intros Hne H. induction H as [|x l Hx Hl IH]; [done|].
  cbn [foldr length]. rewrite S_INR.
  destruct l as [|y l]; [cbn; lra|]. specialize (IH ltac:(done)). lra.
Qed.

Lemma mean_bounds (a b : R) (l : list R) :
  l <> [] -> Forall (fun x => a <= x < b) l ->
  a <= foldr Rplus 0 l / INR (length l) < b.
Proof.
  intros Hne H.
  assert (0 < INR (length l)) as Hn.
  { destruct l; [done|]. cbn [length]. rewrite S_INR.
    pose proof (pos_INR (length l)). lra. }
  pose proof (sum_lower a l ltac:(eapply Forall_impl; [exact H|]; cbn; intros; lra)).
  pose proof (sum_upper_strict b l Hne
                ltac:(eapply Forall_impl; [exact H|]; cbn; intros; lra)).
  split.
  - apply Rmult_le_reg_r with (INR (length l)); [done|].
    unfold Rdiv. rewrite Rmult_assoc, Rinv_l by lra. lra.
  - apply Rmult_lt_reg_r with (INR (length l)); [done|].
    unfold Rdiv. rewrite Rmult_assoc, Rinv_l by lra. lra.
Qed.

Lemma mean_nonneg (l : list R) :
  l <> [] -> Forall (fun x => 0 <= x) l -> 0 <= foldr Rplus 0 l / INR (length l).
Proof.
  intros Hne H. pose proof (sum_lower 0 l H).
  assert (0 < INR (length l)).
  { destruct l; [done|]. cbn [length]. rewrite S_INR.
    pose proof (pos_INR (length l)). lra. }
  apply Rmult_le_reg_r with (INR (length l)); [done|].
  unfold Rdiv. rewrite Rmult_assoc, Rinv_l by lra. lra.
Qed.

Lemma finite_pairs (ps : list (fval * fval)) :
  Forall (fun p => Params.pair_finite p = true) ps ->
  exists qs : list (R * R), ps = map (fun q => (Fin (fst q), Fin (snd q))) qs.
Proof.
  induction 1 as [|[l s] ps Hp _ [qs ->]]; [by exists []|].
  unfold Params.pair_finite in Hp. cbn [fst snd] in Hp.
  destruct l as [l| | |], s as [s| | |]; try done.
  by exists ((l, s) :: qs).
Qed.

End RealSums.

Section MetricFacts.
Import Scalar Float Params MaskLoss.

Lemma sigmoid_half (x : R) : 0 <= x -> 1 / 2 <= sigmoid x.
Proof.
  intros Hx. replace (1 / 2) with (sigmoid 0).
  - by apply sigmoid_monotone.
  - unfold sigmoid. rewrite Ropp_0, exp_0. lra.
Qed.

(** On at least one edge and real parameters, with non-negative weights
    [lamb] and [temp_c], [get_mask_loss] returns a real, non-negative
    loss; the reported average temperature is a non-negative real, the
    reported [temp_count] lies in [[0,1)], and the reported complexity is
    positive and below the number of edges (below 1 when the mean is
    reported). *)
Theorem get_mask_loss_metric_ranges
    (cfg : PruningCfg) (self : MaskSampler) (c : R) (ps : list (fval * fval)) :
  Sampler.log_endpoint_ratio cfg = Some c ->
  0 <= lamb cfg -> 0 <= temp_c self ->
  get_sampling_params (sampling_params self) = Some ps ->
  ps <> [] ->
  Forall (fun p => pair_finite p = true) ps ->
  exists (m a k x : R) (details : gmap string fval),
    get_mask_loss cfg self = Some (Fin m, details) /\ 0 <= m /\
    details !! "temp"%string = Some (Fin a) /\ 0 <= a /\
    details !! "temp_count"%string = Some (Fin k) /\ 0 <= k < 1 /\
    details !! "complexity_loss"%string = Some (Fin x) /\ 0 < x /\
    x < (if complexity_mean self then 1 else INR (length ps)).
Proof.
  intros Hc Hl Ht Hps Hne Hfin. unfold get_mask_loss.
  rewrite Hps, Hc. cbn [mbind option_bind]. clear Hps.
  destruct (finite_pairs _ Hfin) as [qs Hqs]. rewrite Hqs in *. clear Hfin Hqs.
  assert (qs <> []) as Hq by (by destruct qs).
  rewrite !map_map. cbn [fst snd].
  set (cx := map (fun q => sigmoid (fst q - relu (snd q) * c)) qs).
  set (sq := map (fun q => snd q * snd q) qs).
  set (rl := map (fun q => relu (snd q)) qs).
  set (tc := map (fun q => 2 * sigmoid (relu (snd q)) - 1) qs).
  assert (map (fun q : R * R => complexity_entry c (Fin (fst q), Fin (snd q))) qs
          = map Fin cx) as -> by (unfold cx; by rewrite map_map).
  assert (map (fun q : R * R => fsquare (Fin (snd q))) qs = map Fin sq) as ->
    by (unfold sq; by rewrite map_map).
  assert (map (fun q : R * R => frelu (Fin (snd q))) qs = map Fin rl) as ->
    by (unfold rl; by rewrite map_map).
  assert (map (fun q : R * R =>
                 fsub (fmul (Fin 2) (fsigmoid (frelu (Fin (snd q))))) (Fin 1)) qs
          = map Fin tc) as ->.
  { unfold tc. by rewrite map_map. }
  assert (cx <> [] /\ rl <> [] /\ tc <> []) as (Hcx & Hrl & Htc)
    by (unfold cx, rl, tc; by destruct qs).
  assert (Forall (fun x => 0 < x < 1) cx) as Bcx.
  { apply Forall_map, Forall_forall. intros q _. cbn.
    split; [apply sigmoid_pos | apply sigmoid_lt_1]. }
  assert (Forall (fun x => 0 <= x) sq) as Bsq.
  { apply Forall_map, Forall_forall. intros q _. cbn. nra. }
  assert (Forall (fun x => 0 <= x) rl) as Brl.
  { apply Forall_map, Forall_forall. intros q _. cbn. apply relu_nonneg. }
  assert (Forall (fun x => 0 <= x < 1) tc) as Btc.
  { apply Forall_map, Forall_forall. intros q _. cbn.
    pose proof (sigmoid_half (relu (snd q)) (relu_nonneg _)).
    pose proof (sigmoid_lt_1 (relu (snd q))). lra. }
  rewrite !fsum_Fin, !fmean_Fin by done. cbn [fmul fadd].
  pose proof (sum_lower 0 sq Bsq) as S2.
  pose proof (sum_lower 0 cx
                ltac:(eapply Forall_impl; [exact Bcx|]; cbn; intros; lra)) as S1.
  pose proof (sum_upper_strict 1 cx Hcx
                ltac:(eapply Forall_impl; [exact Bcx|]; cbn; intros; lra)) as S1u.
  assert (0 < foldr Rplus 0 cx) as S1p.
  { destruct cx as [|x0 cx']; [done|]. apply Forall_cons in Bcx as [Hx0 Bcx'].
    cbn [foldr].
    pose proof (sum_lower 0 cx'
                  ltac:(eapply Forall_impl; [exact Bcx'|]; cbn; intros; lra)). lra. }
  assert (length cx = length qs) as Lcx by (unfold cx; by rewrite length_map).
  destruct (complexity_mean self) eqn:Ecm.
  all: eexists _, _, _, _, _; (split; [reflexivity|]).
  all: split; [nra|].
  all: split; [by simplify_map_eq|].
  all: split; [by apply mean_nonneg|].
  all: split; [by simplify_map_eq|].
  all: split; [by apply mean_bounds|].
  all: split; [by simplify_map_eq|].
  all: rewrite ?length_map.
  - pose proof (mean_bounds 0 1 cx Hcx
                  ltac:(eapply Forall_impl; [exact Bcx|]; cbn; intros; lra)) as [_ Hu].
    split; [|done].
    apply Rdiv_lt_0_compat; [done|]. rewrite Lcx.
    destruct qs; [done|]. cbn [length]. rewrite S_INR.
    pose proof (pos_INR (length qs)). lra.
  - split; [done|]. rewrite <- Lcx. lra.
Qed.

Lemma get_mask_loss_metric_ranges_witness :
  exists (m a k x : R) (details : gmap string fval),
    get_mask_loss cfg_example sampler_finite = Some (Fin m, details) /\ 0 <= m /\
    details !! "temp"%string = Some (Fin a) /\ 0 <= a /\
    details !! "temp_count"%string = Some (Fin k) /\ 0 <= k < 1 /\
    details !! "complexity_loss"%string = Some (Fin x) /\ 0 < x /\
    x < (if complexity_mean sampler_finite then 1 else INR 2).
Proof.
  apply (get_mask_loss_metric_ranges cfg_example sampler_finite (ln (- -0.1 / 1.1))
           [(Fin 0, Fin (2/3)); (Fin 1, Fin 2)]).
  - apply log_endpoint_ratio_example.
  - cbn. lra.
  - cbn. lra.
  - reflexivity.
  - done.
  - by repeat constructor.
Defined.

(** Parameter tensors without a single edge.  When the store holds
    parameter tensors (so that [torch.cat] has something to join and
    [get_sampling_params] returns) but no edge at all, the loss is 0 and [temp_cond] is 1, while the average
    temperature and [temp_count], means of an empty tensor, are [NaN];
    the reported complexity is [NaN] when the mean is reported and 0
    otherwise. *)
Theorem get_mask_loss_no_edges (cfg : PruningCfg) (self : MaskSampler) (c : R) :
  Sampler.log_endpoint_ratio cfg = Some c ->
  get_sampling_params (sampling_params self) = Some [] ->
  exists details : gmap string fval,
    get_mask_loss cfg self = Some (Fin 0, details) /\
    details !! "temp"%string = Some NaN /\
    details !! "temp_count"%string = Some NaN /\
    details !! "temp_cond"%string = Some (Fin 1) /\
    details !! "complexity_loss"%string
    = Some (if complexity_mean self then NaN else Fin 0).
Proof.
  intros Hc Hempty. unfold get_mask_loss. rewrite Hempty. cbn [mbind option_bind].
  rewrite Hc.
  cbn [mbind option_bind map fsum foldr fmul fadd].
  assert (fmean [] = NaN) as Hmean.
  { unfold fmean, of_count. cbn. destruct (Req_dec_T 0 0); [|lra].
    unfold inf_times. by repeat destruct (Rlt_dec _ _); try lra. }
  replace (lamb cfg * 0 + temp_c self * 0) with 0 by lra.
  eexists. split; [reflexivity|].
  rewrite Hmean.
  split; [by simplify_map_eq|]. split; [by simplify_map_eq|].
  split.
  - simplify_map_eq. f_equal. apply temp_cond_sentinel. constructor.
  - simplify_map_eq. by destruct (complexity_mean self).
Qed.

Lemma get_mask_loss_no_edges_witness :
  exists details : gmap string fval,
    get_mask_loss cfg_example sampler_no_edges = Some (Fin 0, details) /\
    details !! "temp"%string = Some NaN /\
    details !! "temp_count"%string = Some NaN /\
    details !! "temp_cond"%string = Some (Fin 1) /\
    details !! "complexity_loss"%string
    = Some (if complexity_mean sampler_no_edges then NaN else Fin 0).
Proof.
  apply (get_mask_loss_no_edges cfg_example sampler_no_edges (ln (- -0.1 / 1.1))).
  - apply log_endpoint_ratio_example.
  - reflexivity.
Defined.

End MetricFacts.

(** ** The KL loss of [forward] *)

Section BroadcastFacts.
Import Tensor.
Context {A B C : Type}.

Lemma zip_bc_single_r (l : list A) (b : B) :
  zip_bc l [b] = Some (map (fun a => (a, b)) l).
Proof.
  unfold zip_bc. case_decide as H.
  - by destruct l as [|a [|? ?]].
  - by destruct l as [|a [|? ?]].
Qed.

Lemma zip_bc_elem (l1 : list A) (l2 : list B) (ps : list (A * B)) :
  zip_bc l1 l2 = Some ps -> Forall (fun p => fst p ∈ l1 /\ snd p ∈ l2) ps.
Proof.
  unfold zip_bc. case_decide as H.
  - intros [= <-]. apply Forall_forall. intros [a b] Hin.
    apply elem_of_zip_with in Hin as (a' & b' & [= -> ->] & Ha & Hb). by split.
  - assert (forall a, Forall (fun p : A * B => fst p ∈ [a] /\ snd p ∈ l2)
                             (map (pair a) l2)) as Hleft.
    { intros a. apply Forall_forall. intros [x y] Hin.
      apply list_elem_of_fmap in Hin as (z & [= -> ->] & Hz).
      split; [apply list_elem_of_here | done]. }
    assert (forall b, Forall (fun p : A * B => fst p ∈ l1 /\ snd p ∈ [b])
                             (map (fun a => (a, b)) l1)) as Hright.
    { intros b. apply Forall_forall. intros [x y] Hin.
      apply list_elem_of_fmap in Hin as (z & [= -> ->] & Hz).
      split; [done | apply list_elem_of_here]. }
    destruct l1 as [|a [|a' l1]].
    + destruct l2 as [|b [|b' l2]]; intros [= <-]. apply Hright.
    + intros [= <-]. apply Hleft.
    + destruct l2 as [|b [|b' l2]]; intros [= <-]. apply Hright.
Qed.

Lemma zipM_bc_Forall (f : A -> B -> option C) (P : C -> Prop)
    (l1 : list A) (l2 : list B) (r : list C) :
  (forall a b c, a ∈ l1 -> b ∈ l2 -> f a b = Some c -> P c) ->
  zipM_bc f l1 l2 = Some r -> Forall P r.
Proof.
  intros Hf. unfold zipM_bc.
  destruct (zip_bc l1 l2) as [ps|] eqn:E; [|done]. cbn [mbind option_bind].
  intros Hm. apply zip_bc_elem in E. apply mapM_Some_1 in Hm.
  induction Hm as [|[a b] c ps r Hc _ IH]; [constructor|].
  apply Forall_cons in E as [[Ha Hb] E]. constructor; [|by apply IH].
  by eapply Hf.
Qed.

End BroadcastFacts.

Section KlFacts.
Import Tensor Float ForwardLoss.

Lemma rsum_exp_pos (x : list R) : x <> [] -> 0 < rsum (map exp x).
Proof.
  intros Hne. destruct x as [|x0 x]; [done|]. clear Hne. cbn [map rsum foldr].
  pose proof (exp_pos x0).
  assert (0 <= foldr Rplus 0 (map exp x)).
  { induction x as [|y x IH]; cbn [map foldr]; [lra|]. pose proof (exp_pos y). lra. }
  lra.
Qed.

Lemma rsum_scale (c : R) (l : list R) :
  rsum (map (fun x => x * c) l) = rsum l * c.
Proof. unfold rsum. induction l as [|x l IH]; cbn [map foldr]; [lra|]. rewrite IH. lra. Qed.

(** The exponentials of a log-softmax sum to one. *)
Lemma log_softmax_normalised (x : list R) :
  x <> [] -> rsum (map exp (log_softmax x)) = 1.
Proof.
  intros Hne. pose proof (rsum_exp_pos x Hne) as Hpos. unfold log_softmax.
  rewrite map_map.
  rewrite (map_ext _ (fun xi => exp xi * / rsum (map exp x))).
  2:{ intros xi. unfold Rminus. by rewrite exp_plus, exp_Ropp, exp_ln. }
  rewrite <- (map_map exp (fun e => e * / rsum (map exp x))), rsum_scale.
  apply Rinv_r. lra.
Qed.

Lemma length_log_softmax (x : list R) : length (log_softmax x) = length x.
Proof. unfold log_softmax. by rewrite length_map. Qed.

Lemma kl_entry_lower (lx ly : R) : exp ly - exp lx <= kl_entry lx (exp ly).
Proof.
  unfold kl_entry. rewrite ln_exp.
  pose proof (exp_ineq1_le (lx - ly)) as H. pose proof (exp_pos ly) as Hy.
  assert (exp (lx - ly) * exp ly = exp lx) as E.
  { rewrite <- exp_plus. f_equal. lra. }
  nra.
Qed.

Lemma kl_pairs_lower (ps : list (R * R)) :
  rsum (map (fun p => exp (snd p)) ps) - rsum (map (fun p => exp (fst p)) ps)
  <= rsum (map (fun p => kl_entry (fst p) (exp (snd p))) ps).
Proof.
  unfold rsum. induction ps as [|[lx ly] ps IH]; cbn [map foldr fst snd]; [lra|].
  pose proof (kl_entry_lower lx ly). lra.
Qed.

(** Gibbs' inequality on one row: the KL sum of two normalised rows of
    the same length is not negative. *)
Lemma kl_row_nonneg (lx ly : list R) (z : R) :
  length lx = length ly ->
  rsum (map exp lx) = 1 -> rsum (map exp ly) = 1 ->
  kl_row lx ly = Some z -> 0 <= z.
Proof.
  intros Hlen Hx Hy. unfold kl_row, zip_bc.
  rewrite decide_True by (by rewrite length_map). cbn [mbind option_bind].
  intros [= <-].
  assert (zip lx (map exp ly) = map (fun p => (fst p, exp (snd p))) (zip lx ly)) as ->.
  { clear. revert ly. induction lx as [|a lx IH]; intros [|b ly]; cbn; [done..|].
    by rewrite IH. }
  rewrite map_map. cbn [fst snd].
  pose proof (kl_pairs_lower (zip lx ly)) as H.
  assert (map (fun p : R * R => exp (snd p)) (zip lx ly) = map exp ly) as E2.
  { rewrite <- (map_map snd exp). f_equal. apply snd_zip. lia. }
  assert (map (fun p : R * R => exp (fst p)) (zip lx ly) = map exp lx) as E1.
  { rewrite <- (map_map fst exp). f_equal. apply fst_zip. lia. }
  rewrite E1, E2, Hx, Hy in H. lra.
Qed.

Lemma kl_row_same (l : list R) : kl_row l l = Some 0.
Proof.
  unfold kl_row, zip_bc. rewrite decide_True by (by rewrite length_map).
  cbn [mbind option_bind]. f_equal. unfold rsum.
  induction l as [|x l IH]; cbn [map zip zip_with foldr fst snd]; [done|].
  change (zip_with pair l (map exp l)) with (zip l (map exp l)).
  rewrite IH. unfold kl_entry. rewrite ln_exp. lra.
Qed.

Lemma fmean_zeros (l : list R) :
  Forall (fun x => x = 0) l -> l <> [] -> fmean (map Fin l) = Fin 0.
Proof.
  intros Hz Hne. rewrite fmean_Fin by done.
  assert (foldr Rplus 0 l = 0) as ->.
  { clear Hne. induction Hz as [|x l -> _ IH]; cbn [foldr]; [done|]. rewrite IH. lra. }
  f_equal. unfold Rdiv. lra.
Qed.

Lemma fadd_zero_l (m : fval) : fadd (Fin 0) m = m.
Proof. destruct m; cbn; try done. f_equal. lra. Qed.

End KlFacts.

Section ForwardLossTheorems.
Import Tensor Float ForwardLoss.

(** The KL losses are never negative.  When every row of the two outputs
    has the same number [v > 0] of vocabulary entries, every entry of
    [kl_losses] that [forward] computes is at least 0, in either
    inference mode. *)
Theorem forward_kl_losses_nonnegative
    (parallel_inference : bool) (mask_loss : fval)
    (patched reference : list (list (list R))) (v : nat)
    (kl : list (list R)) (loss : fval) :
  (0 < v)%nat ->
  Forall (Forall (fun row => length row = v)) patched ->
  Forall (Forall (fun row => length row = v)) reference ->
  forward_loss parallel_inference mask_loss patched reference = Some (kl, loss) ->
  Forall (Forall (fun x => 0 <= x)) kl.
Proof.
  intros Hv Hp Hr. unfold forward_loss.
  assert (forall out : list (list (list R)),
            Forall (Forall (fun row => length row = v)) out ->
            Forall (Forall (fun row => length row = v /\ rsum (map exp row) = 1))
                   (map (map log_softmax) out)) as Hnorm.
  { intros out Hout. apply Forall_map. eapply Forall_impl; [exact Hout|].
    intros rows Hrows. cbn. apply Forall_map. eapply Forall_impl; [exact Hrows|].
    intros row Hrow. cbn. rewrite length_log_softmax. split; [done|].
    apply log_softmax_normalised. destruct row; [cbn in Hrow; lia | done]. }
  pose proof (Hnorm patched Hp) as Np. pose proof (Hnorm reference Hr) as Nr.
  set (P := map (map log_softmax) patched) in *.
  set (Q := map (map log_softmax) reference) in *.
  assert (forall pr og : list (list (list R)),
            Forall (Forall (fun row => length row = v /\ rsum (map exp row) = 1)) pr ->
            Forall (Forall (fun row => length row = v /\ rsum (map exp row) = 1)) og ->
            kl_losses pr og = Some kl ->
            Forall (Forall (fun x => 0 <= x)) kl) as Hkl.
  { intros pr og Hpr Hog. unfold kl_losses.
    apply zipM_bc_Forall. intros a b c Ha Hb.
    rewrite Forall_forall in Hpr, Hog. specialize (Hpr a Ha). specialize (Hog b Hb).
    apply zipM_bc_Forall. intros lx ly z Hlx Hly.
    rewrite Forall_forall in Hpr, Hog.
    destruct (Hpr lx Hlx) as [L1 S1]. destruct (Hog ly Hly) as [L2 S2].
    apply kl_row_nonneg; [congruence | done | done]. }
  destruct parallel_inference.
  - destruct P as [|o rest]; [done|]. cbn [mbind option_bind].
    apply Forall_cons in Np as [No Nrest].
    destruct (kl_losses rest [o]) as [kl'|] eqn:E; [|done]. cbn [mbind option_bind].
    intros [= <- _]. eapply (Hkl rest [o]); [done | by constructor | done].
  - cbn [mbind option_bind].
    destruct (kl_losses P Q) as [kl'|] eqn:E; [|done]. cbn [mbind option_bind].
    intros [= <- _]. by eapply (Hkl P Q).
Qed.

(** When the patched output equals the reference output in every sample
    (as it does with every gate at one), every KL loss is exactly 0 and
    the loss of [forward] is the mask loss. *)
Theorem forward_loss_equal_outputs
    (mask_loss : fval) (ns : nat) (output : list (list R)) :
  (0 < ns)%nat -> output <> [] ->
  forward_loss false mask_loss (replicate ns output) [output]
  = Some (replicate ns (replicate (length output) 0), mask_loss).
Proof.
  intros Hns Hne. unfold forward_loss. cbn [mbind option_bind].
  set (L := map log_softmax output).
  change (map (map log_softmax) [output]) with [L].
  assert (zipM_bc kl_row L L = Some (replicate (length output) 0)) as Hrow.
  { unfold zipM_bc, zip_bc. rewrite decide_True by done. cbn [mbind option_bind].
    apply mapM_Some_2. unfold L. rewrite <- (length_map log_softmax output).
    generalize (map log_softmax output). intros l.
    induction l as [|r l IH]; cbn [zip zip_with length replicate]; constructor.
    - apply kl_row_same.
    - exact IH. }
  assert (kl_losses (map (map log_softmax) (replicate ns output)) [L]
          = Some (replicate ns (replicate (length output) 0))) as ->.
  { unfold kl_losses, zipM_bc. rewrite zip_bc_single_r. cbn [mbind option_bind].
    apply mapM_Some_2. clear Hns.
    induction ns as [|n IH]; cbn [replicate map]; constructor; [exact Hrow | exact IH]. }
  cbn [mbind option_bind]. do 2 f_equal.
  rewrite fmean_zeros; [apply fadd_zero_l | |].
  - apply Forall_concat, Forall_replicate, Forall_replicate. reflexivity.
  - destruct ns as [|ns]; [lia|]. by destruct output.
Qed.

Lemma forward_kl_losses_nonnegative_witness :
  exists kl loss,
    forward_loss false (Fin 0) [[[0; 1]]] [[[1; 0]]] = Some (kl, loss) /\
    Forall (Forall (fun x => 0 <= x)) kl.
Proof.
  eexists _, _. split; [reflexivity|].
  eapply (forward_kl_losses_nonnegative false (Fin 0) [[[0; 1]]] [[[1; 0]]] 2).
  - lia.
  - by repeat constructor.
  - by repeat constructor.
  - reflexivity.
Defined.

Lemma forward_loss_equal_outputs_witness :
  forward_loss false (Fin 5) (replicate 2 [[0; 1]]) [[[0; 1]]]
  = Some (replicate 2 (replicate (length [[0; 1]]) 0), Fin 5).
Proof.
  apply (forward_loss_equal_outputs (Fin 5) 2 [[0; 1]]); [lia | done].
Defined.

End ForwardLossTheorems.

(** ** The fixed mask of direct ablation *)

Section ComponentFacts.
Import Tensor Samplers.

Lemma concat_replicate_tab {A : Type} (bsz n : nat) (f : nat -> A) :
  concat (replicate bsz (tab n f)) = tab (bsz * n) (fun r => f (r mod n)%nat).
Proof.
  destruct (decide (n = 0%nat)) as [-> | Hn].
  { rewrite Nat.mul_0_r. induction bsz as [|b IH]; [done|]. exact IH. }
  induction bsz as [|b IH]; [done|].
  cbn [replicate concat]. rewrite IH.
  replace (S b * n)%nat with (n + b * n)%nat by lia.
  unfold tab. rewrite seq_app, map_app. f_equal.
  - apply map_ext_in. intros r Hr. apply in_seq in Hr.
    by rewrite Nat.mod_small by lia.
  - cbn [Nat.add]. pose proof (fmap_add_seq n 0 (b * n)) as E.
    rewrite Nat.add_0_r in E. rewrite <- E, map_map.
    apply map_ext. intros r. f_equal.
    replace (n + r)%nat with (r + 1 * n)%nat by lia.
    by rewrite Nat.Div0.mod_add.
Qed.

Lemma unflatten_groups_tab {A : Type} (rows g n : nat) (f : nat -> nat -> A) :
  g <> 0%nat ->
  unflatten_groups g (tab rows (fun s => tab (g * n) (f s)))
  = Some (tab rows (fun s => tab g (fun i => tab n (fun h => f s (i * n + h)%nat)))).
Proof.
  intros Hg. unfold unflatten_groups. rewrite decide_False by done.
  apply mapM_tab. intros s _. rewrite length_tab.
  rewrite decide_True by (rewrite Nat.mul_comm; apply Nat.Div0.mod_mul).
  cbv zeta. f_equal. rewrite (Nat.mul_comm g n), Nat.div_mul by done.
  apply tab_ext. intros i Hi. rewrite drop_tab, take_tab by nia.
  apply tab_ext. intros h _. f_equal; lia.
Qed.

(** One head per sample.  With [n_samples = n_layers * n_heads] and at
    least one layer, the constructor returns masks with
    [batch_size * n_samples] rows per layer in which the row of sample [s]
    has gate 0 for exactly one head of the whole model, head
    [s mod n_heads] of layer [s / n_heads], and gate 1 for every other
    head; every MLP gate is 1. *)
Theorem single_component_one_head_per_sample (cfg : ComponentCfg) :
  n_samples cfg = (n_layers cfg * n_heads cfg)%nat ->
  n_layers cfg <> 0%nat ->
  let total := (n_layers cfg * n_heads cfg)%nat in
  SingleComponentMaskSampler cfg
  = Some (tab (n_layers cfg) (fun i =>
            tab (batch_size cfg * total) (fun r =>
              tab (n_heads cfg) (fun h =>
                if decide ((r mod total)%nat = (i * n_heads cfg + h)%nat)
                then 0 else 1))),
          tab (n_layers cfg) (fun _ => tab (batch_size cfg * total) (fun _ => 1))).
Proof.
  intros Hs Hl total. unfold SingleComponentMaskSampler. fold total.
  rewrite decide_False by (by intros ?).
  unfold total at 3.
  rewrite (unflatten_groups_tab total (n_layers cfg) (n_heads cfg)
             (fun s j => 1 - (if decide (s = j) then 1 else 0))) by done.
  cbn [mbind option_bind].
  replace (seq 0 (n_layers cfg)) with (tab (n_layers cfg) (fun i => i))
    by (unfold tab; apply map_id).
  rewrite (mapM_tab _ (n_layers cfg) _
             (fun i => tab total (fun s => tab (n_heads cfg) (fun h =>
                1 - (if decide (s = (i * n_heads cfg + h)%nat) then 1 else 0))))).
  2:{ intros i Hi. apply mapM_tab. intros s _. by rewrite lookup_tab. }
  cbn [mbind option_bind]. rewrite !map_tab. f_equal. f_equal.
  - apply tab_ext. intros i _. unfold repeat_batch. rewrite map_tab.
    rewrite concat_replicate_tab.
    apply tab_ext. intros r _. rewrite map_tab. apply tab_ext. intros h _.
    case_decide; lra.
  - apply tab_ext. intros i _. unfold repeat_batch. rewrite map_tab.
    rewrite concat_replicate_tab.
    apply tab_ext. intros r _. lra.
Qed.

Lemma single_component_one_head_per_sample_witness :
  SingleComponentMaskSampler component_cfg_example
  = Some (tab 2 (fun i =>
            tab (2 * (2 * 3)) (fun r =>
              tab 3 (fun h =>
                if decide ((r mod (2 * 3))%nat = (i * 3 + h)%nat) then 0 else 1))),
          tab 2 (fun _ => tab (2 * (2 * 3)) (fun _ => 1))).
Proof.
  apply (single_component_one_head_per_sample component_cfg_example); done.
Defined.

(** The constructor raises when the number of samples is not the number
    of heads, and when there is no layer. *)
Theorem single_component_requires_all_heads (cfg : ComponentCfg) :
  n_samples cfg <> (n_layers cfg * n_heads cfg)%nat \/ n_layers cfg = 0%nat ->
  SingleComponentMaskSampler cfg = None.
Proof.
  intros [Hs | Hz]; unfold SingleComponentMaskSampler.
  - by rewrite decide_True.
  - case_decide; [done|]. unfold unflatten_groups. by rewrite decide_True.
Qed.

Lemma single_component_requires_all_heads_witness :
  SingleComponentMaskSampler
    {| n_layers := 2; n_heads := 3; n_samples := 5; batch_size := 2 |} = None.
Proof.
  apply (single_component_requires_all_heads
           {| n_layers := 2; n_heads := 3; n_samples := 5; batch_size := 2 |}).
  left. cbn. lia.
Defined.

End ComponentFacts.

(** ** A uniform gate interpolates between the two extremes *)

Section BlendAlgebra.
Import Scalar Tensor Pruner Shapes.
Context {V : Type} `{!VectorSpace V}.

Lemma vscale_vzero (a : R) : vscale a (vzero : V) = vzero.
Proof.
  rewrite <- (vscale_zero (vzero : V)), vscale_mult.
  by replace (a * 0) with 0 by lra.
Qed.

Lemma vscale_vsum_tab (a : R) (n : nat) (f : nat -> V) :
  vscale a (vsum (tab n f)) = vsum (tab n (fun i => vscale a (f i))).
Proof.
  induction n as [|n IH]; [apply vscale_vzero|].
  by rewrite !tab_snoc, !vsum_snoc, vscale_vadd, IH.
Qed.

Lemma blend_vadd (g : R) (a b c d : V) :
  vadd (blend g a b) (blend g c d) = blend g (vadd a c) (vadd b d).
Proof. unfold blend. by rewrite !vscale_vadd, vadd_swap. Qed.

Lemma blend_same (g : R) (b : V) : blend g b b = b.
Proof.
  unfold blend. rewrite <- vscale_plus.
  replace (g + (1 - g)) with 1 by lra. apply vscale_one.
Qed.

Lemma vsum_blend_tab (g : R) (n : nat) (c m : nat -> V) :
  vsum (tab n (fun j => blend g (c j) (m j)))
  = blend g (vsum (tab n c)) (vsum (tab n m)).
Proof. unfold blend. by rewrite vsum_tab_vadd, !vscale_vsum_tab. Qed.

Lemma attn_blend_uniform (g : R) (na nh : nat) (f : nat -> nat -> V -> V)
    (c m : nat -> nat -> V) :
  (forall l h x y, f l h (blend g x y) = blend g (f l h x) (f l h y)) ->
  attn_blend na nh f (fun _ _ => g) c m
  = blend g (vsum (tab na (fun l => vsum (tab nh (fun h => f l h (c l h))))))
            (vsum (tab na (fun l => vsum (tab nh (fun h => f l h (m l h)))))).
Proof.
  intros Hf. unfold attn_blend. rewrite <- vsum_blend_tab. f_equal.
  apply tab_ext. intros l _. rewrite <- vsum_blend_tab. f_equal.
  apply tab_ext. intros h _. apply Hf.
Qed.

Lemma source_map_blend (self : EdgePruner V) (w : nat -> nat -> V -> V) (g : R) :
  (cache_compressed_attn self = true ->
   forall l h, (forall x y, w l h (vadd x y) = vadd (w l h x) (w l h y)) /\
               (forall a x, w l h (vscale a x) = vscale a (w l h x))) ->
  forall l h x y,
    source_map self w l h (blend g x y)
    = blend g (source_map self w l h x) (source_map self w l h y).
Proof.
  intros Hw l h x y. unfold source_map.
  destruct (cache_compressed_attn self); [|done].
  destruct (Hw eq_refl l h) as [Hadd Hscale]. unfold blend.
  by rewrite Hadd, !Hscale.
Qed.

End BlendAlgebra.

Section Interpolation.
Import Scalar Tensor Pruner Shapes.

(** With one gate value [g] on every edge into the MLP of a layer,
    [ablation_backward] off and a linear output projection, the hook
    reconstructs at every position after the first the mixture
    [g * r + (1-g) * a] of the residual stream [r] of the cached outputs
    (what all gates at one give) and of the fully ablated input [a] (what
    all gates at zero give). *)
Theorem mlp_hook_uniform_gate_interpolates
    (V : Type) (VS : VectorSpace V) (self : EdgePruner V)
    (layer_no nb np nh k a : nat) (g : R)
    (mc : nat -> nat -> nat -> V) (ac : nat -> nat -> nat -> nat -> V)
    (mm : nat -> V) (ma : nat -> nat -> V) (w : nat -> nat -> V -> V)
    (x : nat -> nat -> V) :
  mlp_hook_state self layer_no nb (S np) nh k a
    (fun _ _ => g) (fun _ _ _ => g) mc ac mm ma w ->
  parallel_inference self = false ->
  ablation_backward self = false ->
  (cache_compressed_attn self = true ->
   forall l h, (forall x y, w l h (vadd x y) = vadd (w l h x) (w l h y)) /\
               (forall c x, w l h (vscale c x) = vscale c (w l h x))) ->
  pruning_edge_mlp_hook_all_tokens self layer_no (tab nb (fun b => tab (S np) (x b)))
  = ([], Returned (tab nb (fun b => tab (S np) (fun p =>
       match p with
       | O => x b 0%nat
       | S _ =>
           blend g
             (residual self ((layer_no + 1) `min` n_layers self) nh k a mc ac w b p)
             (ablated_entry self layer_no nh k a mm ma w vzero)
       end)))).
Proof.
  intros Hstate Hpar Hab Hw.
  rewrite (mlp_hook_tab self layer_no nb np nh k a _ _ mc ac mm ma w vzero x
             Hstate Hpar) by congruence.
  do 2 f_equal. apply tab_ext. intros b _. apply tab_ext. intros [|p] _; [done|].
  rewrite mlp_hook_entry_blend by done.
  unfold ablated_entry. rewrite mlp_hook_entry_blend by done.
  unfold mlp_blend_entry, residual.
  rewrite vsum_blend_tab.
  rewrite (attn_blend_uniform g (S a) nh (source_map self w))
    by (by apply source_map_blend).
  rewrite blend_vadd.
  rewrite <- (blend_same g
                (vsum (take ((layer_no + 1) `min` n_layers self) (post_bias self)))) at 1.
  rewrite blend_vadd. f_equal. f_equal. f_equal.
  - f_equal. apply tab_ext. intros j _. by rewrite blend_zero.
  - unfold attn_blend. f_equal. apply tab_ext. intros l _. f_equal.
    apply tab_ext. intros h _. by rewrite blend_zero.
Qed.

Lemma mlp_hook_uniform_gate_interpolates_witness :
  let self := pruner_example false false 2 2 [[0; 1]] (mask_example 0.5) in
  pruning_edge_mlp_hook_all_tokens self 1 (tab 1 (fun b => tab 2 (fun p => 0)))
  = ([], Returned (tab 1 (fun b => tab 2 (fun p =>
       match p with
       | O => 0
       | S _ =>
           blend 0.5
             (residual self ((1 + 1) `min` n_layers self) 1 1 1
                       mc_example ac_example w_example b p)
             (ablated_entry self 1 1 1 1 mm_example ma_example w_example vzero)
       end)))).
Proof.
  apply (mlp_hook_uniform_gate_interpolates R real_vector_space
           (pruner_example false false 2 2 [[0; 1]] (mask_example 0.5))
           1 1 1 1 1 1 0.5 mc_example ac_example mm_example ma_example w_example
           (fun _ _ => 0)).
  - apply mlp_state_example.
  - reflexivity.
  - reflexivity.
  - intros _ l h. split.
    + intros x y. destruct l; cbn; lra.
    + intros c x. destruct l; cbn; lra.
Defined.

End Interpolation.

(** ** The modal values as one tensor *)

Section ModesFacts.
Import Tensor Modes.

Lemma length_concat_tab {A : Type} (nh d : nat) (f : nat -> nat -> A) :
  length (concat (tab nh (fun h => tab d (f h)))) = (nh * d)%nat.
Proof.
  induction nh as [|nh IH]; [done|].
  rewrite tab_snoc, concat_app, length_app, IH. cbn [concat length].
  rewrite length_app, length_tab. cbn. lia.
Qed.

(** [get_modes] needs the flattened head modes of a layer to be as long
    as an MLP mode.  For [n > 0] layers of [nh] heads with modes of [d]
    features and MLP modes of [d_model] features, [get_modes] returns,
    the [n] flattened attention rows followed by the [n + 1] MLP rows,
    exactly when [nh * d = d_model]; otherwise the concatenation
    raises. *)
Theorem get_modes_shape (n nh d d_model : nat)
    (ma : nat -> nat -> nat -> R) (mm : nat -> nat -> R) :
  n <> 0%nat ->
  let modal_attention := tab n (fun l => tab nh (fun h => tab d (ma l h))) in
  let modal_mlp := tab (S n) (fun j => tab d_model (mm j)) in
  ((nh * d)%nat = d_model ->
   get_modes modal_attention modal_mlp = Some (map (@concat R) modal_attention ++ modal_mlp)) /\
  ((nh * d)%nat <> d_model -> get_modes modal_attention modal_mlp = None) /\
  (forall modes, get_modes modal_attention modal_mlp = Some modes ->
     length modes = (2 * n + 1)%nat /\ Forall (fun row => length row = d_model) modes).
Proof.
  intros Hn modal_attention modal_mlp.
  assert (Forall (fun row : list R => length row = (nh * d)%nat)
                 (map (@concat R) modal_attention)) as Ha.
  { apply Forall_map, Forall_forall. intros row Hin. cbn.
    apply list_elem_of_lookup in Hin as [l Hl]. unfold modal_attention in Hl.
    destruct (decide (l < n)%nat) as [Hlt|Hge].
    - rewrite lookup_tab in Hl by done. injection Hl as <-. apply length_concat_tab.
    - apply lookup_lt_Some in Hl. rewrite length_tab in Hl. lia. }
  assert (Forall (fun row : list R => length row = d_model) modal_mlp) as Hm.
  { apply Forall_forall. intros row Hin.
    apply list_elem_of_lookup in Hin as [j Hj]. unfold modal_mlp in Hj.
    destruct (decide (j < S n)%nat) as [Hlt|Hge].
    - rewrite lookup_tab in Hj by done. injection Hj as <-. apply length_tab.
    - apply lookup_lt_Some in Hj. rewrite length_tab in Hj. lia. }
  assert (exists r0 rest, map (@concat R) modal_attention = r0 :: rest /\
                          length r0 = (nh * d)%nat) as (r0 & rest & Er & Lr).
  { destruct n as [|n']; [done|]. unfold modal_attention. rewrite tab_S. cbn [map].
    eexists _, _. split; [reflexivity|]. apply length_concat_tab. }
  assert (get_modes modal_attention modal_mlp
          = if decide (Forall (fun r' : list R => length r' = (nh * d)%nat)
                              (map (@concat R) modal_attention ++ modal_mlp))
            then Some (map (@concat R) modal_attention ++ modal_mlp) else None) as Hget.
  { unfold get_modes, cat_rows. cbn [concat]. rewrite app_nil_r.
    rewrite Er. cbn [app]. rewrite Lr. done. }
  rewrite Hget. split; [|split].
  - intros E. rewrite decide_True; [done|].
    apply Forall_app. split; [done|]. by rewrite E.
  - intros E. rewrite decide_False; [done|].
    intros [_ H2]%Forall_app. unfold modal_mlp in H2. rewrite tab_S in H2.
    apply Forall_cons in H2 as [H2 _]. rewrite length_tab in H2. congruence.
  - intros modes. case_decide as Hall; [|done]. intros [= <-].
    apply Forall_app in Hall as [_ H2].
    assert ((nh * d)%nat = d_model) as E.
    { unfold modal_mlp in H2. rewrite tab_S in H2.
      apply Forall_cons in H2 as [H2 _]. rewrite length_tab in H2. congruence. }
    split.
    + rewrite length_app, length_map. unfold modal_attention, modal_mlp.
      rewrite !length_tab. lia.
    + apply Forall_app. split; [by rewrite <- E | done].
Qed.

Lemma get_modes_shape_witness :
  let modal_attention := tab 2 (fun l => tab 3 (fun h => tab 4 (fun _ => 0))) in
  let modal_mlp := tab (S 2) (fun j => tab 12 (fun _ => 1)) in
  ((3 * 4)%nat = 12%nat ->
   get_modes modal_attention modal_mlp = Some (map (@concat R) modal_attention ++ modal_mlp)) /\
  ((3 * 4)%nat <> 12%nat -> get_modes modal_attention modal_mlp = None) /\
  (forall modes, get_modes modal_attention modal_mlp = Some modes ->
     length modes = (2 * 2 + 1)%nat /\ Forall (fun row => length row = 12%nat) modes).
Proof.
  apply (get_modes_shape 2 3 4 12 (fun _ _ _ => 0) (fun _ _ => 1)). lia.
Defined.

End ModesFacts.

(** ** Plotting a log *)

Section PlotFacts.
Import TrainingUtils.

Lemma py_range_all (n : Z) : py_range 0 n 1 = Some (seqZ 0 n).
Proof.
  unfold py_range. rewrite decide_False by lia. rewrite decide_True by lia.
  f_equal. replace ((n - 0 + 1 - 1) / 1)%Z with n by (rewrite Z.div_1_r; lia).
  rewrite <- (map_id (seqZ 0 n)) at 2. apply map_ext. intros k. unfold id. lia.
Qed.

Lemma py_index_all (ys : list R) :
  mapM (py_index ys) (seqZ 0 (Z.of_nat (length ys))) = Some ys.
Proof.
  apply mapM_Some_2, Forall2_same_length_lookup_2.
  - rewrite length_seqZ. lia.
  - intros i x y Hx Hy. apply lookup_seqZ in Hx as [-> Hi].
    unfold py_index. rewrite decide_True by lia.
    by replace (Z.to_nat (0 + Z.of_nat i)) with i by lia.
Qed.

Lemma book_lookup_aligned (self : LinePlot) (s : string) (ys : list R) :
  aligned self -> book_lookup (stat_book self) s = Some ys ->
  Z.of_nat (length ys) = t self.
Proof.
  intros Hal. unfold book_lookup.
  destruct (list_find _ _) as [[i [k series]]|] eqn:E; [|done].
  cbn [mbind option_bind snd]. intros [= <-].
  apply list_find_Some in E as (Hi & _ & _).
  unfold aligned in Hal. rewrite Forall_forall in Hal.
  apply (Hal (k, series)). by eapply list_elem_of_lookup_2.
Qed.

(** The comprehension of [plot] for a known column, and for a name that
    is not a column. *)
Lemma series_values_known (book : list (string * list R)) (s : string)
    (ys : list R) (ts : list Z) :
  book_lookup book s = Some ys ->
  series_values book s ts
  = match mapM (py_index ys) ts with
    | Some y => inr y
    | None => inl IndexError
    end.
Proof.
  intros Hys. induction ts as [|i ts IH]; [done|].
  cbn [series_values]. rewrite Hys, IH. cbn [mapM].
  destruct (py_index ys i) as [y|]; [|done]. cbn [mbind option_bind].
  by destruct (mapM (py_index ys) ts).
Qed.

Lemma series_values_unknown (book : list (string * list R)) (s : string)
    (ts : list Z) :
  book_lookup book s = None ->
  series_values book s ts = match ts with [] => inr [] | _ :: _ => inl KeyError end.
Proof. intros Hs. destruct ts; [done|]. cbn [series_values]. by rewrite Hs. Qed.

(** The loop of [plot] over requested columns that are all known. *)
Lemma plot_known_series (self : LinePlot) (series : list string)
    (acc : list (list Z * list R)) :
  aligned self ->
  Forall (fun s => is_Some (book_lookup (stat_book self) s)) series ->
  exists lines,
    foldl (fun (acc : list (list Z * list R) * option exn) s =>
             match acc with
             | (lines, Some e) => (lines, Some e)
             | (lines, None) =>
                 match series_values (stat_book self) s (seqZ 0 (t self)) with
                 | inl e => (lines, Some e)
                 | inr y => (lines ++ [(seqZ 0 (t self), y)], None)
                 end
             end) (acc, None) series
    = (acc ++ lines, None) /\
    Forall2 (fun s line =>
               fst line = seqZ 0 (t self) /\
               book_lookup (stat_book self) s = Some (snd line)) series lines.
Proof.
  intros Hal Hall. revert acc.
  induction Hall as [|s series [ys Hys] _ IH]; intros acc.
  - exists []. cbn [foldl]. by rewrite app_nil_r.
  - cbn [foldl]. rewrite (series_values_known _ _ ys _ Hys).
    rewrite <- (book_lookup_aligned self s ys Hal Hys), py_index_all.
    rewrite (book_lookup_aligned self s ys Hal Hys).
    destruct (IH (acc ++ [(seqZ 0 (t self), ys)])) as (lines & -> & Hl).
    exists ((seqZ 0 (t self), ys) :: lines). split.
    + by rewrite <- app_assoc.
    + constructor; [by split | done].
Qed.

(** Once an exception is raised the loop draws nothing more. *)
Lemma plot_raised (self : LinePlot) (ts : list Z) (series : list string)
    (lines : list (list Z * list R)) (e : exn) :
  foldl (fun (acc : list (list Z * list R) * option exn) s =>
           match acc with
           | (lines, Some e) => (lines, Some e)
           | (lines, None) =>
               match series_values (stat_book self) s ts with
               | inl e => (lines, Some e)
               | inr y => (lines ++ [(ts, y)], None)
               end
           end) (lines, Some e) series
  = (lines, Some e).
Proof. induction series as [|s series IH]; [done|]. exact IH. Qed.

(** With its default arguments, [plot] draws every requested column in
    full.  On a log whose series are aligned with [t], a call
    [plot(series)] for known columns raises nothing and hands to the
    plotting library, for every requested column in turn, the steps
    [0 .. t-1] and the whole series of the column. *)
Theorem plot_defaults (self : LinePlot) (series : list string) :
  aligned self ->
  Forall (fun s => is_Some (book_lookup (stat_book self) s)) series ->
  exists lines,
    plot self series 1 0 0 = (lines, None) /\
    Forall2 (fun s line =>
               fst line = seqZ 0 (t self) /\
               book_lookup (stat_book self) s = Some (snd line)) series lines.
Proof.
  intros Hal Hall. unfold plot. rewrite decide_True by lia.
  rewrite py_range_all.
  destruct (plot_known_series self series [] Hal Hall) as (lines & -> & Hl).
  by exists lines.
Qed.

Lemma plot_defaults_witness :
  exists lines,
    plot log_two_entries ["temp"; "kl_loss"]%string 1 0 0 = (lines, None) /\
    Forall2 (fun s line =>
               fst line = seqZ 0 (t log_two_entries) /\
               book_lookup (stat_book log_two_entries) s = Some (snd line))
            ["temp"; "kl_loss"]%string lines.
Proof.
  apply (plot_defaults log_two_entries ["temp"; "kl_loss"]%string).
  - by repeat constructor.
  - repeat constructor; by eexists.
Defined.

(** On a log with at least one entry made, a requested name that is not
    a column raises [KeyError], after the columns requested before it
    have been drawn; nothing is drawn for the names after it. *)
Theorem plot_unknown_series
    (self : LinePlot) (before after : list string) (s : string) :
  aligned self -> (1 <= t self)%Z ->
  Forall (fun s => is_Some (book_lookup (stat_book self) s)) before ->
  book_lookup (stat_book self) s = None ->
  exists lines,
    plot self (before ++ s :: after) 1 0 0 = (lines, Some KeyError) /\
    length lines = length before.
Proof.
  intros Hal Ht Hall Hs. unfold plot. rewrite decide_True by lia.
  rewrite py_range_all, foldl_app.
  destruct (plot_known_series self before [] Hal Hall) as (lines & -> & Hl).
  cbn [foldl app]. rewrite (series_values_unknown _ _ _ Hs).
  destruct (seqZ 0 (t self)) as [|i ts] eqn:E.
  - apply (f_equal length) in E. rewrite length_seqZ in E. cbn in E. lia.
  - exists lines. split; [apply plot_raised|]. symmetry. by eapply Forall2_length.
Qed.

Lemma plot_unknown_series_witness :
  exists lines,
    plot log_two_entries (["temp"%string] ++ "loss"%string :: ["kl_loss"%string]) 1 0 0
    = (lines, Some KeyError) /\
    length lines = length ["temp"%string].
Proof.
  apply (plot_unknown_series log_two_entries ["temp"%string] ["kl_loss"%string]
           "loss"%string).
  - by repeat constructor.
  - cbn. lia.
  - repeat constructor; by eexists.
  - reflexivity.
Defined.

(** On a log without entries the range of steps is empty and the
    dictionary is never read: with its default arguments [plot] hands an
    empty line to the plotting library for every requested name, column
    of the log or not, and raises no [KeyError]. *)
Theorem plot_without_entries (self : LinePlot) (series : list string) :
  (t self <= 0)%Z ->
  plot self series 1 0 0 = (map (fun _ => ([], [])) series, None).
Proof.
  intros Ht. unfold plot. rewrite decide_True by lia.
  rewrite py_range_all.
  assert (seqZ 0 (t self) = []) as ->.
  { apply length_zero_iff_nil. rewrite length_seqZ. lia. }
  enough (forall acc : list (list Z * list R),
            foldl (fun (acc : list (list Z * list R) * option exn) s =>
                     match acc with
                     | (lines, Some e) => (lines, Some e)
                     | (lines, None) =>
                         match series_values (stat_book self) s [] with
                         | inl e => (lines, Some e)
                         | inr y => (lines ++ [([], y)], None)
                         end
                     end) (acc, None) series
            = (acc ++ map (fun _ => ([], [])) series, None)) as H by apply (H []).
  induction series as [|s' series IH]; intros acc; cbn [foldl map series_values].
  - by rewrite app_nil_r.
  - rewrite IH. by rewrite <- app_assoc.
Qed.

Lemma plot_without_entries_witness :
  plot log_fresh ["temp"; "loss"]%string 1 0 0 = ([([], []); ([], [])], None).
Proof. apply (plot_without_entries log_fresh ["temp"; "loss"]%string). cbn. lia. Defined.

End PlotFacts.

